(** * package_github_upload.py: a shallow embedding and its properties

    Python [str] values are modelled as [string] (text is taken to be ASCII,
    so that encoding and decoding are the identity), paths as lists of
    components below the root, the file system as a finite map from paths to
    nodes, and effectful code in a state-and-exception monad. *)

From Stdlib Require Import Ascii String List NArith ZArith Lia Bool.
From Stdlib Require Import Sorting.Permutation Sorting.Sorted DecimalString.
From stdpp Require Import base option list gmap strings sorting.

(** ** Python's [str] operations used by the script *)

Module PyStr.

Definition dquote : ascii := ascii_of_nat 34.
Definition squote : ascii := ascii_of_nat 39.
Definition LF : ascii := ascii_of_nat 10.
Definition CR : ascii := ascii_of_nat 13.

Definition ascii_eqb (a b : ascii) : bool := Ascii.eqb a b.
Global Arguments ascii_eqb : simpl never.

(** [str.isspace] on one character (ASCII range). *)
Definition is_space (c : ascii) : bool :=
  let n := nat_of_ascii c in
  (Nat.leb 9 n && Nat.leb n 13) || (Nat.leb 28 n && Nat.leb n 31) || Nat.eqb n 32.

(** The line boundaries of [str.splitlines] (ASCII range). *)
Definition is_linebreak (c : ascii) : bool :=
  let n := nat_of_ascii c in
  (Nat.leb 10 n && Nat.leb n 13) || (Nat.leb 28 n && Nat.leb n 30).

(** [s.startswith(p)], returning what follows the prefix. *)
Fixpoint strip_prefix (p s : string) : option string :=
  match p with
  | EmptyString => Some s
  | String a p' =>
      match s with
      | EmptyString => None
      | String b s' => if ascii_eqb a b then strip_prefix p' s' else None
      end
  end.

Definition startswith (s p : string) : bool :=
  match strip_prefix p s with Some _ => true | None => false end.

(** [s.partition(sep)] at the first occurrence of [sep]: the text before it
    and the text after it, or [None] when [sep] does not occur. *)
Fixpoint find_first (sep s : string) : option (string * string) :=
  match strip_prefix sep s with
  | Some rest => Some (EmptyString, rest)
  | None =>
      match s with
      | EmptyString => None
      | String c s' =>
          match find_first sep s' with
          | Some (a, b) => Some (String c a, b)
          | None => None
          end
      end
  end.

(** [sep in s] *)
Definition contains (sep s : string) : bool :=
  match find_first sep s with Some _ => true | None => false end.

(** [s.split(sep, 1)] *)
Definition split1 (sep s : string) : list string :=
  match find_first sep s with
  | Some (a, b) => [a; b]
  | None => [s]
  end.

Fixpoint lstrip (s : string) : string :=
  match s with
  | EmptyString => EmptyString
  | String c s' => if is_space c then lstrip s' else s
  end.

Fixpoint rstrip (s : string) : string :=
  match s with
  | EmptyString => EmptyString
  | String c s' =>
      match rstrip s' with
      | EmptyString => if is_space c then EmptyString else String c EmptyString
      | r => String c r
      end
  end.

Definition strip (s : string) : string := rstrip (lstrip s).

(** [s.split()]: the maximal runs of non-space characters. *)
Fixpoint split_ws (s : string) : list string :=
  match s with
  | EmptyString => []
  | String c s' =>
      if is_space c then split_ws s'
      else
        match s' with
        | EmptyString => [String c EmptyString]
        | String c' _ =>
            if is_space c' then String c EmptyString :: split_ws s'
            else
              match split_ws s' with
              | w :: ws => String c w :: ws
              | [] => [String c EmptyString]
              end
        end
  end.

(** [s.splitlines()] *)
Fixpoint splitlines (s : string) : list string :=
  match s with
  | EmptyString => []
  | String c s' =>
      if is_linebreak c then
        match s' with
        | String c' s'' =>
            if ascii_eqb c CR && ascii_eqb c' LF
            then EmptyString :: splitlines s''
            else EmptyString :: splitlines s'
        | EmptyString => [EmptyString]
        end
      else
        match splitlines s' with
        | l :: ls => String c l :: ls
        | [] => [String c EmptyString]
        end
  end.

(** [sep.join(parts)] *)
Fixpoint join (sep : string) (parts : list string) : string :=
  match parts with
  | [] => EmptyString
  | [p] => p
  | p :: ps => p +:+ sep +:+ join sep ps
  end.

Definition tail (s : string) : string :=
  match s with EmptyString => EmptyString | String _ s' => s' end.

Definition nonempty (s : string) : bool :=
  match s with EmptyString => false | _ => true end.

End PyStr.

Import PyStr.

Fixpoint all_chars (f : ascii -> bool) (s : string) : bool :=
  match s with
  | EmptyString => true
  | String c s' => f c && all_chars f s'
  end.

(** [lines] written one per line, each ended by a newline. *)
Fixpoint unlines (lines : list string) : string :=
  match lines with
  | [] => EmptyString
  | l :: ls => l +:+ String LF (unlines ls)
  end.

(** ** Environment prober: path-from-text extraction *)

(** The body of the loop of [_extract_packages_path_from_grep] for one line:
    [Some tail] when the line makes the function return, [None] when the loop
    goes on to the next line. *)
Definition extract_from_line (line : string) : option string :=
  if negb (contains "packages_path" line) then None
  else
    let parts := nth 1 (split1 "packages_path" line) EmptyString in
    if contains ":" parts then
      let tail := strip (nth 1 (split1 ":" parts) EmptyString) in
      let tail :=
        if (startswith tail (String squote EmptyString)
              && contains (String squote EmptyString) (PyStr.tail tail))
           || (startswith tail (String dquote EmptyString)
              && contains (String dquote EmptyString) (PyStr.tail tail))
        then
          match tail with
          | String q rest => nth 0 (split1 (String q EmptyString) rest) EmptyString
          | EmptyString => EmptyString
          end
        else
          if nonempty tail then nth 0 (split_ws tail) EmptyString else EmptyString
      in
      if nonempty tail then Some tail else None
    else None.

Fixpoint first_extracted (lines : list string) : option string :=
  match lines with
  | [] => None
  | line :: rest =>
      match extract_from_line line with
      | Some v => Some v
      | None => first_extracted rest
      end
  end.

Definition _extract_packages_path_from_grep (grep_text : string) : option string :=
  first_extracted (splitlines grep_text).

(** ** The standard library's [fnmatch.fnmatch] (POSIX: case-sensitive)

    A pattern is cut into tokens as [fnmatch.translate] does: [*] matches any
    run of characters, [?] one character, [[seq]] and [[!seq]] a character
    class with ranges; a [[] with no closing bracket is a literal. The name
    must match the pattern as a whole. *)

Module Fnmatch.

Inductive citem : Type :=
  | CLit (c : ascii)
  | CRange (lo hi : ascii).

Inductive gtok : Type :=
  | TStar
  | TAny
  | TLit (c : ascii)
  | TSet (negated : bool) (items : list citem)
  | TNever.

Definition chr_leb (a b : ascii) : bool := N.leb (N_of_ascii a) (N_of_ascii b).

Definition emit (prev : option ascii) : list citem :=
  match prev with Some c => [CLit c] | None => [] end.

(** The characters between the brackets, cut at the hyphens that stand for a
    range: [skip] counts the next characters that cannot be such a hyphen
    (the first one, or two after [!], and the one after a range), [prev] is
    the last literal read and not yet emitted. An empty range (its bounds
    out of order) is dropped with both bounds. *)
Fixpoint class_items (prev : option ascii) (skip : nat) (s : list ascii) : list citem :=
  match s with
  | [] => emit prev
  | c :: rest =>
      match skip, prev, rest with
      | O, Some lo, hi :: rest' =>
          if ascii_eqb c "-"%char then
            (if chr_leb lo hi then [CRange lo hi] else []) ++ class_items None 1 rest'
          else emit prev ++ class_items (Some c) 0 rest
      | _, _, _ => emit prev ++ class_items (Some c) (Nat.pred skip) rest
      end
  end.

Definition class_token (stuff : list ascii) : gtok :=
  let skip := match stuff with "!"%char :: _ => 2 | _ => 1 end in
  match class_items None skip stuff with
  | [] => TNever
  | [CLit "!"%char] => TAny
  | CLit "!"%char :: items => TSet true items
  | CRange "!"%char hi :: items => TSet true (CLit "-"%char :: CLit hi :: items)
  | items => TSet false items
  end.

Definition simple_token (c : ascii) : gtok :=
  if ascii_eqb c "*"%char then TStar
  else if ascii_eqb c "?"%char then TAny
  else TLit c.

(** A closing bracket does not close the class when it is its first
    character (after the [!], if any). *)
Definition closable (acc : list ascii) : bool :=
  match acc with
  | [] => false
  | ["!"%char] => false
  | _ => true
  end.

(** [cls] holds, in reverse, the characters read since an open bracket. *)
Fixpoint tokenize (cls : option (list ascii)) (pat : list ascii) : list gtok :=
  match pat with
  | [] =>
      match cls with
      | None => []
      | Some acc => TLit "["%char :: map simple_token (rev acc)
      end
  | c :: rest =>
      match cls with
      | None =>
          if ascii_eqb c "["%char then tokenize (Some []) rest
          else simple_token c :: tokenize None rest
      | Some acc =>
          if ascii_eqb c "]"%char && closable acc
          then class_token (rev acc) :: tokenize None rest
          else tokenize (Some (c :: acc)) rest
      end
  end.

Definition item_matches (c : ascii) (i : citem) : bool :=
  match i with
  | CLit x => ascii_eqb x c
  | CRange lo hi => chr_leb lo c && chr_leb c hi
  end.

Fixpoint match_tokens (ts : list gtok) : list ascii -> bool :=
  match ts with
  | [] => fun s => match s with [] => true | _ => false end
  | TStar :: ts' =>
      let m := match_tokens ts' in
      fix star (s : list ascii) : bool :=
        m s || match s with [] => false | _ :: s' => star s' end
  | t :: ts' =>
      fun s =>
        match s with
        | [] => false
        | c :: s' =>
            match t with
            | TAny => match_tokens ts' s'
            | TLit x => ascii_eqb x c && match_tokens ts' s'
            | TSet neg items =>
                xorb neg (existsb (item_matches c) items) && match_tokens ts' s'
            | TNever => false
            | TStar => false
            end
        end
  end.

Definition fnmatch (name pat : string) : bool :=
  match_tokens (tokenize None (list_ascii_of_string pat)) (list_ascii_of_string name).

End Fnmatch.

Import Fnmatch.

(** ** [hashlib.sha256] (FIPS 180-4), on 32-bit words held in [N] *)

Module SHA256.

Local Open Scope N_scope.

Definition w32 (x : N) : N := x mod 4294967296.
Definition add32 (a b : N) : N := w32 (a + b).
Definition rotr (n x : N) : N := N.lor (N.shiftr x n) (w32 (N.shiftl x (32 - n))).
Definition lnot32 (x : N) : N := 4294967295 - x.

Definition Ch (x y z : N) : N := N.lxor (N.land x y) (N.land (lnot32 x) z).
Definition Maj (x y z : N) : N :=
  N.lxor (N.lxor (N.land x y) (N.land x z)) (N.land y z).
Definition bsig0 (x : N) : N := N.lxor (N.lxor (rotr 2 x) (rotr 13 x)) (rotr 22 x).
Definition bsig1 (x : N) : N := N.lxor (N.lxor (rotr 6 x) (rotr 11 x)) (rotr 25 x).
Definition ssig0 (x : N) : N := N.lxor (N.lxor (rotr 7 x) (rotr 18 x)) (N.shiftr x 3).
Definition ssig1 (x : N) : N := N.lxor (N.lxor (rotr 17 x) (rotr 19 x)) (N.shiftr x 10).

(** The round constants, four to a row. *)
Definition K : list N :=
  concat
    [[0x428a2f98; 0x71374491; 0xb5c0fbcf; 0xe9b5dba5];
     [0x3956c25b; 0x59f111f1; 0x923f82a4; 0xab1c5ed5];
     [0xd807aa98; 0x12835b01; 0x243185be; 0x550c7dc3];
     [0x72be5d74; 0x80deb1fe; 0x9bdc06a7; 0xc19bf174];
     [0xe49b69c1; 0xefbe4786; 0x0fc19dc6; 0x240ca1cc];
     [0x2de92c6f; 0x4a7484aa; 0x5cb0a9dc; 0x76f988da];
     [0x983e5152; 0xa831c66d; 0xb00327c8; 0xbf597fc7];
     [0xc6e00bf3; 0xd5a79147; 0x06ca6351; 0x14292967];
     [0x27b70a85; 0x2e1b2138; 0x4d2c6dfc; 0x53380d13];
     [0x650a7354; 0x766a0abb; 0x81c2c92e; 0x92722c85];
     [0xa2bfe8a1; 0xa81a664b; 0xc24b8b70; 0xc76c51a3];
     [0xd192e819; 0xd6990624; 0xf40e3585; 0x106aa070];
     [0x19a4c116; 0x1e376c08; 0x2748774c; 0x34b0bcb5];
     [0x391c0cb3; 0x4ed8aa4a; 0x5b9cca4f; 0x682e6ff3];
     [0x748f82ee; 0x78a5636f; 0x84c87814; 0x8cc70208];
     [0x90befffa; 0xa4506ceb; 0xbef9a3f7; 0xc67178f2]].

(** The initial hash value. *)
Definition H0 : list N :=
  [0x6a09e667; 0xbb67ae85; 0x3c6ef372; 0xa54ff53a]
  ++ [0x510e527f; 0x9b05688c; 0x1f83d9ab; 0x5be0cd19].

(** Big-endian bytes of [x], [n] of them. *)
Fixpoint be_bytes (n : nat) (x : N) : list N :=
  match n with
  | O => []
  | S n' => be_bytes n' (N.shiftr x 8) ++ [x mod 256]
  end.

(** The message followed by 0x80, zeros up to 56 modulo 64, and the bit
    length on 8 bytes. *)
Definition pad (msg : list N) : list N :=
  let len := List.length msg in
  let zeros := ((64 - ((len + 9) mod 64)) mod 64)%nat in
  msg ++ [128] ++ List.repeat 0 zeros ++ be_bytes 8 (8 * N.of_nat len).

Fixpoint words (fuel : nat) (bytes : list N) : list N :=
  match fuel, bytes with
  | S f, a :: b :: c :: d :: rest =>
      (((a * 256 + b) * 256 + c) * 256 + d) :: words f rest
  | _, _ => []
  end.

(** The message schedule, most recent word first. *)
Fixpoint expand (n : nat) (w : list N) : list N :=
  match n with
  | O => w
  | S n' =>
      let g i := nth i w 0 in
      expand n' (add32 (add32 (ssig1 (g 1%nat)) (g 6%nat))
                       (add32 (ssig0 (g 14%nat)) (g 15%nat)) :: w)
  end.

Definition round (st : list N) (kw : N * N) : list N :=
  match st with
  | [a; b; c; d; e; f; g; h] =>
      let t1 := add32 (add32 (add32 h (bsig1 e)) (add32 (Ch e f g) (fst kw))) (snd kw) in
      let t2 := add32 (bsig0 a) (Maj a b c) in
      [add32 t1 t2; a; b; c; add32 d t1; e; f; g]
  | _ => st
  end.

Definition compress (h : list N) (block : list N) : list N :=
  let w := rev (expand 48 (rev (words 16 block))) in
  let st := fold_left round (combine K w) h in
  map (fun p => add32 (fst p) (snd p)) (combine h st).

Fixpoint blocks (fuel : nat) (bytes : list N) : list (list N) :=
  match fuel, bytes with
  | S f, _ :: _ => firstn 64 bytes :: blocks f (skipn 64 bytes)
  | _, _ => []
  end.

Definition digest (msg : list N) : list N :=
  let p := pad msg in
  concat (map (be_bytes 4) (fold_left compress (blocks (List.length p) p) H0)).

Definition hex_digit (n : N) : ascii :=
  if n <? 10 then ascii_of_N (48 + n) else ascii_of_N (87 + n).

Definition hex (bytes : list N) : string :=
  string_of_list_ascii
    (concat (map (fun b => [hex_digit (b / 16); hex_digit (b mod 16)]) bytes)).

(** [hashlib.sha256(data).hexdigest()] *)
Definition hexdigest (data : string) : string :=
  hex (digest (map N_of_ascii (list_ascii_of_string data))).

End SHA256.

(** ** Paths ([pathlib.PurePosixPath], absolute and normalised)

    A path is the list of its components below the root; the root is [[]].
    There are no symbolic links in the model, so [resolve] is the lexical
    normalisation of a path against the working directory. *)

Definition path : Type := list string.

Definition path_name (p : path) : string := List.last p "".
Definition path_parent (p : path) : path := removelast p.
Definition as_posix (p : path) : string := "/" +:+ join "/" p.

(** [p.relative_to(base)], [None] standing for the [ValueError]. *)
Fixpoint relative_to (p base : path) : option path :=
  match base with
  | [] => Some p
  | b :: base' =>
      match p with
      | [] => None
      | x :: p' => if String.eqb x b then relative_to p' base' else None
      end
  end.

(** [s.split(c)] for a one-character separator. *)
Fixpoint split_char (c : ascii) (s : string) : list string :=
  match s with
  | EmptyString => [EmptyString]
  | String x s' =>
      if ascii_eqb x c then EmptyString :: split_char c s'
      else
        match split_char c s' with
        | w :: ws => String x w :: ws
        | [] => [String x EmptyString]
        end
  end.

(** The components of a path written as text; empty ones and [.] drop out. *)
Definition parse_parts (s : string) : list string :=
  List.filter (fun c => negb (String.eqb c "" || String.eqb c "."))
              (split_char "/"%char s).

Definition normalize (cur : path) (parts : list string) : path :=
  fold_left (fun p c => if String.eqb c ".." then removelast p else p ++ [c]) parts cur.

(** [os.path.expanduser]: only the current user's [~] is known. *)
Definition expanduser (home : path) (s : string) : string :=
  if String.eqb s "~" then as_posix home
  else
    match strip_prefix "~/" s with
    | Some rest =>
        match home with
        | [] => "/" +:+ rest
        | _ => as_posix home +:+ "/" +:+ rest
        end
    | None => s
    end.

(** [(base / s).resolve()] *)
Definition resolve (base : path) (s : string) : path :=
  if startswith s "/" then normalize [] (parse_parts s)
  else normalize base (parse_parts s).

Fixpoint path_leb (p q : path) : bool :=
  match p, q with
  | [], _ => true
  | _ :: _, [] => false
  | x :: p', y :: q' =>
      match String.compare x y with
      | Lt => true
      | Gt => false
      | Eq => path_leb p' q'
      end
  end.

(** ** Python's [sorted]: a stable sort by insertion *)

Fixpoint insert_by {A} (leb : A -> A -> bool) (x : A) (l : list A) : list A :=
  match l with
  | [] => [x]
  | y :: l' => if leb x y then x :: l else y :: insert_by leb x l'
  end.

Definition sorted_by {A} (leb : A -> A -> bool) (l : list A) : list A :=
  fold_right (insert_by leb) [] l.

(** ** The file system *)

Inductive node : Type :=
  | File (data : string)
  | Dir.

Abbreviation fsmap := (gmap path node).

Definition node_at (m : fsmap) (p : path) : option node :=
  match p with
  | [] => Some Dir
  | _ => m !! p
  end.

Definition exists_ (m : fsmap) (p : path) : bool :=
  match node_at m p with Some _ => true | None => false end.
Definition is_dir (m : fsmap) (p : path) : bool :=
  match node_at m p with Some Dir => true | _ => false end.
Definition is_file (m : fsmap) (p : path) : bool :=
  match node_at m p with Some (File _) => true | _ => false end.

Definition path_eqb (p q : path) : bool := bool_decide (p = q).

Fixpoint is_prefix (p q : path) : bool :=
  match p, q with
  | [], _ => true
  | _ :: _, [] => false
  | x :: p', y :: q' => String.eqb x y && is_prefix p' q'
  end.

(** The entries of the map, in the order the system lists them. *)
Definition entries (m : fsmap) : list path := map fst (map_to_list m).

(** [d.iterdir()] on a directory: the paths one component below [d]. *)
Definition children (m : fsmap) (d : path) : list path :=
  List.filter (fun p => negb (path_eqb p []) && path_eqb (path_parent p) d) (entries m).

(** [d.rglob("*")]: everything below [d]. *)
Definition descendants (m : fsmap) (d : path) : list path :=
  List.filter (fun p => is_prefix d p && negb (path_eqb p d)) (entries m).

(** [d.glob(pat)] for a one-component pattern: nothing when [d] is not a
    directory. *)
Definition glob (m : fsmap) (d : path) (pat : string) : list path :=
  if is_dir m d then List.filter (fun p => fnmatch (path_name p) pat) (children m d)
  else [].

(** ** Effects: the file system, the console, and Python exceptions *)

Inductive stream : Type := Stdout | Stderr.

Inductive exn : Type :=
  | FileExistsError (msg : string)
  | FileNotFoundError (msg : string)
  | NotADirectoryError (msg : string)
  | IsADirectoryError (msg : string)
  | SameFileError (msg : string)
  | ValueError (msg : string).

Record state : Type := mkState {
  files : gmap path node;
  console : list (stream * string)
}.

Definition M (A : Type) : Type := state -> (exn + A) * state.

Definition ret {A} (a : A) : M A := fun s => (inr a, s).
Definition raise {A} (e : exn) : M A := fun s => (inl e, s).
Definition bind {A B} (m : M A) (f : A -> M B) : M B :=
  fun s =>
    match m s with
    | (inl e, s') => (inl e, s')
    | (inr a, s') => f a s'
    end.
(** [try: m except Exception as e: h e] *)
Definition catch {A} (m : M A) (h : exn -> M A) : M A :=
  fun s =>
    match m s with
    | (inl e, s') => h e s'
    | r => r
    end.

Declare Scope py_scope.
Delimit Scope py_scope with py.
Notation "'do' x <- m 'in' k" := (bind m (fun x => k))
  (at level 10, x name, m at level 100, k at level 200) : py_scope.
Notation "m >> k" := (bind m (fun _ => k))
  (at level 65, right associativity) : py_scope.
Local Open Scope py_scope.

Definition get_files : M (gmap path node) := fun s => (inr (files s), s).
Definition put_files (m : gmap path node) : M unit :=
  fun s => (inr tt, mkState m (console s)).
Definition print (st : stream) (msg : string) : M unit :=
  fun s => (inr tt, mkState (files s) (console s ++ [(st, msg)])).

(** [for x in l: acc = body x acc] *)
Fixpoint for_each {A S} (l : list A) (body : A -> S -> M S) (acc : S) : M S :=
  match l with
  | [] => ret acc
  | x :: l' => do acc' <- body x acc in for_each l' body acc'
  end.

Definition str_N (n : N) : string := NilZero.string_of_uint (N.to_uint n).
Definition len (s : string) : N := N.of_nat (String.length s).

(** The non-empty prefixes of a path, the shortest first. *)
Definition prefixes (p : path) : list path :=
  map (fun n => firstn n p) (seq 1 (List.length p)).

(** [p.mkdir(parents=True, exist_ok=True)] *)
Definition mkdir_p (p : path) : M unit :=
  do m <- get_files in
  match List.find (fun q => is_file m q) (removelast (prefixes p)) with
  | Some q => raise (NotADirectoryError (as_posix p))
  | None =>
      if is_file m p then raise (FileExistsError (as_posix p))
      else put_files (fold_right (fun q m' => <[q := Dir]> m') m (prefixes p))
  end.

(** [shutil.rmtree(p)] *)
Definition rmtree (p : path) : M unit :=
  do m <- get_files in
  match node_at m p with
  | Some Dir => put_files (filter (fun kv => is_prefix p (fst kv) = false) m)
  | Some (File _) => raise (NotADirectoryError (as_posix p))
  | None => raise (FileNotFoundError (as_posix p))
  end.

(** [open(p, "w")] followed by the write: the parent must be a directory
    and [p] must not be one. *)
Definition write_text (p : path) (data : string) : M unit :=
  do m <- get_files in
  match node_at m (path_parent p) with
  | Some Dir =>
      if is_dir m p then raise (IsADirectoryError (as_posix p))
      else put_files (<[p := File data]> m)
  | Some (File _) => raise (NotADirectoryError (as_posix p))
  | None => raise (FileNotFoundError (as_posix p))
  end.

(** [open(p).read()] *)
Definition read_text (p : path) : M string :=
  do m <- get_files in
  match node_at m p with
  | Some (File data) => ret data
  | Some Dir => raise (IsADirectoryError (as_posix p))
  | None => raise (FileNotFoundError (as_posix p))
  end.

(** [p.unlink()] *)
Definition unlink (p : path) : M unit :=
  do m <- get_files in
  match node_at m p with
  | Some (File _) => put_files (delete p m)
  | Some Dir => raise (IsADirectoryError (as_posix p))
  | None => raise (FileNotFoundError (as_posix p))
  end.

(** [shutil.copy2(src, dst)]: into [dst] when it is a directory; the
    metadata it preserves is not part of the model. *)
Definition copy2 (src dst : path) : M unit :=
  do m <- get_files in
  let target := if is_dir m dst then dst ++ [path_name src] else dst in
  if path_eqb src target then raise (SameFileError (as_posix src))
  else do data <- read_text src in write_text target data.

(** ** The script *)

Definition INCLUDE_PATTERNS : list string :=
  ["*.yaml"; "*.input.yaml"; "*.updated.yaml"; "*.paramnames"; "*.covmat";
   "*.progress"; "*.checkpoint"; "*.txt"; "*.A.txt"; "*.B.txt"].

Definition EXCLUDE_PATTERNS : list string :=
  ["*.log"; "*.tmp"; "*.bak"; "*.npy"; "*.npz"; "*.pkl"; "*.pickle"; "*.hdf5";
   "*.h5"; "*.dat"; "*.fits"; "*.pdf"; "*.png"; "*.jpg"; "*.jpeg"; "*.gif";
   "__pycache__/*"; ".ipynb_checkpoints/*"].

Definition EXPLICIT_FILES : list string :=
  ["~/.bash_aliases"; "~/paper_plots/generate_fig4_fig5_from_chains.py"].

Record CopiedFile : Type := mkCopiedFile {
  src : path;
  dst : path;
  size : N;
  sha256 : string
}.

(** The chunks read in the loop are hashed in order: the digest is that of
    the whole content. *)
Definition sha256_file (p : path) : M string :=
  do data <- read_text p in ret (SHA256.hexdigest data).

Definition matches_any (p : path) (patterns : list string) : bool :=
  let name := path_name p in
  if existsb (fun pat => fnmatch name pat) patterns then true
  else
    let rel := as_posix p in
    if existsb (fun pat => fnmatch rel pat) patterns then true
    else false.

Definition ensure_empty_dir (p : path) (force : bool) : M unit :=
  do m <- get_files in
  (if exists_ m p then
     if negb force then
       raise (FileExistsError ("Output directory already exists: " +:+ as_posix p
                               +:+ String LF "Use --force to overwrite."))
     else rmtree p
   else ret tt) >>
  mkdir_p p.

Definition stat_size (p : path) : M N :=
  do m <- get_files in
  match node_at m p with
  | Some (File data) => ret (len data)
  | Some Dir => raise (IsADirectoryError (as_posix p))
  | None => raise (FileNotFoundError (as_posix p))
  end.

Definition copy_file (src dst : path) : M CopiedFile :=
  mkdir_p (path_parent dst) >>
  copy2 src dst >>
  do size <- stat_size dst in
  do digest <- sha256_file dst in
  ret (mkCopiedFile src dst size digest).

(** [run_dir.rglob("*")] is a generator that scans a directory when it
    reaches it. The listing is read here once, when the loop of
    [copy_run_dir] starts: the two agree as long as the loop writes nothing
    at or below [run_dir], that is when [run_dir] and
    [staging_root / run_dir.name] do not lie in one another. When they do,
    the generator can meet the copies the loop has made; what is stated
    below of the files listed carries that hypothesis. *)
Definition iter_run_files (m : gmap path node) (run_dir : path) : list path :=
  if is_dir m run_dir then List.filter (fun p => is_file m p) (descendants m run_dir)
  else [].

Definition has_numbered_suffix (name : string) : bool :=
  contains ".1.txt" name || contains ".2.txt" name
  || contains ".3.txt" name || contains ".4.txt" name.

(** The test of the loop of [detect_run_dirs] on one entry of [base]. *)
Definition is_run_dir (m : gmap path node) (d : path) : bool :=
  if negb (is_dir m d) then false
  else
    let yamls := glob m d "*.yaml" in
    let txts := glob m d "*.txt" in
    let has_yaml := Nat.ltb 0 (List.length yamls) in
    let has_chain :=
      existsb (fun t => has_numbered_suffix (path_name t)) txts
      || Nat.ltb 0 (List.length txts) in
    has_yaml && has_chain.

Definition detect_run_dirs (base : path) : M (list path) :=
  do m <- get_files in
  match node_at m base with
  | Some Dir => ret (sorted_by path_leb (List.filter (is_run_dir m) (children m base)))
  | Some (File _) => raise (NotADirectoryError (as_posix base))
  | None => raise (FileNotFoundError (as_posix base))
  end.

(** The body of the loop of [copy_run_dir], for pattern lists [incl] and
    [excl]. *)
Definition copy_run_file (incl excl : list string) (run_dir dst_run_dir : path)
    (f : path) (copied : list CopiedFile) : M (list CopiedFile) :=
  if matches_any f excl then ret copied
  else if matches_any f incl then
    match relative_to f run_dir with
    | Some rel =>
        do c <- copy_file f (dst_run_dir ++ rel) in ret (copied ++ [c])
    | None => raise (ValueError (as_posix f))
    end
  else ret copied.

Definition copy_run_dir_with (incl excl : list string)
    (run_dir staging_root : path) (copied : list CopiedFile) : M (list CopiedFile) :=
  let dst_run_dir := staging_root ++ [path_name run_dir] in
  mkdir_p dst_run_dir >>
  do m <- get_files in
  for_each (iter_run_files m run_dir)
           (copy_run_file incl excl run_dir dst_run_dir) copied.

Definition copy_run_dir : path -> path -> list CopiedFile -> M (list CopiedFile) :=
  copy_run_dir_with INCLUDE_PATTERNS EXCLUDE_PATTERNS.

Definition dst_leb (a b : CopiedFile) : bool :=
  String.leb (as_posix (dst a)) (as_posix (dst b)).

Definition manifest_line (staging_root : path) (c : CopiedFile) : option string :=
  match relative_to (dst c) staging_root with
  | Some rel => Some (sha256 c +:+ "  " +:+ str_N (size c) +:+ "  " +:+ join "/" rel)
  | None => None
  end.

(** [mapM] in [option]: the first [None] is the [ValueError] of
    [relative_to]. *)
Fixpoint all_some {A} (l : list (option A)) : option (list A) :=
  match l with
  | [] => Some []
  | Some x :: l' => match all_some l' with Some xs => Some (x :: xs) | None => None end
  | None :: _ => None
  end.

(** The text [write_manifest] writes. *)
Definition manifest_text (staging_root : path) (copied : list CopiedFile) : option string :=
  let total := fold_right N.add 0%N (map size copied) in
  match all_some (map (manifest_line staging_root) (sorted_by dst_leb copied)) with
  | Some body =>
      Some (join (String LF "")
                 (["Total files: " +:+ str_N (N.of_nat (List.length copied));
                   "Total bytes: " +:+ str_N total;
                   "";
                   "sha256  bytes  path"] ++ body)
            +:+ String LF "")
  | None => None
  end.

Definition write_manifest (staging_root : path) (copied : list CopiedFile) : M unit :=
  let manifest := staging_root ++ ["MANIFEST.txt"] in
  match manifest_text staging_root copied with
  | Some text => write_text manifest text
  | None => raise (ValueError "relative_to")
  end.

(** What the script takes from its host: the home and working directories,
    the outcome of [subprocess.run] on a command line (its combined output,
    or the text of the exception it raised), given the files it can see, and
    the bytes [shutil.make_archive] packs a tree into. The diagnostic
    commands are taken not to change the files of the model. *)
Record host : Type := mkHost {
  home : path;
  cwd : path;
  subprocess_run : list string -> gmap path node -> string + string;
  archive_bytes : string -> list (path * node) -> string
}.

Definition dq : string := String dquote "".
Definition nl : string := String LF "".

Definition FIG_CMD_SNIPPET : string :=
  "python3 generate_fig4_fig5_from_chains.py \" +:+ nl +:+
  "  --tracker-dir ~/ace_global_fixed_desiDR2 \" +:+ nl +:+
  "  --lcdm-dir ~/lcdm_baseline_desiDR2 \" +:+ nl +:+
  "  --output-dir ~/paper_plots" +:+ nl.

(** [repr] of a list of strings that hold no quote or escape. *)
Definition repr_list (l : list string) : string :=
  "[" +:+ join ", " (map (fun x => "'" +:+ x +:+ "'") l) +:+ "]".

Definition str_bool (b : bool) : string := if b then "True" else "False".

Definition write_notes (staging_root base : path) (runs : list string)
    (env_snapshot : bool) : M unit :=
  let notes := staging_root ++ ["PACKAGING_NOTES.txt"] in
  let txt :=
    join nl
      ["Packaging notes"; "";
       "Base directory:";
       "  " +:+ as_posix base; "";
       "Run directories included:";
       "  " +:+ (match runs with [] => "(auto-detected)" | _ => join ", " runs end); "";
       "Included patterns:";
       "  " +:+ repr_list INCLUDE_PATTERNS; "";
       "Excluded patterns:";
       "  " +:+ repr_list EXCLUDE_PATTERNS; "";
       "Explicit extra files:";
       "  " +:+ repr_list EXPLICIT_FILES; "";
       "Environment snapshot captured:";
       "  " +:+ str_bool env_snapshot; "";
       "Figure command used in the paper (for README):";
       FIG_CMD_SNIPPET; ""] in
  write_text notes txt.

Definition pack (h : host) (format : string) (staging_root out : path) : M unit :=
  do m <- get_files in
  (if exists_ m out then unlink out else ret tt) >>
  do m <- get_files in
  write_text out
    (archive_bytes h format
       (List.filter (fun kv => is_prefix staging_root (fst kv)) (map_to_list m))).

Definition make_archive (h : host) (staging_root : path) (zip_ targz : bool)
    : M (option path) :=
  if negb zip_ && negb targz then ret None
  else
    let parent := path_parent staging_root in
    let base_name := path_name staging_root in
    if zip_ then
      let out := parent ++ [base_name +:+ ".zip"] in
      pack h "zip" staging_root out >> ret (Some out)
    else if targz then
      let out := parent ++ [base_name +:+ ".tar.gz"] in
      pack h "gztar" staging_root out >> ret (Some out)
    else ret None.

(** *** Environment snapshot *)

Definition bash_in_venv (h : host) (cmd : string) (venv_activate : option string)
    : list string :=
  match venv_activate with
  | Some v =>
      if nonempty v then
        let act := expanduser (home h) v in
        ["bash"; "-lc"; "source '" +:+ act +:+ "'; " +:+ cmd]
      else ["bash"; "-lc"; cmd]
  | None => ["bash"; "-lc"; cmd]
  end.

Definition exn_str (e : exn) : string :=
  match e with
  | FileExistsError msg => msg
  | FileNotFoundError msg => msg
  | NotADirectoryError msg => msg
  | IsADirectoryError msg => msg
  | SameFileError msg => msg
  | ValueError msg => msg
  end.

Definition run_bash_to_file (h : host) (cmd : string) (out_path : path)
    (venv_activate : option string) : M unit :=
  mkdir_p (path_parent out_path) >>
  do m <- get_files in
  let failed e :=
    write_text out_path
      ("ERROR running command:" +:+ nl +:+ cmd +:+ nl +:+ nl +:+ e +:+ nl) in
  match subprocess_run h (bash_in_venv h cmd venv_activate) m with
  | inl stdout =>
      catch (write_text out_path (if nonempty stdout then stdout else "(no output)" +:+ nl))
            (fun e => failed (exn_str e))
  | inr e => failed e
  end.

Fixpoint _pick_existing_path (m : gmap path node) (paths : list path) : option path :=
  match paths with
  | [] => None
  | p :: rest =>
      if exists_ m p && is_file m p then Some p else _pick_existing_path m rest
  end.

Definition has_class_marker (m : gmap path node) (c : path) : bool :=
  exists_ m (c ++ ["main"; "class.c"]) || exists_ m (c ++ ["include"; "class.h"]).

(** [d.rglob(name)] for a plain name: the entries called [name] below [d]. *)
Definition rglob_name (m : gmap path node) (d : path) (name : string) : list path :=
  if is_dir m d
  then List.filter (fun p => String.eqb (path_name p) name) (descendants m d)
  else [].

Definition class_candidates (packages_path : path) : list path :=
  [packages_path ++ ["code"; "class_public"];
   packages_path ++ ["code"; "CLASS"];
   packages_path ++ ["code"; "class"];
   packages_path ++ ["code"; "classy"];
   packages_path ++ ["class_public"];
   packages_path ++ ["CLASS"];
   packages_path ++ ["classy"]].

(** The first loop of [_find_class_dir]: both branches of the marker test
    return the candidate. *)
Fixpoint first_candidate (m : gmap path node) (cands : list path) : option path :=
  match cands with
  | [] => None
  | c :: rest =>
      if exists_ m c && is_dir m c then
        if has_class_marker m c then Some c
        else Some c
      else first_candidate m rest
  end.

Definition _find_class_dir (m : gmap path node) (packages_path : path) : option path :=
  if negb (exists_ m packages_path) then None
  else
    match first_candidate m (class_candidates packages_path) with
    | Some c => Some c
    | None =>
        match List.find (fun p => is_dir m p && exists_ m (p ++ ["class.c"]))
                        (rglob_name m packages_path "main") with
        | Some p => Some (path_parent p)
        | None => None
        end
    end.

(** [_sha256] reads the file as [sha256_file] does. *)
Definition _sha256 (m : gmap path node) (p : path) : string :=
  match node_at m p with
  | Some (File data) => SHA256.hexdigest data
  | _ => ""
  end.

Definition st_size (m : gmap path node) (p : path) : N :=
  match node_at m p with
  | Some (File data) => len data
  | _ => 0%N
  end.

Definition fingerprint_candidates : list string :=
  ["main/class.c"; "include/common.h"; "include/background.h"; "source/background.c";
   "Makefile"; "python/setup.py"; "pyproject.toml"; "setup.py"].

(** The lines of the loop over the candidates: one for each that is a file. *)
Definition candidate_lines (m : gmap path node) (class_dir : path) : list string :=
  flat_map
    (fun rel =>
       let p := class_dir ++ parse_parts rel in
       if exists_ m p && is_file m p
       then [_sha256 m p +:+ "  " +:+ str_N (st_size m p) +:+ "  " +:+ rel]
       else [])
    fingerprint_candidates.

(** The fallback line, from the files [tree_files] that [rglob] lists. *)
Definition fallback_line (class_dir : path) (tree_files : list path) : option string :=
  match all_some (map (fun x => option_map (join "/") (relative_to x class_dir)) tree_files) with
  | Some names =>
      let file_list := sorted_by String.leb names in
      let blob := join nl file_list +:+ nl in
      Some (SHA256.hexdigest blob +:+ "  " +:+ str_N (len blob) +:+ "  __file_list_fallback__")
  | None => None
  end.

(** The lines of the fingerprint after its two header lines. *)
Definition fingerprint_body (m : gmap path node) (class_dir : path)
    (tree_files : list path) : option (list string) :=
  match candidate_lines m class_dir with
  | [] => option_map (fun l => [l]) (fallback_line class_dir tree_files)
  | found => Some found
  end.

Definition fingerprint_text (m : gmap path node) (class_dir : path)
    (tree_files : list path) : option string :=
  match fingerprint_body m class_dir tree_files with
  | Some body =>
      Some (join nl (["class_dir: " +:+ as_posix class_dir; "sha256  bytes  relpath"] ++ body)
            +:+ nl)
  | None => None
  end.

Definition _write_class_fingerprint (class_dir out_file : path) : M unit :=
  do m <- get_files in
  match fingerprint_text m class_dir (iter_run_files m class_dir) with
  | Some text => write_text out_file text
  | None => raise (ValueError "relative_to")
  end.

(** [p.exists()] for [p = base / parts] not yet normalised: every step of
    the walk goes through a directory. *)
Fixpoint exists_from (m : gmap path node) (cur : path) (parts : list string) : bool :=
  match parts with
  | [] => exists_ m cur
  | c :: rest =>
      is_dir m cur
      && exists_from m (if String.eqb c ".." then removelast cur else cur ++ [c]) rest
  end.

Definition resolve_packages_path (h : host) (m : gmap path node)
    (staging_root : path) (extracted : string) : path :=
  let s := expanduser (home h) extracted in
  if negb (startswith s "/") then
    if exists_from m (home h) (parse_parts s) then resolve (home h) s
    else resolve staging_root s
  else resolve [] s.

Definition capture_env_snapshot (h : host) (staging_root : path)
    (venv_activate : option string) : M unit :=
  let env_dir := staging_root ++ ["tools"; "env"] in
  let run cmd name := run_bash_to_file h cmd (env_dir ++ [name]) venv_activate in
  let put name text := write_text (env_dir ++ [name]) text in
  mkdir_p env_dir >>
  run "python -V" "python_version.txt" >>
  run "which python" "python_path.txt" >>
  run ("python -c " +:+ dq +:+ "import sys; print(sys.executable)" +:+ dq)
      "python_executable.txt" >>
  run "uname -a" "uname.txt" >>
  run ("python -c " +:+ dq +:+ "import platform; print(platform.platform())" +:+ dq)
      "platform.txt" >>
  run "python -m pip -V" "pip_version.txt" >>
  run "python -m pip freeze" "pip-freeze.txt" >>
  run "python -m pip show cobaya 2>/dev/null || true" "pip-show-cobaya.txt" >>
  run ("python -c " +:+ dq
       +:+ "import cobaya; print('cobaya', cobaya.__version__); print('cobaya_file', cobaya.__file__)"
       +:+ dq)
      "cobaya_version.txt" >>
  run ("python -c " +:+ dq +:+ "import shutil; print('cobaya_cli', shutil.which('cobaya'))" +:+ dq)
      "cobaya_cli.txt" >>
  run ("python -c " +:+ dq
       +:+ "import importlib.util as u; print('classy_found', u.find_spec('classy') is not None)"
       +:+ dq)
      "classy_present.txt" >>
  run ("python -c " +:+ dq +:+ "from pathlib import Path; \" +:+ nl
       +:+ "c=[Path('~/.cobaya/config.yaml').expanduser(), Path('~/.config/cobaya/config.yaml').expanduser()]; \"
       +:+ nl +:+ "print('config_candidates:'); \" +:+ nl
       +:+ "[print(str(p), 'exists='+str(p.exists())) for p in c]" +:+ dq +:+ " ")
      "cobaya_config_candidates.txt" >>
  do m <- get_files in
  let cfg := _pick_existing_path m [home h ++ [".cobaya"; "config.yaml"];
                                    home h ++ [".config"; "cobaya"; "config.yaml"]] in
  put "cobaya_config_path.txt"
      (match cfg with Some c => as_posix c | None => "(no config.yaml found)" end +:+ nl) >>
  match cfg with
  | Some c =>
      catch (do text <- read_text c in put "cobaya_config_contents.txt" text)
            (fun e => put "cobaya_config_contents.txt"
                          ("ERROR reading " +:+ as_posix c +:+ ":" +:+ nl +:+ exn_str e +:+ nl))
  | None => put "cobaya_config_contents.txt" ("(no config.yaml found)" +:+ nl)
  end >>
  run ("echo " +:+ dq +:+ "COBAYA_PACKAGES_PATH=${COBAYA_PACKAGES_PATH:-'(not set)'}" +:+ dq)
      "cobaya_packages_path_env.txt" >>
  run ("cd '" +:+ as_posix staging_root +:+ "' && grep -R " +:+ dq +:+ "packages_path" +:+ dq
       +:+ " -n . 2>/dev/null || true")
      "packages_path_grep.txt" >>
  do grep_text <- read_text (env_dir ++ ["packages_path_grep.txt"]) in
  do m <- get_files in
  let resolved_packages_path :=
    option_map (resolve_packages_path h m staging_root)
               (_extract_packages_path_from_grep grep_text) in
  put "packages_path_resolved.txt"
      (match resolved_packages_path with
       | Some p => as_posix p
       | None => "(not found in YAMLs)"
       end +:+ nl) >>
  do m <- get_files in
  match resolved_packages_path with
  | Some pp =>
      if exists_ m pp then
        run ("ls -la '" +:+ as_posix pp +:+ "'") "packages_path_ls.txt" >>
        do m <- get_files in
        let class_dir := _find_class_dir m pp in
        let found := match class_dir with Some c => exists_ m c | None => false end in
        put "class_dir_found.txt"
            (match class_dir with
             | Some c => if found then as_posix c
                         else "(CLASS dir not found under packages_path)"
             | None => "(CLASS dir not found under packages_path)"
             end +:+ nl) >>
        do m <- get_files in
        match class_dir with
        | Some c =>
            if exists_ m c then
              run ("git -C '" +:+ as_posix c
                   +:+ "' rev-parse HEAD 2>/dev/null || echo '(not a git repo)'")
                  "class_git_hash.txt" >>
              run ("git -C '" +:+ as_posix c +:+ "' status --porcelain 2>/dev/null || true")
                  "class_git_status.txt" >>
              run ("ls -la '" +:+ as_posix c +:+ "'") "class_dir_ls.txt" >>
              _write_class_fingerprint c (env_dir ++ ["class_fingerprint_sha256.txt"])
            else
              put "class_git_hash.txt"
                  ("(skipped: CLASS dir not found under packages_path)" +:+ nl) >>
              put "class_fingerprint_sha256.txt"
                  ("(skipped: CLASS dir not found under packages_path)" +:+ nl)
        | None =>
            put "class_git_hash.txt"
                ("(skipped: CLASS dir not found under packages_path)" +:+ nl) >>
            put "class_fingerprint_sha256.txt"
                ("(skipped: CLASS dir not found under packages_path)" +:+ nl)
        end
      else
        put "packages_path_ls.txt"
            ("packages_path could not be resolved from staged YAMLs." +:+ nl
             +:+ "If you used Cobaya externals, add packages_path: /path/to/cobaya_packages to YAML or share Cobaya config."
             +:+ nl) >>
        put "class_dir_found.txt"
            ("CLASS dir not searched because packages_path was not found." +:+ nl) >>
        put "class_git_hash.txt" ("(skipped: packages_path not found)" +:+ nl) >>
        put "class_fingerprint_sha256.txt" ("(skipped: packages_path not found)" +:+ nl)
  | None =>
      put "packages_path_ls.txt"
          ("packages_path could not be resolved from staged YAMLs." +:+ nl
           +:+ "If you used Cobaya externals, add packages_path: /path/to/cobaya_packages to YAML or share Cobaya config."
           +:+ nl) >>
      put "class_dir_found.txt"
          ("CLASS dir not searched because packages_path was not found." +:+ nl) >>
      put "class_git_hash.txt" ("(skipped: packages_path not found)" +:+ nl) >>
      put "class_fingerprint_sha256.txt" ("(skipped: packages_path not found)" +:+ nl)
  end.

(** *** The command line *)

Record Args : Type := mkArgs {
  args_base : string;
  args_out : string;
  args_runs : option (list string);
  args_runs_from_file : option string;
  args_auto_detect_runs : bool;
  args_force : bool;
  args_zip_ : bool;
  args_targz : bool;
  args_env_snapshot : bool;
  args_venv_activate : option string
}.

(** The names a run-list file holds: its lines stripped, the empty ones and
    those that start with [#] left out. *)
Definition runs_of_text (text : string) : list string :=
  map strip
      (List.filter (fun ln => nonempty (strip ln) && negb (startswith (strip ln) "#"))
                   (splitlines text)).

(** The loop that resolves the run names: the first that is no directory
    ends it. *)
Fixpoint resolve_run_dirs (m : gmap path node) (base : path) (runs : list string)
    (run_dirs : list path) : path + list path :=
  match runs with
  | [] => inr run_dirs
  | r :: rest =>
      let d := resolve base r in
      if negb (exists_ m d) || negb (is_dir m d) then inl d
      else resolve_run_dirs m base rest (run_dirs ++ [d])
  end.

(** Lines 596 to 624 of [main]: the names and the directories of the runs,
    or the exit code [main] returns at once. *)
Definition determine_run_list (h : host) (args : Args) (base : path)
    : M (Z + list string * list path) :=
  let runs : list string := [] in
  do from_file <-
    match args_runs_from_file args with
    | Some f =>
        if nonempty f then
          let rf := resolve (cwd h) (expanduser (home h) f) in
          do m <- get_files in
          if negb (exists_ m rf) then
            print Stderr ("ERROR: runs-from-file not found: " +:+ as_posix rf) >>
            ret (inl 2%Z)
          else do text <- read_text rf in ret (inr (runs_of_text text))
        else ret (inr runs)
    | None => ret (inr runs)
    end in
  match from_file with
  | inl code => ret (inl code)
  | inr runs =>
      let runs :=
        match args_runs args with
        | Some (r :: rs) => r :: rs
        | _ => runs
        end in
      if args_auto_detect_runs args then
        do run_dirs <- detect_run_dirs base in
        ret (inr (map path_name run_dirs, run_dirs))
      else
        match runs with
        | [] =>
            print Stderr "ERROR: Provide --runs ..., or --runs-from-file, or --auto-detect-runs" >>
            ret (inl 2%Z)
        | _ =>
            do m <- get_files in
            match resolve_run_dirs m base runs [] with
            | inl d =>
                print Stderr ("ERROR: run dir not found: " +:+ as_posix d) >>
                ret (inl 2%Z)
            | inr run_dirs => ret (inr (runs, run_dirs))
            end
        end
  end.

(** The body of the loop over [EXPLICIT_FILES]. *)
Definition copy_explicit_file (h : host) (out : path) (p : string)
    (copied : list CopiedFile) : M (list CopiedFile) :=
  let src := resolve (cwd h) (expanduser (home h) p) in
  do m <- get_files in
  if negb (exists_ m src) || negb (is_file m src) then
    print Stderr ("WARNING: explicit file missing, skipped: " +:+ as_posix src) >>
    ret copied
  else
    let dst :=
      if String.eqb (path_name src) ".bash_aliases"
      then out ++ ["tools"; ".bash_aliases"]
      else out ++ ["paper_plots"; path_name src] in
    do c <- copy_file src dst in ret (copied ++ [c]).

(** Lines 626 to 646: the staging directory is made ready and the runs and
    the explicit files are copied into it. *)
Definition stage_files (h : host) (out : path) (force : bool) (run_dirs : list path)
    : M (list CopiedFile) :=
  ensure_empty_dir out force >>
  do copied <- for_each run_dirs (fun d copied => copy_run_dir d out copied) [] in
  for_each EXPLICIT_FILES (copy_explicit_file h out) copied.

Definition main (h : host) (args : Args) : M Z :=
  let base := resolve (cwd h) (expanduser (home h) (args_base args)) in
  let out := resolve (cwd h) (expanduser (home h) (args_out args)) in
  do m <- get_files in
  if negb (exists_ m base) then
    print Stderr ("ERROR: base does not exist: " +:+ as_posix base) >> ret 2%Z
  else
    do sel <- determine_run_list h args base in
    match sel with
    | inl code => ret code
    | inr (runs, run_dirs) =>
        do copied <- stage_files h out (args_force args) run_dirs in
        (if args_env_snapshot args
         then capture_env_snapshot h out (args_venv_activate args)
         else ret tt) >>
        write_manifest out copied >>
        write_notes out base runs (args_env_snapshot args) >>
        do archive <- make_archive h out (args_zip_ args) (args_targz args) in
        match archive with
        | Some a => print Stdout ("Created archive: " +:+ as_posix a)
        | None => ret tt
        end >>
        print Stdout ("Staging complete: " +:+ as_posix out) >>
        print Stdout ("Files copied: " +:+ str_N (N.of_nat (List.length copied))
                      +:+ " (manifest excludes env snapshot files)") >>
        (if args_env_snapshot args
         then print Stdout ("Environment snapshot: " +:+ as_posix (out ++ ["tools"; "env"]))
         else ret tt) >>
        ret 0%Z
    end.

(** The status the process ends with: the value [main] returns goes to
    [SystemExit]; an exception nobody catches ends the interpreter with
    status 1, after the traceback. *)
Definition exit_status (r : exn + Z) : Z :=
  match r with
  | inr code => code
  | inl _ => 1%Z
  end.

(** ** Example inputs *)

(** A host whose commands print nothing and whose archives are empty. *)
Definition quiet_host : host :=
  mkHost ["home"; "u"] ["work"] (fun _ _ => inl "") (fun _ _ => "").

Definition tree_of (l : list (path * node)) : state := mkState (list_to_map l) [].

(** The base of the end-to-end scenario of the specification: one run with a
    chain segment, a configuration file and a log. *)
Definition scenario_tree : state :=
  tree_of [(["work"], Dir);
           (["work"; "runA"], Dir);
           (["work"; "runA"; "chain.1.txt"], File "1 2 3");
           (["work"; "runA"; "config.yaml"], File "theory: x");
           (["work"; "runA"; "ignore.log"], File "log")].

(** Three directories below the base: one with a configuration file only,
    one with a configuration file and a text file of any name, one with a
    numbered chain segment; and a plain file. *)
Definition detect_tree : state :=
  tree_of [(["work"], Dir);
           (["work"; "only_yaml"], Dir);
           (["work"; "only_yaml"; "a.yaml"], File "");
           (["work"; "notes_run"], Dir);
           (["work"; "notes_run"; "b.yaml"], File "");
           (["work"; "notes_run"; "notes.txt"], File "");
           (["work"; "chain_run"], Dir);
           (["work"; "chain_run"; "c.yaml"], File "");
           (["work"; "chain_run"; "c.1.txt"], File "");
           (["work"; "readme.txt"], File "")].

(** A packages directory whose [code/classy] holds no marker file, beside a
    source tree that does. *)
Definition packages_tree : gmap path node :=
  list_to_map [(["pk"], Dir);
               (["pk"; "code"], Dir);
               (["pk"; "code"; "classy"], Dir);
               (["pk"; "code"; "classy"; "README"], File "");
               (["pk"; "src"], Dir);
               (["pk"; "src"; "main"], Dir);
               (["pk"; "src"; "main"; "class.c"], File "int main;")].

(** A dependency directory that holds, of the candidates, [Makefile] only. *)
Definition makefile_tree : gmap path node :=
  list_to_map [(["cl"], Dir);
               (["cl"; "Makefile"], File "all:");
               (["cl"; "notes"], File "n")].

(** A dependency directory that holds none of the candidates, and three
    other files. *)
Definition plain_tree : gmap path node :=
  list_to_map [(["cl"], Dir);
               (["cl"; "z"], File "1");
               (["cl"; "b"], Dir);
               (["cl"; "b"; "c.txt"], File "22");
               (["cl"; "a.txt"], File "333")].


Definition scenario_args : Args :=
  mkArgs "." "stage" (Some ["runA"]) None false true false false false None.

(** The same invocation with the environment snapshot, on a host whose
    commands print their own command line. *)
Definition scenario_args_snapshot : Args :=
  mkArgs "." "stage" (Some ["runA"]) None false true false false true None.

Definition echo_host : host :=
  mkHost ["home"; "u"] ["work"] (fun argv _ => inl (join " " argv)) (fun _ _ => "").

(** The scenario after a first run: the staging directory exists. *)
Definition staged_tree : state :=
  snd (main quiet_host scenario_args scenario_tree).

Definition scenario_args_no_force : Args :=
  mkArgs "." "stage" (Some ["runA"]) None false false false false false None.

(** A base with no run in it, and the auto-detect switch. *)
Definition empty_base : state := tree_of [(["work"], Dir)].

Definition auto_args : Args :=
  mkArgs "." "stage" None None true false false false false None.

(** A base with one run that auto-detection finds and one it does not, and
    both switches: auto-detect and an explicit list that names the other. *)
Definition two_runs_tree : state :=
  tree_of [(["work"], Dir);
           (["work"; "runA"], Dir);
           (["work"; "runA"; "a.yaml"], File "a");
           (["work"; "runA"; "a.1.txt"], File "1");
           (["work"; "runB"], Dir);
           (["work"; "runB"; "b.yaml"], File "b");
           (["work"; "runB"; "b.covmat"], File "c")].

Definition auto_and_runs_args : Args :=
  mkArgs "." "stage" (Some ["runB"]) None true false false false false None.

Definition with_runs (args : Args) (runs : option (list string)) : Args :=
  mkArgs (args_base args) (args_out args) runs (args_runs_from_file args)
         (args_auto_detect_runs args) (args_force args) (args_zip_ args)
         (args_targz args) (args_env_snapshot args) (args_venv_activate args).


(** Where a record of the staging may point: below the directory of a run,
    or at one of the two places of the explicit files. *)
Definition staged_dst (out : path) (run_dirs : list path) (c : CopiedFile) : Prop :=
  (exists d rel, In d run_dirs /\ rel <> [] /\ src c = d ++ rel
                 /\ dst c = out ++ path_name d :: rel)
  \/ dst c = out ++ ["tools"; ".bash_aliases"]
  \/ (exists name, dst c = out ++ ["paper_plots"; name]).

(** A command line whose run-list file is a directory. *)
Definition runs_from_directory_args : Args :=
  mkArgs "." "stage" None (Some "runA") false true false false false None.






(** ** Notions used to state the properties *)

(** [s.endswith(suf)] *)
Fixpoint endswith (s suf : string) : bool :=
  String.eqb s suf
  || match s with
     | EmptyString => false
     | String _ s' => endswith s' suf
     end.

(** The characters that stand for themselves in a pattern. *)
Definition plain (c : ascii) : bool :=
  negb (ascii_eqb c "*"%char || ascii_eqb c "?"%char || ascii_eqb c "["%char).

(** A string with no [/] in it. *)
Definition no_slash (s : string) : bool := all_chars (fun c => negb (ascii_eqb c "/"%char)) s.

(** The endings that the patterns [*.ext] of [EXCLUDE_PATTERNS] test. *)
Definition EXCLUDED_SUFFIXES : list string :=
  [".log"; ".tmp"; ".bak"; ".npy"; ".npz"; ".pkl"; ".pickle"; ".hdf5";
   ".h5"; ".dat"; ".fits"; ".pdf"; ".png"; ".jpg"; ".jpeg"; ".gif"].

(** The endings that [INCLUDE_PATTERNS] tests; [.input.yaml], [.updated.yaml],
    [.A.txt] and [.B.txt] end in one of them. *)
Definition INCLUDED_SUFFIXES : list string :=
  [".yaml"; ".paramnames"; ".covmat"; ".progress"; ".checkpoint"; ".txt"].

(** The test of the loop of [copy_run_dir] on one file: not excluded, and
    included. *)
Definition selected (incl excl : list string) (f : path) : bool :=
  negb (matches_any f excl) && matches_any f incl.

(** [s'] differs from [s] at most at the paths in [P]. *)
Definition only_changes (P : path -> Prop) (s s' : state) : Prop :=
  forall q, ~ P q -> files s' !! q = files s !! q.

(** A computation that changes the files at most at the paths in [P],
    whether it returns or raises. *)
Definition touches {A} (P : path -> Prop) (m : M A) : Prop :=
  forall s r s', m s = (r, s') -> only_changes P s s'.

(** A directory, what lies in it, and the directories above it. *)
Definition around (out q : path) : Prop :=
  is_prefix out q = true \/ is_prefix q out = true.

(** Every entry of the tree lies in a directory. *)
Definition well_formed (m : fsmap) : bool :=
  forallb (fun q => is_dir m (path_parent q)) (entries m).

(** The same arguments with another choice for [--runs-from-file]. *)
Definition with_runs_from_file (args : Args) (f : option string) : Args :=
  mkArgs (args_base args) (args_out args) (args_runs args) f
         (args_auto_detect_runs args) (args_force args) (args_zip_ args)
         (args_targz args) (args_env_snapshot args) (args_venv_activate args).

(** The digits of a lower-case hexadecimal numeral. *)
Definition is_lower_hex (c : ascii) : bool :=
  let n := N_of_ascii c in
  ((48 <=? n) && (n <=? 57) || (97 <=? n) && (n <=? 102))%N.

(** The files of the environment snapshot that every path through
    [capture_env_snapshot] writes ([class_git_status.txt] and
    [class_dir_ls.txt] are written only when a CLASS directory is found). *)
Definition SNAPSHOT_FILES : list string :=
  ["python_version.txt"; "python_path.txt"; "python_executable.txt"; "uname.txt";
   "platform.txt"; "pip_version.txt"; "pip-freeze.txt"; "pip-show-cobaya.txt";
   "cobaya_version.txt"; "cobaya_cli.txt"; "classy_present.txt";
   "cobaya_config_candidates.txt"; "cobaya_config_path.txt";
   "cobaya_config_contents.txt"; "cobaya_packages_path_env.txt";
   "packages_path_grep.txt"; "packages_path_resolved.txt"; "packages_path_ls.txt";
   "class_dir_found.txt"; "class_git_hash.txt"; "class_fingerprint_sha256.txt"].

(** A record that tells the truth about a tree: its destination holds bytes
    of the size and the digest the record carries. *)
Definition describes (m : fsmap) (c : CopiedFile) : Prop :=
  exists data,
    m !! dst c = Some (File data)
    /\ size c = len data
    /\ sha256 c = SHA256.hexdigest data.

(** Two runs of the same name in different places, and a command line that
    names both. *)
Definition same_name_tree : state :=
  tree_of [(["work"], Dir);
           (["work"; "a"], Dir);
           (["work"; "a"; "x"], Dir);
           (["work"; "a"; "x"; "f.txt"], File "1");
           (["work"; "b"], Dir);
           (["work"; "b"; "x"], Dir);
           (["work"; "b"; "x"; "f.txt"], File "22")].

Definition same_name_args : Args :=
  mkArgs "." "stage" (Some ["a/x"; "b/x"]) None false true false false false None.









(** * Properties *)

(** ** The models of the standard library, on known values *)

Example fnmatch_ex1 : fnmatch "chain.1.txt" "*.txt" = true.
Proof. reflexivity. Qed.
Example fnmatch_ex2 : fnmatch "chain.1.txt" "*.log" = false.
Proof. reflexivity. Qed.
Example fnmatch_ex3 : fnmatch "/b/__pycache__/x.pyc" "__pycache__/*" = false.
Proof. reflexivity. Qed.
Example fnmatch_ex4 : fnmatch "a1.txt" "[a-c][!x]?txt" = true.
Proof. reflexivity. Qed.
Example fnmatch_ex5 : fnmatch "[x" "[?" = true.
Proof. reflexivity. Qed.

Example sha256_empty :
  SHA256.hexdigest "" = "e3b0c44298fc1c149afbf4c8996fb92427ae41e4649b934ca495991b7852b855".
Proof. vm_compute. reflexivity. Qed.

Example sha256_abc :
  SHA256.hexdigest "abc" = "ba7816bf8f01cfea414140de5dae2223b00361a396177a9cb410ff61f20015ad".
Proof. vm_compute. reflexivity. Qed.

Example sha256_two_blocks :
  SHA256.hexdigest "abcdbcdecdefdefgefghfghighijhijkijkljklmklmnlmnomnopnopq"
  = "248d6a61d20638b8e5c026930c3e6039a33ce45964ff2167f6ecedd419db06c1".
Proof. vm_compute. reflexivity. Qed.

(** ** String operations *)

Lemma strip_prefix_spec p s r : strip_prefix p s = Some r -> s = p +:+ r.
Proof.
  revert s; induction p as [|a p IH]; intros s H; simpl in H.
  - injection H as ->. reflexivity.
  - destruct s as [|b s]; [discriminate|].
    unfold ascii_eqb in H. destruct (Ascii.eqb_spec a b) as [->|]; [|discriminate].
    rewrite (IH _ H). reflexivity.
Qed.

Lemma find_first_spec sep s a b :
  find_first sep s = Some (a, b) -> s = a +:+ sep +:+ b.
Proof.
  revert a b; induction s as [|c s IH]; intros a b H.
  - simpl in H. destruct (strip_prefix sep "") eqn:E; [|discriminate].
    injection H as <- <-. apply strip_prefix_spec in E. exact E.
  - simpl in H. destruct (strip_prefix sep (String c s)) eqn:E.
    + injection H as <- <-. apply strip_prefix_spec in E. exact E.
    + destruct (find_first sep s) as [[a' b']|] eqn:F; [|discriminate].
      injection H as <- <-. rewrite (IH _ _ eq_refl). reflexivity.
Qed.

Lemma splitlines_line l rest :
  all_chars (fun c => negb (is_linebreak c)) l = true ->
  splitlines (l +:+ String LF rest) = l :: splitlines rest.
Proof.
  induction l as [|c l IH]; intros H.
  - simpl. destruct rest; reflexivity.
  - simpl in H. apply andb_true_iff in H as [Hc Hl].
    change (String c l +:+ String LF rest) with (String c (l +:+ String LF rest)).
    cbn [splitlines]. apply negb_true_iff in Hc. rewrite Hc, (IH Hl). reflexivity.
Qed.

Lemma splitlines_unlines lines :
  Forall (fun l => all_chars (fun c => negb (is_linebreak c)) l = true) lines ->
  splitlines (unlines lines) = lines.
Proof.
  induction 1 as [|l ls Hl _ IH]; [reflexivity|].
  cbn [unlines]. rewrite splitlines_line by exact Hl. now rewrite IH.
Qed.

Lemma first_extracted_skip l1 l2 :
  Forall (fun l => extract_from_line l = None) l1 ->
  first_extracted (l1 ++ l2) = first_extracted l2.
Proof.
  induction 1 as [|l ls Hl _ IH]; [reflexivity|].
  cbn [app first_extracted]. now rewrite Hl.
Qed.

Lemma find_first_char q v more :
  contains (String q "") v = false ->
  find_first (String q "") (v +:+ String q more) = Some (v, more).
Proof.
  induction v as [|c v IH]; intros H.
  - change ("" +:+ String q more) with (String q more).
    cbn [find_first strip_prefix]. unfold ascii_eqb. now rewrite Ascii.eqb_refl.
  - unfold contains in H. cbn [find_first strip_prefix] in H.
    change (String c v +:+ String q more) with (String c (v +:+ String q more)).
    cbn [find_first strip_prefix]. destruct (ascii_eqb q c); [discriminate|].
    destruct (find_first (String q "") v) as [[a b]|] eqn:F; [discriminate|].
    rewrite IH; [reflexivity|]. unfold contains. now rewrite F.
Qed.

Lemma split_ws_first w rest :
  w <> "" ->
  all_chars (fun c => negb (is_space c)) w = true ->
  all_chars is_space (substring 0 1 rest) = true ->
  split_ws (w +:+ rest) = w :: split_ws rest.
Proof.
  intros Hne Hw Hr. induction w as [|c w IH]; [congruence|].
  cbn in Hw. apply andb_true_iff in Hw as [Hc Hw]. apply negb_true_iff in Hc.
  change (String c w +:+ rest) with (String c (w +:+ rest)).
  cbn [split_ws]. rewrite Hc.
  destruct w as [|c' w].
  - change ("" +:+ rest) with rest. destruct rest as [|c' r]; [reflexivity|].
    cbn in Hr. destruct r; cbn in Hr; rewrite andb_true_r in Hr; now rewrite Hr.
  - change (String c' w +:+ rest) with (String c' (w +:+ rest)) in *.
    pose proof Hw as Hw'. cbn in Hw'. apply andb_true_iff in Hw' as [Hc' _].
    apply negb_true_iff in Hc'. rewrite Hc'.
    rewrite IH; [reflexivity|discriminate|exact Hw].
Qed.

Lemma extract_quoted line before after mid val q v more :
  find_first "packages_path" line = Some (before, after) ->
  find_first ":" after = Some (mid, val) ->
  strip val = String q (v +:+ String q more) ->
  q = squote \/ q = dquote ->
  contains (String q "") v = false ->
  v <> "" ->
  extract_from_line line = Some v.
Proof.
  intros H1 H2 H3 Hq Hv Hne. unfold extract_from_line, contains, split1.
  rewrite H1. cbn [negb nth]. rewrite H2. cbn [nth]. rewrite H3.
  cbn [PyStr.tail]. unfold startswith. cbn [strip_prefix].
  destruct Hq as [-> | ->].
  - change (ascii_eqb squote squote) with true. cbn iota.
    rewrite (find_first_char squote v more Hv). cbn [andb orb nth].
    destruct v; [congruence|reflexivity].
  - change (ascii_eqb squote dquote) with false.
    change (ascii_eqb dquote dquote) with true. cbn iota.
    rewrite (find_first_char dquote v more Hv). cbn [andb orb nth].
    destruct v; [congruence|reflexivity].
Qed.

Lemma extract_bare line before after mid val w rest :
  find_first "packages_path" line = Some (before, after) ->
  find_first ":" after = Some (mid, val) ->
  strip val = w +:+ rest ->
  w <> "" ->
  all_chars (fun c => negb (is_space c || ascii_eqb c squote || ascii_eqb c dquote)) w = true ->
  all_chars is_space (substring 0 1 rest) = true ->
  extract_from_line line = Some w.
Proof.
  intros H1 H2 H3 Hne Hw Hr. unfold extract_from_line, contains, split1.
  rewrite H1. cbn [negb nth]. rewrite H2. cbn [nth]. rewrite H3.
  destruct w as [|c w]; [congruence|].
  change (String c w +:+ rest) with (String c (w +:+ rest)).
  cbn in Hw. apply andb_true_iff in Hw as [Hc Hw].
  apply negb_true_iff in Hc. apply orb_false_iff in Hc as [Hc Hd].
  apply orb_false_iff in Hc as [Hsp Hsq].
  unfold startswith. cbn [strip_prefix PyStr.tail].
  unfold ascii_eqb in *. rewrite (Ascii.eqb_sym squote c), (Ascii.eqb_sym dquote c).
  rewrite Hsq, Hd. cbn [andb orb nonempty].
  change (String c (w +:+ rest)) with (String c w +:+ rest).
  rewrite split_ws_first; [reflexivity|discriminate| |exact Hr].
  cbn [all_chars]. rewrite Hsp. cbn [negb andb].
  clear -Hw. induction w as [|a w IH]; [reflexivity|].
  cbn [all_chars] in *. apply andb_true_iff in Hw as [Ha Hw]. rewrite (IH Hw), andb_true_r.
  apply negb_true_iff in Ha. apply orb_false_iff in Ha as [Ha _].
  apply orb_false_iff in Ha as [Ha _]. now rewrite Ha.
Qed.

(** ** Path-from-text extraction *)

Example extract_ex1 :
  _extract_packages_path_from_grep
    ("foo.yaml:5:packages_path: " +:+ String squote "/home/x/pkgs" +:+ String squote "")
  = Some "/home/x/pkgs".
Proof. reflexivity. Qed.

Example extract_ex2 :
  _extract_packages_path_from_grep "packages_path : /a/b" = Some "/a/b".
Proof. reflexivity. Qed.

Lemma extract_without_key line :
  contains "packages_path" line = false -> extract_from_line line = None.
Proof. intros H. unfold extract_from_line. now rewrite H. Qed.

Lemma extract_first_line_wins ls1 l ls2 v :
  Forall (fun x => all_chars (fun c => negb (is_linebreak c)) x = true) (ls1 ++ l :: ls2) ->
  Forall (fun x => extract_from_line x = None) ls1 ->
  extract_from_line l = Some v ->
  _extract_packages_path_from_grep (unlines (ls1 ++ l :: ls2)) = Some v.
Proof.
  intros Hlb Hnone Hv. unfold _extract_packages_path_from_grep.
  rewrite splitlines_unlines by exact Hlb.
  rewrite first_extracted_skip by exact Hnone.
  cbn [first_extracted]. now rewrite Hv.
Qed.

(** C6. Path-from-text extraction returns the first path token that follows
    the key [packages_path]: the two texts of the specification give
    [/home/x/pkgs] and [/a/b]; in a text of lines, the first line that yields
    a value decides, whatever follows it; on a line, the value is what stands
    between the quotes when the text after the colon opens with a quote that
    is closed, and otherwise the first whitespace-delimited word. [before] and
    [after] are the text around the first occurrence of the key on the line,
    [mid] and [val] the text around the first colon after it. *)
Theorem extract_packages_path_first_token :
  _extract_packages_path_from_grep
    ("foo.yaml:5:packages_path: " +:+ String squote "/home/x/pkgs" +:+ String squote "")
    = Some "/home/x/pkgs"
  /\ _extract_packages_path_from_grep "packages_path : /a/b" = Some "/a/b"
  /\ (forall ls1 l ls2 v,
        Forall (fun x => all_chars (fun c => negb (is_linebreak c)) x = true)
               (ls1 ++ l :: ls2) ->
        Forall (fun x => extract_from_line x = None) ls1 ->
        extract_from_line l = Some v ->
        _extract_packages_path_from_grep (unlines (ls1 ++ l :: ls2)) = Some v)
  /\ (forall line, contains "packages_path" line = false ->
        extract_from_line line = None)
  /\ (forall line before after mid val q v more,
        find_first "packages_path" line = Some (before, after) ->
        find_first ":" after = Some (mid, val) ->
        strip val = String q (v +:+ String q more) ->
        q = squote \/ q = dquote ->
        contains (String q "") v = false ->
        v <> "" ->
        extract_from_line line = Some v)
  /\ (forall line before after mid val w rest,
        find_first "packages_path" line = Some (before, after) ->
        find_first ":" after = Some (mid, val) ->
        strip val = w +:+ rest ->
        w <> "" ->
        all_chars (fun c => negb (is_space c || ascii_eqb c squote || ascii_eqb c dquote)) w
          = true ->
        all_chars is_space (substring 0 1 rest) = true ->
        extract_from_line line = Some w).
Proof.
  split; [reflexivity|]. split; [reflexivity|].
  split; [exact extract_first_line_wins|].
  split; [exact extract_without_key|].
  split; [exact extract_quoted|exact extract_bare].
Qed.

Lemma extract_packages_path_first_token_witness :
  _extract_packages_path_from_grep
    (unlines ["./runA/notes.txt:1:no key here";
              "./runA/a.yaml:3:packages_path: /opt/pk  # first";
              "./runB/b.yaml:7:packages_path: " +:+ String dquote "/other" +:+ String dquote ""])
  = Some "/opt/pk".
Proof.
  refine (proj1 (proj2 (proj2 extract_packages_path_first_token))
            ["./runA/notes.txt:1:no key here"]
            "./runA/a.yaml:3:packages_path: /opt/pk  # first"
            ["./runB/b.yaml:7:packages_path: " +:+ String dquote "/other" +:+ String dquote ""]
            "/opt/pk" _ _ _).
  - repeat constructor.
  - repeat constructor.
  - reflexivity.
Defined.

(** ** The monad *)

Lemma bind_inr {A B} (m : M A) (f : A -> M B) s b s' :
  bind m f s = (inr b, s') ->
  exists a s1, m s = (inr a, s1) /\ f a s1 = (inr b, s').
Proof.
  unfold bind. destruct (m s) as [[e|a] s1]; [discriminate|]. eauto.
Qed.

Lemma bind_eq {A B} (m : M A) (f : A -> M B) s :
  bind m f s =
  match m s with
  | (inl e, s') => (inl e, s')
  | (inr a, s') => f a s'
  end.
Proof. reflexivity. Qed.

(** ** Exclude before include (the file collector) *)

Lemma matches_any_spec p patterns :
  matches_any p patterns = true <->
  exists pat, In pat patterns
              /\ (fnmatch (path_name p) pat = true \/ fnmatch (as_posix p) pat = true).
Proof.
  unfold matches_any. split.
  - destruct (existsb _ patterns) eqn:E1.
    + intros _. apply existsb_exists in E1 as (pat & Hin & Hm). eauto.
    + destruct (existsb (fun pat => fnmatch (as_posix p) pat) patterns) eqn:E2;
        [|discriminate].
      intros _. apply existsb_exists in E2 as (pat & Hin & Hm). eauto.
  - intros (pat & Hin & [Hm|Hm]).
    + assert (existsb (fun pat => fnmatch (path_name p) pat) patterns = true) as ->
        by (apply existsb_exists; eauto).
      reflexivity.
    + destruct (existsb (fun pat => fnmatch (path_name p) pat) patterns); [reflexivity|].
      assert (existsb (fun pat => fnmatch (as_posix p) pat) patterns = true) as ->
        by (apply existsb_exists; eauto).
      reflexivity.
Qed.

Lemma copy_file_record a b s c s' :
  copy_file a b s = (inr c, s') -> src c = a /\ dst c = b.
Proof.
  unfold copy_file. intros H.
  apply bind_inr in H as (? & s1 & _ & H).
  apply bind_inr in H as (? & s2 & _ & H).
  apply bind_inr in H as (sz & s3 & _ & H).
  apply bind_inr in H as (dg & s4 & _ & H).
  unfold ret in H. injection H as <- _. split; reflexivity.
Qed.

Lemma copy_loop_skips_excluded incl excl run_dir dst_run_dir fs :
  forall copied s,
    for_each fs (copy_run_file incl excl run_dir dst_run_dir) copied s
    = for_each (List.filter (fun f => negb (matches_any f excl)) fs)
               (copy_run_file incl excl run_dir dst_run_dir) copied s.
Proof.
  induction fs as [|f fs IH]; intros copied s; [reflexivity|].
  cbn [List.filter]. destruct (matches_any f excl) eqn:E; cbn [negb].
  - cbn [for_each]. rewrite bind_eq. unfold copy_run_file at 1. rewrite E.
    unfold ret at 1. apply IH.
  - cbn [for_each]. rewrite !bind_eq.
    destruct (copy_run_file incl excl run_dir dst_run_dir f copied s) as [[e|c] s1];
      [reflexivity|apply IH].
Qed.

Lemma copy_loop_records incl excl run_dir dst_run_dir fs :
  forall copied s r s',
    for_each fs (copy_run_file incl excl run_dir dst_run_dir) copied s = (inr r, s') ->
    exists new,
      r = copied ++ new
      /\ Forall (fun c => In (src c) fs
                          /\ matches_any (src c) excl = false
                          /\ matches_any (src c) incl = true) new.
Proof.
  induction fs as [|f fs IH]; intros copied s r s' H.
  - cbn in H. injection H as <- _. exists []. split; [now rewrite app_nil_r|constructor].
  - cbn [for_each] in H. apply bind_inr in H as (c1 & s1 & Hf & H).
    apply IH in H as (new & -> & Hnew).
    assert (Hnew' : Forall (fun c => In (src c) (f :: fs)
                          /\ matches_any (src c) excl = false
                          /\ matches_any (src c) incl = true) new).
    { eapply List.Forall_impl; [|exact Hnew]. cbn. intros c (? & ? & ?). auto. }
    unfold copy_run_file in Hf.
    destruct (matches_any f excl) eqn:E.
    { injection Hf as <- _. eauto. }
    destruct (matches_any f incl) eqn:I.
    2:{ injection Hf as <- _. eauto. }
    destruct (relative_to f run_dir) as [rel|]; [|discriminate].
    apply bind_inr in Hf as (c & s2 & Hc & Hf). injection Hf as <- _.
    apply copy_file_record in Hc as [Hsrc _].
    exists (c :: new). split; [now rewrite <- app_assoc|].
    constructor; [|exact Hnew']. rewrite Hsrc. cbn. auto.
Qed.

(** C4. Whatever the include patterns, a file that matches an exclude
    pattern, by its bare name or by its slash-separated path, is not copied:
    the collector runs exactly as on the listing without the excluded files,
    and no record it adds has an excluded source. *)
Theorem excluded_files_are_never_copied :
  forall incl excl run_dir staging_root copied s,
    copy_run_dir_with incl excl run_dir staging_root copied s
    = bind (mkdir_p (staging_root ++ [path_name run_dir]))
        (fun _ => bind get_files (fun m =>
           for_each (List.filter (fun f => negb (matches_any f excl))
                                 (iter_run_files m run_dir))
                    (copy_run_file incl excl run_dir (staging_root ++ [path_name run_dir]))
                    copied)) s
    /\ (forall r s',
          copy_run_dir_with incl excl run_dir staging_root copied s = (inr r, s') ->
          exists new,
            r = copied ++ new
            /\ forall c, In c new ->
                 forall pat, In pat excl ->
                   fnmatch (path_name (src c)) pat = false
                   /\ fnmatch (as_posix (src c)) pat = false).
Proof.
  intros incl excl run_dir staging_root copied s. split.
  - unfold copy_run_dir_with. rewrite !bind_eq.
    destruct (mkdir_p _ s) as [[e|[]] s1]; [reflexivity|].
    rewrite !bind_eq. unfold get_files. apply copy_loop_skips_excluded.
  - intros r s' H. unfold copy_run_dir_with in H.
    apply bind_inr in H as (? & s1 & _ & H).
    apply bind_inr in H as (m & s2 & _ & H).
    apply copy_loop_records in H as (new & -> & Hnew).
    exists new. split; [reflexivity|].
    intros c Hc pat Hpat. rewrite Forall_forall in Hnew.
    apply list_elem_of_In in Hc.
    destruct (Hnew c Hc) as (_ & Hex & _).
    split.
    + destruct (fnmatch (path_name (src c)) pat) eqn:E; [|reflexivity].
      assert (matches_any (src c) excl = true) by (apply matches_any_spec; eauto).
      congruence.
    + destruct (fnmatch (as_posix (src c)) pat) eqn:E; [|reflexivity].
      assert (matches_any (src c) excl = true) by (apply matches_any_spec; eauto).
      congruence.
Qed.

Lemma excluded_files_are_never_copied_witness :
  In ["work"; "runA"; "ignore.log"] (iter_run_files (files scenario_tree) ["work"; "runA"])
  /\ matches_any ["work"; "runA"; "ignore.log"] EXCLUDE_PATTERNS = true
  /\ exists r,
       fst (copy_run_dir ["work"; "runA"] ["work"; "stage"] [] scenario_tree) = inr r
       /\ map src r = [["work"; "runA"; "chain.1.txt"]; ["work"; "runA"; "config.yaml"]]
       /\ forall c, In c r ->
            forall pat, In pat EXCLUDE_PATTERNS ->
              fnmatch (path_name (src c)) pat = false
              /\ fnmatch (as_posix (src c)) pat = false.
Proof.
  split; [vm_compute; auto|]. split; [vm_compute; reflexivity|].
  assert (Hfst : exists r,
            fst (copy_run_dir ["work"; "runA"] ["work"; "stage"] [] scenario_tree) = inr r
            /\ map src r = [["work"; "runA"; "chain.1.txt"]; ["work"; "runA"; "config.yaml"]])
    by (vm_compute; eauto).
  destruct Hfst as (r & Hr & Hsrc). exists r. split; [exact Hr|]. split; [exact Hsrc|].
  pose proof (surjective_pairing
                (copy_run_dir ["work"; "runA"] ["work"; "stage"] [] scenario_tree)) as H.
  rewrite Hr in H.
  destruct (proj2 (excluded_files_are_never_copied INCLUDE_PATTERNS EXCLUDE_PATTERNS
                     ["work"; "runA"] ["work"; "stage"] [] scenario_tree) _ _ H)
    as (new & Hnew & Hex).
  cbn [app] in Hnew. subst new. exact Hex.
Defined.

(** ** The orders on strings and paths, and [sorted] *)

Lemma string_compare_refl s : String.compare s s = Eq.
Proof.
  induction s as [|c s IH]; [reflexivity|].
  cbn. unfold Ascii.compare. now rewrite N.compare_refl.
Qed.

Lemma string_compare_lt_trans : forall a b c,
  String.compare a b = Lt -> String.compare b c = Lt -> String.compare a c = Lt.
Proof.
  induction a as [|x a IH]; intros [|y b] [|z c]; cbn; try congruence.
  unfold Ascii.compare.
  destruct (N.compare_spec (N_of_ascii x) (N_of_ascii y)) as [E1|L1|L1];
    destruct (N.compare_spec (N_of_ascii y) (N_of_ascii z)) as [E2|L2|L2];
    try congruence; intros H1 H2.
  - rewrite E1, E2, N.compare_refl. now apply (IH b).
  - rewrite E1. now apply N.compare_lt_iff in L2 as ->.
  - rewrite <- E2. now apply N.compare_lt_iff in L1 as ->.
  - assert (L : (N_of_ascii x < N_of_ascii z)%N) by lia.
    now apply N.compare_lt_iff in L as ->.
Qed.

Lemma string_leb_trans a b c :
  String.leb a b = true -> String.leb b c = true -> String.leb a c = true.
Proof.
  unfold String.leb. intros H1 H2.
  destruct (String.compare a b) eqn:E1; [| |discriminate];
    destruct (String.compare b c) eqn:E2; try discriminate.
  - apply String.compare_eq_iff in E1 as ->. now rewrite E2.
  - apply String.compare_eq_iff in E1 as ->. now rewrite E2.
  - apply String.compare_eq_iff in E2 as <-. now rewrite E1.
  - now rewrite (string_compare_lt_trans a b c E1 E2).
Qed.

Lemma path_leb_total p q : path_leb p q = true \/ path_leb q p = true.
Proof.
  revert q; induction p as [|x p IH]; intros [|y q]; cbn; auto.
  rewrite (String.compare_antisym y x).
  destruct (String.compare x y); cbn; auto.
Qed.

Lemma path_leb_trans p q r :
  path_leb p q = true -> path_leb q r = true -> path_leb p r = true.
Proof.
  revert q r; induction p as [|x p IH]; intros [|y q] [|z r]; cbn; try congruence.
  destruct (String.compare x y) eqn:E1; [| |discriminate];
    destruct (String.compare y z) eqn:E2; try discriminate.
  - apply String.compare_eq_iff in E1 as ->. rewrite E2. apply IH.
  - apply String.compare_eq_iff in E1 as ->. now rewrite E2.
  - apply String.compare_eq_iff in E2 as <-. now rewrite E1.
  - now rewrite (string_compare_lt_trans x y z E1 E2).
Qed.

Lemma path_leb_sibling base x y :
  path_leb (base ++ [x]) (base ++ [y]) = String.leb x y.
Proof.
  induction base as [|b base IH]; cbn.
  - unfold String.leb. now destruct (String.compare x y).
  - now rewrite string_compare_refl.
Qed.

Section SortedBy.

Context {A : Type} (leb : A -> A -> bool).

Lemma insert_by_perm x l : Permutation (insert_by leb x l) (x :: l).
Proof.
  induction l as [|y l IH]; cbn; [reflexivity|].
  destruct (leb x y); [reflexivity|].
  rewrite IH. apply perm_swap.
Qed.

Lemma sorted_by_perm l : Permutation (sorted_by leb l) l.
Proof.
  induction l as [|x l IH]; cbn; [reflexivity|].
  rewrite insert_by_perm. now constructor.
Qed.

Lemma sorted_by_In x l : In x (sorted_by leb l) <-> In x l.
Proof.
  split; apply Permutation_in; [|symmetry]; apply sorted_by_perm.
Qed.

Hypothesis leb_total : forall a b, leb a b = true \/ leb b a = true.
Hypothesis leb_trans : forall a b c, leb a b = true -> leb b c = true -> leb a c = true.

Lemma insert_by_sorted x l :
  StronglySorted (fun a b => leb a b = true) l ->
  StronglySorted (fun a b => leb a b = true) (insert_by leb x l).
Proof.
  induction 1 as [|y l Hs IH Hy]; cbn.
  - repeat constructor.
  - destruct (leb x y) eqn:E.
    + constructor; [now constructor|].
      constructor; [exact E|].
      eapply List.Forall_impl; [|exact Hy]. intros z Hz. now apply (leb_trans x y z).
    + constructor; [exact IH|].
      apply Forall_forall. intros z Hz.
      apply list_elem_of_In, (Permutation_in _ (insert_by_perm x l)) in Hz.
      destruct Hz as [<-|Hz].
      * destruct (leb_total x y); congruence.
      * rewrite Forall_forall in Hy. apply Hy. now apply list_elem_of_In.
Qed.

Lemma sorted_by_sorted l : StronglySorted (fun a b => leb a b = true) (sorted_by leb l).
Proof.
  induction l as [|x l IH]; cbn; [constructor|now apply insert_by_sorted].
Qed.

(** Two listings of the same elements sort to the same list, when elements
    that compare equal are equal. *)
Lemma sorted_by_perm_invariant l1 l2 :
  (forall a b, In a l1 -> In b l1 -> leb a b = true -> leb b a = true -> a = b) ->
  Permutation l1 l2 ->
  sorted_by leb l1 = sorted_by leb l2.
Proof.
  intros Hanti Hperm.
  apply (StronglySorted_unique_strong (fun a b => leb a b = true)).
  - intros a b Ha Hb. apply Hanti.
    + apply list_elem_of_In in Ha. exact (proj1 (sorted_by_In _ _) Ha).
    + apply list_elem_of_In in Hb. apply (proj1 (sorted_by_In _ _)) in Hb.
      exact (Permutation_in _ (Permutation_sym Hperm) Hb).
  - apply sorted_by_sorted.
  - apply sorted_by_sorted.
  - rewrite !sorted_by_perm. exact Hperm.
Qed.

End SortedBy.

(** ** Auto-detection of run directories *)

Lemma node_at_nonroot (m : gmap path node) p x : node_at m (p ++ [x]) = m !! (p ++ [x]).
Proof. unfold node_at. destruct (p ++ [x]) eqn:E; [now destruct p|reflexivity]. Qed.

Lemma entries_spec (m : gmap path node) p : In p (entries m) <-> is_Some (m !! p).
Proof.
  unfold entries. rewrite in_map_iff. split.
  - intros ([k v] & <- & Hin). apply list_elem_of_In, elem_of_map_to_list in Hin.
    cbn. eauto.
  - intros [v Hv]. exists (p, v). split; [reflexivity|].
    now apply list_elem_of_In, elem_of_map_to_list.
Qed.

(** The children of [d] are the entries one component below it. *)
Lemma children_spec (m : gmap path node) d p :
  In p (children m d) <-> is_Some (m !! p) /\ exists x, p = d ++ [x].
Proof.
  unfold children, path_eqb, path_parent. rewrite filter_In, entries_spec.
  rewrite andb_true_iff, negb_true_iff, bool_decide_eq_false, bool_decide_eq_true.
  split.
  - intros (Hp & Hne & Hd). split; [exact Hp|].
    exists (List.last p ""). rewrite <- Hd. now apply app_removelast_last.
  - intros (Hp & x & ->). split; [exact Hp|]. split.
    + now destruct d.
    + apply removelast_last.
Qed.

Lemma nonempty_filter {A} (f : A -> bool) (l : list A) :
  Nat.ltb 0 (List.length (List.filter f l)) = true <-> exists x, In x l /\ f x = true.
Proof.
  split.
  - destruct (List.filter f l) as [|x r] eqn:E; [discriminate|].
    intros _. exists x. apply filter_In. rewrite E. now left.
  - intros (x & Hx). apply filter_In in Hx.
    destruct (List.filter f l); [destruct Hx|reflexivity].
Qed.

Lemma is_run_dir_spec (m : gmap path node) d :
  is_run_dir m d = true <->
  is_dir m d = true
  /\ (exists y, In y (children m d) /\ fnmatch (path_name y) "*.yaml" = true)
  /\ (exists t, In t (children m d) /\ fnmatch (path_name t) "*.txt" = true).
Proof.
  unfold is_run_dir, glob. destruct (is_dir m d); cbn [negb].
  2:{ split; [discriminate|]. now intros [? _]. }
  rewrite andb_true_iff, orb_true_iff, !nonempty_filter. split.
  - intros [Hy [Hc|Ht]]; [|now auto].
    split; [reflexivity|]. split; [exact Hy|].
    apply existsb_exists in Hc as (t & Ht & _). apply filter_In in Ht. eauto.
  - intros (_ & Hy & Ht). auto.
Qed.

Lemma detect_run_dirs_sorted (m : gmap path node) base :
  StronglySorted (fun a b => String.leb (path_name a) (path_name b) = true)
                 (sorted_by path_leb (List.filter (is_run_dir m) (children m base))).
Proof.
  pose proof (sorted_by_sorted path_leb path_leb_total path_leb_trans
                (List.filter (is_run_dir m) (children m base))) as Hs.
  assert (Hin : Forall (fun p => exists x, p = base ++ [x])
                       (sorted_by path_leb (List.filter (is_run_dir m) (children m base)))).
  { apply Forall_forall. intros p Hp. apply list_elem_of_In in Hp.
    apply (proj1 (sorted_by_In _ _ _)) in Hp. apply filter_In in Hp as [Hp _].
    now apply children_spec in Hp as [_ Hp]. }
  induction Hs as [|a l Hs IH Ha]; [constructor|].
  apply Forall_cons in Hin as [[x ->] Hin].
  constructor; [now apply IH|].
  rewrite Forall_forall in Ha, Hin. apply Forall_forall. intros b Hb.
  destruct (Hin b Hb) as [y ->]. specialize (Ha _ Hb).
  rewrite path_leb_sibling in Ha.
  unfold path_name. now rewrite !last_last.
Qed.

Lemma detect_run_dirs_spec :
  forall s base,
    is_dir (files s) base = true ->
    exists ds,
      detect_run_dirs base s = (inr ds, s)
      /\ (forall d,
            In d ds <->
            (exists x, d = base ++ [x])
            /\ is_dir (files s) d = true
            /\ (exists y, is_Some (files s !! (d ++ [y])) /\ fnmatch y "*.yaml" = true)
            /\ (exists t, is_Some (files s !! (d ++ [t])) /\ fnmatch t "*.txt" = true))
      /\ StronglySorted (fun a b => String.leb (path_name a) (path_name b) = true) ds.
Proof.
  intros s base Hbase. unfold detect_run_dirs. rewrite bind_eq. unfold get_files.
  unfold is_dir in Hbase. destruct (node_at (files s) base) as [[|]|]; try discriminate.
  eexists. split; [reflexivity|]. split; [|apply detect_run_dirs_sorted].
  intros d. rewrite sorted_by_In, filter_In, is_run_dir_spec, children_spec. split.
  - intros ((Hd & x & ->) & Hdir & (y & Hy & Hym) & (t & Ht & Htm)).
    split; [eauto|]. split; [exact Hdir|].
    apply children_spec in Hy as (Hy & y' & ->).
    apply children_spec in Ht as (Ht & t' & ->).
    unfold path_name in Hym, Htm. rewrite last_last in Hym, Htm.
    split; eauto.
  - intros ((x & ->) & Hdir & (y & Hy & Hym) & (t & Ht & Htm)).
    split.
    + split; [|eauto]. rewrite <- node_at_nonroot.
      unfold is_dir in Hdir. destruct (node_at (files s) (base ++ [x])); [eauto|discriminate].
    + split; [exact Hdir|]. split.
      * exists ((base ++ [x]) ++ [y]). split; [apply children_spec; eauto|].
        unfold path_name. now rewrite last_last.
      * exists ((base ++ [x]) ++ [t]). split; [apply children_spec; eauto|].
        unfold path_name. now rewrite last_last.
Qed.

(** C5. Auto-detection, on a base that is a directory, returns exactly the
    directories directly below the base that directly contain an entry whose
    name matches [*.yaml] and an entry whose name matches [*.txt] (the test
    on the numbered suffix changes nothing); it returns them in the order of
    their names, and leaves the files alone. An entry is a file of any kind,
    as [glob] lists them. In particular, of a directory with one [.yaml] file
    and no [.txt] file, one with a [.yaml] file and [notes.txt], and one with a
    [.yaml] file and a numbered chain segment, the last two are selected, in
    the order of their names. *)
Theorem detect_run_dirs_selects_yaml_and_txt :
  (forall s base,
    is_dir (files s) base = true ->
    exists ds,
      detect_run_dirs base s = (inr ds, s)
      /\ (forall d,
            In d ds <->
            (exists x, d = base ++ [x])
            /\ is_dir (files s) d = true
            /\ (exists y, is_Some (files s !! (d ++ [y])) /\ fnmatch y "*.yaml" = true)
            /\ (exists t, is_Some (files s !! (d ++ [t])) /\ fnmatch t "*.txt" = true))
      /\ StronglySorted (fun a b => String.leb (path_name a) (path_name b) = true) ds)
  /\ detect_run_dirs ["work"] detect_tree
     = (inr [["work"; "chain_run"]; ["work"; "notes_run"]], detect_tree).
Proof.
  split; [exact detect_run_dirs_spec|]. vm_compute. reflexivity.
Qed.

Lemma detect_run_dirs_selects_yaml_and_txt_witness :
  is_dir (files detect_tree) ["work"] = true
  /\ exists ds,
      detect_run_dirs ["work"] detect_tree = (inr ds, detect_tree)
      /\ (forall d,
            In d ds <->
            (exists x, d = ["work"] ++ [x])
            /\ is_dir (files detect_tree) d = true
            /\ (exists y, is_Some (files detect_tree !! (d ++ [y]))
                          /\ fnmatch y "*.yaml" = true)
            /\ (exists t, is_Some (files detect_tree !! (d ++ [t]))
                          /\ fnmatch t "*.txt" = true))
      /\ StronglySorted (fun a b => String.leb (path_name a) (path_name b) = true) ds.
Proof.
  split; [reflexivity|].
  apply (proj1 detect_run_dirs_selects_yaml_and_txt detect_tree ["work"]). reflexivity.
Defined.

(** ** Dependency tree discovery *)

Lemma first_candidate_ignores_marker (m : gmap path node) cands :
  first_candidate m cands = List.find (fun c => exists_ m c && is_dir m c) cands.
Proof.
  induction cands as [|c cands IH]; [reflexivity|].
  cbn. destruct (exists_ m c && is_dir m c); [|exact IH].
  now destruct (has_class_marker m c).
Qed.

(** C7, on the code. With [code/classy] present and holding neither marker
    file, and a marked tree at [src], the discovery returns [code/classy]:
    the candidate is returned although it does not qualify, and the search
    that would find [src] is not run. *)
Theorem find_class_dir_returns_unmarked_candidate :
  _find_class_dir packages_tree ["pk"] = Some ["pk"; "code"; "classy"]
  /\ has_class_marker packages_tree ["pk"; "code"; "classy"] = false
  /\ option_map path_parent
       (List.find (fun p => is_dir packages_tree p && exists_ packages_tree (p ++ ["class.c"]))
                  (rglob_name packages_tree ["pk"] "main"))
     = Some ["pk"; "src"].
Proof. vm_compute. repeat split. Qed.

(** ** Source fingerprint *)

Lemma all_some_Forall {A B} (f : A -> option B) l :
  Forall (fun x => is_Some (f x)) l -> is_Some (all_some (map f l)).
Proof.
  induction 1 as [|x l [y Hy] _ [ys IH]]; cbn; [eauto|].
  rewrite Hy, IH. eauto.
Qed.

Lemma all_some_perm {A} (l1 l2 : list (option A)) :
  Permutation l1 l2 ->
  match all_some l1, all_some l2 with
  | Some a, Some b => Permutation a b
  | None, None => True
  | _, _ => False
  end.
Proof.
  induction 1 as [|x l1 l2 _ IH|x y l|l1 l2 l3 _ IH1 _ IH2]; cbn.
  - constructor.
  - destruct x; [|exact I].
    destruct (all_some l1), (all_some l2); try easy. now constructor.
  - destruct x, y; try exact I; destruct (all_some l); try exact I.
    apply perm_swap.
  - destruct (all_some l1), (all_some l2), (all_some l3); try easy.
    now transitivity l0.
Qed.

Lemma is_prefix_relative_to d : forall p,
  is_prefix d p = true -> is_Some (relative_to p d).
Proof.
  induction d as [|x d IH]; intros [|y p] H; cbn; eauto; [discriminate|].
  cbn in H.
  apply andb_true_iff in H as [Hxy H]. apply String.eqb_eq in Hxy as ->.
  rewrite String.eqb_refl. now apply IH.
Qed.

Lemma iter_run_files_below (m : gmap path node) d :
  Forall (fun p => is_Some (relative_to p d)) (iter_run_files m d).
Proof.
  unfold iter_run_files, descendants. destruct (is_dir m d); [|constructor].
  apply Forall_forall. intros p Hp. apply list_elem_of_In in Hp.
  apply filter_In in Hp as [Hp _]. apply filter_In in Hp as [_ Hp].
  apply andb_true_iff in Hp as [Hp _]. now apply is_prefix_relative_to.
Qed.

Lemma candidate_lines_spec (m : gmap path node) class_dir :
  candidate_lines m class_dir
  = map (fun rel =>
           _sha256 m (class_dir ++ parse_parts rel) +:+ "  "
           +:+ str_N (st_size m (class_dir ++ parse_parts rel)) +:+ "  " +:+ rel)
        (List.filter (fun rel => is_file m (class_dir ++ parse_parts rel))
                     fingerprint_candidates).
Proof.
  unfold candidate_lines. induction fingerprint_candidates as [|rel l IH]; [reflexivity|].
  cbn [flat_map List.filter map]. rewrite IH.
  assert (E : exists_ m (class_dir ++ parse_parts rel) && is_file m (class_dir ++ parse_parts rel)
              = is_file m (class_dir ++ parse_parts rel)).
  { unfold exists_, is_file. now destruct (node_at m _) as [[|]|]. }
  rewrite E. now destruct (is_file m (class_dir ++ parse_parts rel)).
Qed.

Lemma fallback_line_perm class_dir l1 l2 :
  Permutation l1 l2 -> fallback_line class_dir l1 = fallback_line class_dir l2.
Proof.
  intros Hp. unfold fallback_line.
  pose proof (all_some_perm _ _
    (Permutation_map (fun x => option_map (join "/") (relative_to x class_dir)) Hp)) as H.
  destruct (all_some _) as [a|], (all_some _) as [b|]; try easy.
  rewrite (sorted_by_perm_invariant String.leb String.leb_total string_leb_trans a b);
    [reflexivity| |exact H].
  intros x y _ _. apply String.leb_antisym.
Qed.

Lemma fingerprint_body_nonempty (m : gmap path node) class_dir tree_files body :
  fingerprint_body m class_dir tree_files = Some body -> body <> [].
Proof.
  unfold fingerprint_body. destruct (candidate_lines m class_dir) as [|l ls].
  - destruct (fallback_line class_dir tree_files); cbn; congruence.
  - congruence.
Qed.

Lemma fingerprint_text_perm (m : gmap path node) class_dir l1 l2 :
  Permutation l1 l2 ->
  fingerprint_text m class_dir l1 = fingerprint_text m class_dir l2.
Proof.
  intros Hp. unfold fingerprint_text, fingerprint_body.
  now rewrite (fallback_line_perm class_dir l1 l2 Hp).
Qed.

Lemma fingerprint_text_written (m : gmap path node) class_dir :
  is_Some (fingerprint_text m class_dir (iter_run_files m class_dir)).
Proof.
  unfold fingerprint_text, fingerprint_body, fallback_line.
  destruct (candidate_lines m class_dir); [|eauto].
  destruct (all_some_Forall (fun x => option_map (join "/") (relative_to x class_dir))
              (iter_run_files m class_dir)) as [names Hn].
  - eapply List.Forall_impl; [|apply iter_run_files_below].
    intros p [r ->]. cbn. eauto.
  - rewrite Hn. cbn. eauto.
Qed.

(** C8, as the code has it. The fingerprint has one digest line for each
    candidate that is a file, in the order of the candidates; when there is
    none it has the one fallback line, whose digest is the hash of the sorted
    relative file listing with a newline after every name (the last one
    too). Its body is never empty, it does not depend on the order in which
    the tree is listed, and the text is always produced. With [Makefile] the
    only candidate present there is one digest line, for [Makefile]; with no
    candidate and three other files there is the fallback line alone. *)
Theorem class_fingerprint_lines :
  (forall (m : gmap path node) class_dir tree_files,
     candidate_lines m class_dir
     = map (fun rel =>
              _sha256 m (class_dir ++ parse_parts rel) +:+ "  "
              +:+ str_N (st_size m (class_dir ++ parse_parts rel)) +:+ "  " +:+ rel)
           (List.filter (fun rel => is_file m (class_dir ++ parse_parts rel))
                        fingerprint_candidates)
     /\ (candidate_lines m class_dir <> [] ->
         fingerprint_body m class_dir tree_files = Some (candidate_lines m class_dir))
     /\ (candidate_lines m class_dir = [] ->
         forall names,
           all_some (map (fun x => option_map (join "/") (relative_to x class_dir)) tree_files)
             = Some names ->
           let blob := join nl (sorted_by String.leb names) +:+ nl in
           fingerprint_body m class_dir tree_files
           = Some [SHA256.hexdigest blob +:+ "  " +:+ str_N (len blob)
                   +:+ "  __file_list_fallback__"])
     /\ (forall body, fingerprint_body m class_dir tree_files = Some body -> body <> [])
     /\ (forall tree_files',
           Permutation tree_files tree_files' ->
           fingerprint_text m class_dir tree_files' = fingerprint_text m class_dir tree_files)
     /\ is_Some (fingerprint_text m class_dir (iter_run_files m class_dir)))
  /\ fingerprint_body makefile_tree ["cl"] (iter_run_files makefile_tree ["cl"])
     = Some [SHA256.hexdigest "all:" +:+ "  4  Makefile"]
  /\ fingerprint_body plain_tree ["cl"] (iter_run_files plain_tree ["cl"])
     = Some [SHA256.hexdigest ("a.txt" +:+ nl +:+ "b/c.txt" +:+ nl +:+ "z" +:+ nl)
             +:+ "  16  __file_list_fallback__"].
Proof.
  split; [|split; vm_compute; reflexivity].
  intros m class_dir tree_files.
  split; [apply candidate_lines_spec|].
  split.
  { intros Hne. unfold fingerprint_body.
    destruct (candidate_lines m class_dir); [congruence|reflexivity]. }
  split.
  { intros Hnil names Hnames. unfold fingerprint_body, fallback_line.
    rewrite Hnil, Hnames. reflexivity. }
  split; [apply fingerprint_body_nonempty|].
  split; [|apply fingerprint_text_written].
  intros tree_files' Hp. symmetry. now apply fingerprint_text_perm.
Qed.

Lemma class_fingerprint_lines_witness :
  Permutation (iter_run_files plain_tree ["cl"])
              [["cl"; "a.txt"]; ["cl"; "b"; "c.txt"]; ["cl"; "z"]]
  /\ fingerprint_text plain_tree ["cl"] [["cl"; "a.txt"]; ["cl"; "b"; "c.txt"]; ["cl"; "z"]]
     = fingerprint_text plain_tree ["cl"] (iter_run_files plain_tree ["cl"]).
Proof.
  assert (H : Permutation (iter_run_files plain_tree ["cl"])
                          [["cl"; "a.txt"]; ["cl"; "b"; "c.txt"]; ["cl"; "z"]]).
  { change (Permutation [["cl"; "z"]; ["cl"; "b"; "c.txt"]; ["cl"; "a.txt"]]
                        [["cl"; "a.txt"]; ["cl"; "b"; "c.txt"]; ["cl"; "z"]]).
    apply (Permutation_rev [["cl"; "z"]; ["cl"; "b"; "c.txt"]; ["cl"; "a.txt"]]). }
  split; [exact H|].
  exact (proj1 (proj2 (proj2 (proj2 (proj2
           (proj1 class_fingerprint_lines plain_tree ["cl"]
                  (iter_run_files plain_tree ["cl"]))))))
           _ H).
Defined.

(** The digest of the fallback line is not the hash of the listing joined by
    newlines: the text hashed ends with a newline. *)
Lemma fingerprint_fallback_counterexample :
  fingerprint_body plain_tree ["cl"] (iter_run_files plain_tree ["cl"])
  = Some [SHA256.hexdigest (join nl ["a.txt"; "b/c.txt"; "z"] +:+ nl)
          +:+ "  16  __file_list_fallback__"]
  /\ SHA256.hexdigest (join nl ["a.txt"; "b/c.txt"; "z"] +:+ nl)
     <> SHA256.hexdigest (join nl (sorted_by String.leb ["z"; "b/c.txt"; "a.txt"])).
Proof.
  split; [vm_compute; reflexivity|].
  vm_compute. discriminate.
Qed.

(** ** The primitives of the monad *)

Lemma read_text_inr p s data s' :
  read_text p s = (inr data, s') ->
  s' = s /\ node_at (files s) p = Some (File data).
Proof.
  unfold read_text. rewrite bind_eq. unfold get_files.
  destruct (node_at (files s) p) as [[d|]|]; try discriminate.
  unfold ret. intros H. injection H as <- <-. auto.
Qed.

Lemma stat_size_inr p s n s' :
  stat_size p s = (inr n, s') ->
  s' = s /\ exists data, node_at (files s) p = Some (File data) /\ n = len data.
Proof.
  unfold stat_size. rewrite bind_eq. unfold get_files.
  destruct (node_at (files s) p) as [[d|]|]; try discriminate.
  unfold ret. intros H. injection H as <- <-. eauto.
Qed.

Lemma write_text_inr p data s u s' :
  write_text p data s = (inr u, s') ->
  files s' = <[p := File data]> (files s) /\ console s' = console s.
Proof.
  unfold write_text. rewrite bind_eq. unfold get_files.
  destruct (node_at (files s) (path_parent p)) as [[d|]|]; try discriminate.
  destruct (is_dir (files s) p); [discriminate|].
  unfold put_files. intros H. injection H as _ <-. auto.
Qed.

(** ** The manifest *)








(** ** Run selection *)

Lemma detect_run_dirs_state base s r s' :
  detect_run_dirs base s = (r, s') -> s' = s.
Proof.
  unfold detect_run_dirs. rewrite bind_eq. unfold get_files.
  destruct (node_at (files s) base) as [[d|]|]; unfold ret, raise; congruence.
Qed.

Lemma read_text_state p s r s' : read_text p s = (r, s') -> s' = s.
Proof.
  unfold read_text. rewrite bind_eq. unfold get_files.
  destruct (node_at (files s) p) as [[d|]|]; unfold ret, raise; congruence.
Qed.

Lemma resolve_run_dirs_length (m : gmap path node) base runs : forall acc ds,
  resolve_run_dirs m base runs acc = inr ds ->
  List.length ds = (List.length acc + List.length runs)%nat
  /\ (Forall (fun d => is_dir m d = true) acc -> Forall (fun d => is_dir m d = true) ds).
Proof.
  induction runs as [|r runs IH]; intros acc ds H; cbn in H.
  - injection H as <-. cbn. split; [lia|auto].
  - destruct (negb (exists_ m (resolve base r)) || negb (is_dir m (resolve base r))) eqn:E;
      [discriminate|].
    apply IH in H as [Hl Hd]. rewrite length_app in Hl. cbn in *. split; [lia|].
    intros Hacc. apply Hd. apply Forall_app. split; [exact Hacc|].
    constructor; [|constructor].
    apply orb_false_iff in E as [_ E]. now apply negb_false_iff in E.
Qed.

(** The outcomes of the validation: the files are as before, the only exit
    code is 2, and without the auto-detect switch a selection that comes out
    is not empty and names directories. *)
Lemma determine_run_list_spec h args base s r s' :
  determine_run_list h args base s = (r, s') ->
  files s' = files s
  /\ (forall code, r = inr (inl code) -> code = 2%Z)
  /\ (args_auto_detect_runs args = false ->
      forall runs run_dirs, r = inr (inr (runs, run_dirs)) ->
        runs <> []
        /\ List.length run_dirs = List.length runs
        /\ Forall (fun d => is_dir (files s) d = true) run_dirs).
Proof.
  unfold determine_run_list. rewrite bind_eq.
  set (from_file := match args_runs_from_file args with Some _ => _ | None => _ end).
  assert (Hff : forall r1 s1, from_file s = (r1, s1) ->
                  files s1 = files s /\ (forall code, r1 = inr (inl code) -> code = 2%Z)).
  { subst from_file. intros r1 s1.
    destruct (args_runs_from_file args) as [f|]; [|unfold ret; intros [= <- <-]; split; congruence].
    destruct (nonempty f); [|unfold ret; intros [= <- <-]; split; congruence].
    rewrite bind_eq. unfold get_files.
    destruct (negb (exists_ (files s) _)).
    - rewrite bind_eq. unfold print, ret. intros [= <- <-]. cbn. split; congruence.
    - rewrite bind_eq. destruct (read_text _ s) as [[e|text] s2] eqn:R.
      + apply read_text_state in R as ->. intros [= <- <-]. split; congruence.
      + apply read_text_state in R as ->. unfold ret. intros [= <- <-]. split; congruence. }
  specialize (Hff _ _ (surjective_pairing (from_file s))).
  destruct (from_file s) as [[e|[code|runs0]] s1]; cbn [fst snd] in Hff;
    destruct Hff as [Hf1 Hc1].
  - intros [= <- <-]. split; [exact Hf1|]. split; congruence.
  - unfold ret. intros [= <- <-]. split; [exact Hf1|]. split; [|congruence].
    intros c [= <-]. now apply Hc1.
  - set (runs := match args_runs args with Some (r0 :: rs) => r0 :: rs | _ => runs0 end).
    destruct (args_auto_detect_runs args).
    + rewrite bind_eq. destruct (detect_run_dirs base s1) as [[e|ds] s2] eqn:D;
        apply detect_run_dirs_state in D as ->.
      * intros [= <- <-]. split; [exact Hf1|]. split; congruence.
      * unfold ret. intros [= <- <-]. split; [exact Hf1|]. split; congruence.
    + destruct runs as [|r0 rs] eqn:Eruns.
      * rewrite bind_eq. unfold print, ret. intros [= <- <-]. cbn.
        split; [exact Hf1|]. split; congruence.
      * rewrite bind_eq. unfold get_files.
        destruct (resolve_run_dirs (files s1) base (r0 :: rs) []) as [d|ds] eqn:R.
        -- rewrite bind_eq. unfold print, ret. intros [= <- <-]. cbn.
           split; [exact Hf1|]. split; congruence.
        -- unfold ret. intros [= <- <-]. split; [exact Hf1|]. split; [congruence|].
           intros _ runs' dirs' [= <- <-].
           apply resolve_run_dirs_length in R as [Hl Hd].
           split; [discriminate|]. split; [exact Hl|].
           rewrite <- Hf1. apply Hd. constructor.
Qed.

(** The error exits of the validation of the run list. *)
Lemma determine_run_list_error h args base s code s' :
  determine_run_list h args base s = (inr (inl code), s') ->
  code = 2%Z /\ files s' = files s
  /\ exists msg, console s' = console s ++ [(Stderr, "ERROR: " +:+ msg)].
Proof.
  unfold determine_run_list. rewrite bind_eq.
  set (from_file := match args_runs_from_file args with Some _ => _ | None => _ end).
  assert (Hff : forall r1 s1, from_file s = (r1, s1) ->
            match r1 with
            | inr (inl c) => c = 2%Z /\ files s1 = files s
                             /\ exists msg, console s1 = console s ++ [(Stderr, "ERROR: " +:+ msg)]
            | _ => s1 = s
            end).
  { subst from_file. intros r1 s1.
    destruct (args_runs_from_file args) as [f|]; [|now intros [= <- <-]].
    destruct (nonempty f); [|now intros [= <- <-]].
    rewrite bind_eq. unfold get_files.
    destruct (negb (exists_ (files s) _)).
    - rewrite bind_eq. unfold print, ret. intros [= <- <-]. cbn.
      split; [reflexivity|]. split; [reflexivity|]. eexists. reflexivity.
    - rewrite bind_eq. destruct (read_text _ s) as [[e|text] s2] eqn:R;
        apply read_text_state in R as ->; now intros [= <- <-]. }
  specialize (Hff _ _ (surjective_pairing (from_file s))).
  destruct (from_file s) as [[e|[c|runs0]] s1]; cbn [fst snd] in Hff.
  - discriminate.
  - unfold ret. intros [= <- <-]. exact Hff.
  - subst s1. destruct (args_auto_detect_runs args).
    + rewrite bind_eq. destruct (detect_run_dirs base s) as [[e|ds] s2]; discriminate.
    + destruct (match args_runs args with Some (r0 :: rs) => r0 :: rs | _ => runs0 end).
      * rewrite bind_eq. unfold print, ret. intros [= <- <-]. cbn.
        split; [reflexivity|]. split; [reflexivity|]. eexists. reflexivity.
      * rewrite bind_eq. unfold get_files.
        destruct (resolve_run_dirs _ _ _ _) as [d|ds]; [|discriminate].
        rewrite bind_eq. unfold print, ret. intros [= <- <-]. cbn.
        split; [reflexivity|]. split; [reflexivity|]. eexists. reflexivity.
Qed.

(** ** The orchestrator: validation and the staging directory *)

Lemma ensure_empty_dir_refuses p s :
  exists_ (files s) p = true ->
  ensure_empty_dir p false s
  = (inl (FileExistsError ("Output directory already exists: " +:+ as_posix p
                           +:+ String LF "Use --force to overwrite.")), s).
Proof.
  intros H. unfold ensure_empty_dir. rewrite bind_eq. unfold get_files.
  rewrite bind_eq, H. reflexivity.
Qed.

(** [main] up to the staging step. *)
Lemma main_validation h args s :
  let base := resolve (cwd h) (expanduser (home h) (args_base args)) in
  let out := resolve (cwd h) (expanduser (home h) (args_out args)) in
  (exists_ (files s) base = false ->
   main h args s
   = (inr 2%Z, mkState (files s)
                 (console s ++ [(Stderr, "ERROR: base does not exist: " +:+ as_posix base)])))
  /\ (exists_ (files s) base = true ->
      forall r s1, determine_run_list h args base s = (r, s1) ->
        match r with
        | inl e => main h args s = (inl e, s1)
        | inr (inl code) => main h args s = (inr code, s1)
        | inr (inr (runs, run_dirs)) =>
            forall e s2, stage_files h out (args_force args) run_dirs s1 = (inl e, s2) ->
              main h args s = (inl e, s2)
        end).
Proof.
  cbn zeta. split.
  - intros H. unfold main. rewrite bind_eq. unfold get_files. now rewrite H.
  - intros H r s1 D. unfold main. rewrite bind_eq. unfold get_files. rewrite H.
    cbn [negb]. rewrite bind_eq, D. destruct r as [e|[code|[runs run_dirs]]]; try reflexivity.
    intros e s2 S. now rewrite bind_eq, S.
Qed.

Lemma main_stops_at_existing_output h args s runs run_dirs s1 :
  let base := resolve (cwd h) (expanduser (home h) (args_base args)) in
  let out := resolve (cwd h) (expanduser (home h) (args_out args)) in
  exists_ (files s) base = true ->
  determine_run_list h args base s = (inr (inr (runs, run_dirs)), s1) ->
  exists_ (files s) out = true ->
  args_force args = false ->
  main h args s
  = (inl (FileExistsError ("Output directory already exists: " +:+ as_posix out
                           +:+ String LF "Use --force to overwrite.")), s1)
  /\ files s1 = files s.
Proof.
  intros base out Hbase D Hout Hforce.
  destruct (determine_run_list_spec _ _ _ _ _ _ D) as (Hfiles & _).
  split; [|exact Hfiles].
  apply (proj2 (main_validation h args s) Hbase _ _ D).
  unfold stage_files. rewrite bind_eq, Hforce.
  rewrite ensure_empty_dir_refuses; [reflexivity|]. fold out. now rewrite Hfiles.
Qed.

(** C1, as the code has it. When the staging directory exists and --force
    is not given, no file is changed, and the program ends either with the
    exit code 2 of an earlier validation or with an exception; when the base
    exists and the run selection is valid, that exception is the
    [FileExistsError] of the check of the staging directory, which nothing
    catches: the exit status is 1. *)
Theorem existing_output_without_force_aborts :
  forall h args s,
    let base := resolve (cwd h) (expanduser (home h) (args_base args)) in
    let out := resolve (cwd h) (expanduser (home h) (args_out args)) in
    exists_ (files s) out = true ->
    args_force args = false ->
    files (snd (main h args s)) = files s
    /\ (fst (main h args s) = inr 2%Z \/ exists e, fst (main h args s) = inl e)
    /\ (exists_ (files s) base = true ->
        forall sel s1,
          determine_run_list h args base s = (inr (inr sel), s1) ->
          fst (main h args s)
          = inl (FileExistsError ("Output directory already exists: " +:+ as_posix out
                                  +:+ String LF "Use --force to overwrite."))
          /\ exit_status (fst (main h args s)) = 1%Z).
Proof.
  intros h args s base out Hout Hforce.
  destruct (main_validation h args s) as [Hno Hyes]. fold base out in Hno, Hyes.
  destruct (exists_ (files s) base) eqn:Hbase.
  - destruct (determine_run_list h args base s) as [r s1] eqn:D.
    destruct (determine_run_list_spec _ _ _ _ _ _ D) as (Hfiles & Hcode & _).
    destruct r as [e|[code|[runs run_dirs]]].
    + rewrite (Hyes eq_refl _ _ eq_refl). cbn.
      split; [exact Hfiles|]. split; [eauto|]. intros _ sel s2 [=].
    + rewrite (Hyes eq_refl _ _ eq_refl). cbn. rewrite (Hcode code eq_refl).
      split; [exact Hfiles|]. split; [auto|]. intros _ sel s2 [=].
    + destruct (main_stops_at_existing_output h args s runs run_dirs s1 Hbase D Hout Hforce)
        as [Hmain _].
      fold out in Hmain. rewrite Hmain. cbn.
      split; [exact Hfiles|]. split; [eauto|]. intros _ sel s2 _. auto.
  - rewrite (Hno eq_refl). cbn. split; [reflexivity|]. split; [auto|]. intros [=].
Qed.

Lemma existing_output_without_force_aborts_witness :
  exists_ (files staged_tree) ["work"; "stage"] = true
  /\ files (snd (main quiet_host scenario_args_no_force staged_tree)) = files staged_tree
  /\ (fst (main quiet_host scenario_args_no_force staged_tree) = inr 2%Z
      \/ exists e, fst (main quiet_host scenario_args_no_force staged_tree) = inl e).
Proof.
  split; [vm_compute; reflexivity|].
  pose proof (existing_output_without_force_aborts quiet_host scenario_args_no_force
                staged_tree) as H.
  cbn zeta in H.
  assert (Hout : resolve (cwd quiet_host)
                   (expanduser (home quiet_host) (args_out scenario_args_no_force))
                 = ["work"; "stage"]) by (vm_compute; reflexivity).
  rewrite Hout in H.
  destruct (H ltac:(vm_compute; reflexivity) eq_refl) as (H1 & H2 & _).
  split; [exact H1|exact H2].
Defined.

(** On the staged scenario without --force the files stay as they are, but
    the status the process ends with is 1, not 2. *)
Lemma existing_output_exit_status_counterexample :
  exists_ (files staged_tree) ["work"; "stage"] = true
  /\ args_force scenario_args_no_force = false
  /\ files (snd (main quiet_host scenario_args_no_force staged_tree)) = files staged_tree
  /\ exit_status (fst (main quiet_host scenario_args_no_force staged_tree)) = 1%Z
  /\ exit_status (fst (main quiet_host scenario_args_no_force staged_tree)) <> 2%Z.
Proof.
  assert (Hout : exists_ (files staged_tree) ["work"; "stage"] = true)
    by (vm_compute; reflexivity).
  assert (Hsel : fst (determine_run_list quiet_host scenario_args_no_force ["work"] staged_tree)
                 = inr (inr (["runA"], [["work"; "runA"]])))
    by (vm_compute; reflexivity).
  pose proof (surjective_pairing
                (determine_run_list quiet_host scenario_args_no_force ["work"] staged_tree)) as D.
  rewrite Hsel in D.
  destruct (main_stops_at_existing_output quiet_host scenario_args_no_force staged_tree
              _ _ _ ltac:(vm_compute; reflexivity) D Hout eq_refl) as [Hmain Hfiles].
  split; [exact Hout|]. split; [reflexivity|].
  rewrite Hmain. cbn [fst snd exit_status].
  split; [exact Hfiles|]. split; [reflexivity|]. discriminate.
Qed.

(** ** Frame facts: what the last steps of [main] leave alone *)

Lemma write_text_success p data s u s' :
  write_text p data s = (inr u, s') ->
  files s' = <[p := File data]> (files s)
  /\ is_dir (files s) (path_parent p) = true
  /\ is_dir (files s) p = false.
Proof.
  unfold write_text. rewrite bind_eq. unfold get_files, is_dir at 2.
  destruct (node_at (files s) (path_parent p)) as [[d|]|]; try discriminate.
  destruct (is_dir (files s) p); [discriminate|].
  unfold put_files. intros H. injection H as _ <-. auto.
Qed.

Lemma write_text_frame p data s u s' q :
  write_text p data s = (inr u, s') -> q <> p -> files s' !! q = files s !! q.
Proof.
  intros H Hq. apply write_text_success in H as (-> & _). now apply lookup_insert_ne.
Qed.

Lemma unlink_frame p s u s' q :
  unlink p s = (inr u, s') -> q <> p -> files s' !! q = files s !! q.
Proof.
  unfold unlink. rewrite bind_eq. unfold get_files.
  destruct (node_at (files s) p) as [[d|]|]; try discriminate.
  unfold put_files. intros H Hq. injection H as _ <-. cbn. now apply lookup_delete_ne.
Qed.

Lemma pack_frame h format staging_root out s u s' q :
  pack h format staging_root out s = (inr u, s') -> q <> out -> files s' !! q = files s !! q.
Proof.
  unfold pack. intros H Hq.
  apply bind_inr in H as (m & s1 & Hm & H). unfold get_files in Hm. injection Hm as <- <-.
  apply bind_inr in H as ([] & s2 & Hu & H).
  apply bind_inr in H as (m2 & s3 & Hm & H). unfold get_files in Hm. injection Hm as <- <-.
  rewrite (write_text_frame _ _ _ _ _ q H Hq).
  destruct (exists_ (files s) out).
  - now apply (unlink_frame out s tt s2).
  - unfold ret in Hu. now injection Hu as <-.
Qed.

Lemma make_archive_frame h staging_root zip_ targz s r s' q :
  make_archive h staging_root zip_ targz s = (inr r, s') ->
  q <> path_parent staging_root ++ [path_name staging_root +:+ ".zip"] ->
  q <> path_parent staging_root ++ [path_name staging_root +:+ ".tar.gz"] ->
  files s' !! q = files s !! q.
Proof.
  unfold make_archive. intros H Hz Ht.
  destruct (negb zip_ && negb targz); [unfold ret in H; now injection H as _ <-|].
  destruct zip_.
  - apply bind_inr in H as ([] & s1 & Hp & H). unfold ret in H. injection H as _ <-.
    now apply (pack_frame _ _ _ _ _ _ _ q Hp).
  - destruct targz; [|unfold ret in H; now injection H as _ <-].
    apply bind_inr in H as ([] & s1 & Hp & H). unfold ret in H. injection H as _ <-.
    now apply (pack_frame _ _ _ _ _ _ _ q Hp).
Qed.

Lemma print_inr st msg s u s' : print st msg s = (inr u, s') -> files s' = files s.
Proof. unfold print. intros H. now injection H as _ <-. Qed.

Lemma string_append_length a b :
  String.length (a +:+ b) = (String.length a + String.length b)%nat.
Proof.
  induction a as [|c a IH]; [reflexivity|].
  change (String c a +:+ b) with (String c (a +:+ b)). cbn. now rewrite IH.
Qed.

(** The archive is a sibling of the staging directory: it is neither a file
    in it nor the directory itself. *)
Lemma archive_not_inside out suffix x :
  x <> suffix ->
  out ++ [x] <> path_parent out ++ [path_name out +:+ suffix].
Proof.
  intros Hx. unfold path_parent, path_name. intros E.
  destruct (decide (out = [])) as [->|Hne].
  - cbn in E. injection E as E. now apply Hx.
  - apply (f_equal (@List.length string)) in E. rewrite !length_app in E. cbn in E.
    rewrite (app_removelast_last "" Hne) in E at 1. rewrite length_app in E. cbn in E. lia.
Qed.

Lemma archive_not_self out suffix :
  suffix <> "" ->
  out <> [] ->
  out <> path_parent out ++ [path_name out +:+ suffix].
Proof.
  intros Hs Hne E. unfold path_parent, path_name in E.
  rewrite (app_removelast_last "" Hne) in E at 1.
  apply app_inj_tail in E as [_ E].
  apply (f_equal String.length) in E. rewrite string_append_length in E.
  destruct suffix; [congruence|cbn in E; lia].
Qed.

Lemma node_at_ext (m1 m2 : gmap path node) q :
  m1 !! q = m2 !! q -> node_at m1 q = node_at m2 q.
Proof. intros H. unfold node_at. now destruct q. Qed.

(** A run of [main] that returns 0: the selection came out, the files were
    staged, and the manifest written from the records of the staging is in
    the staging directory at the end. *)
Lemma main_success h args s s' :
  let base := resolve (cwd h) (expanduser (home h) (args_base args)) in
  let out := resolve (cwd h) (expanduser (home h) (args_out args)) in
  main h args s = (inr 0%Z, s') ->
  exists runs run_dirs s1 copied s2 text,
    determine_run_list h args base s = (inr (inr (runs, run_dirs)), s1)
    /\ stage_files h out (args_force args) run_dirs s1 = (inr copied, s2)
    /\ manifest_text out copied = Some text
    /\ files s' !! (out ++ ["MANIFEST.txt"]) = Some (File text)
    /\ is_dir (files s') out = true.
Proof.
  intros base out H. unfold main in H. fold base out in H.
  apply bind_inr in H as (m & s0 & Hm & H). unfold get_files in Hm. injection Hm as <- <-.
  destruct (negb (exists_ (files s) base)).
  { apply bind_inr in H as (? & ? & _ & H). discriminate H. }
  apply bind_inr in H as (sel & s1 & Hsel & H).
  destruct sel as [code|[runs run_dirs]].
  { destruct (determine_run_list_spec _ _ _ _ _ _ Hsel) as (_ & Hcode & _).
    unfold ret in H. injection H as -> _. now specialize (Hcode _ eq_refl). }
  apply bind_inr in H as (copied & s2 & Hstage & H).
  apply bind_inr in H as ([] & s3 & _ & H).
  apply bind_inr in H as ([] & s4 & Hman & H).
  apply bind_inr in H as ([] & s5 & Hnotes & H).
  apply bind_inr in H as (archive & s6 & Harch & H).
  apply bind_inr in H as ([] & s7 & Hp1 & H).
  apply bind_inr in H as ([] & s8 & Hp2 & H).
  apply bind_inr in H as ([] & s9 & Hp3 & H).
  apply bind_inr in H as ([] & s10 & Hp4 & H).
  unfold ret in H. injection H as <-.
  assert (F7 : files s7 = files s6).
  { destruct archive; [now apply print_inr in Hp1|unfold ret in Hp1; now injection Hp1 as <-]. }
  assert (F10 : files s10 = files s6).
  { destruct (args_env_snapshot args).
    - apply print_inr in Hp4, Hp3, Hp2. congruence.
    - unfold ret in Hp4. injection Hp4 as <-. apply print_inr in Hp3, Hp2. congruence. }
  unfold write_manifest in Hman.
  destruct (manifest_text out copied) as [text|] eqn:Htext; [|discriminate Hman].
  apply write_text_success in Hman as (F4 & Hd4 & _).
  unfold write_notes in Hnotes.
  assert (Hnm : forall x y : string, x <> y -> out ++ [x] <> out ++ [y])
    by (intros x y Hxy E; apply app_inv_head in E; congruence).
  assert (Hself : forall x : string, out <> out ++ [x]).
  { intros x E. apply (f_equal (@List.length string)) in E.
    rewrite length_app in E. cbn in E. lia. }
  assert (Look : forall q,
            q <> out ++ ["PACKAGING_NOTES.txt"] ->
            q <> path_parent out ++ [path_name out +:+ ".zip"] ->
            q <> path_parent out ++ [path_name out +:+ ".tar.gz"] ->
            files s10 !! q = files s4 !! q).
  { intros q H1 H2 H3. rewrite F10.
    rewrite (make_archive_frame _ _ _ _ _ _ _ q Harch H2 H3).
    exact (write_text_frame _ _ _ _ _ q Hnotes H1). }
  exists runs, run_dirs, s1, copied, s2, text.
  split; [exact Hsel|]. split; [exact Hstage|]. split; [exact Htext|].
  split.
  - rewrite Look.
    + rewrite F4. apply lookup_insert_eq.
    + apply Hnm. discriminate.
    + apply archive_not_inside. discriminate.
    + apply archive_not_inside. discriminate.
  - replace (path_parent (out ++ ["MANIFEST.txt"])) with out in Hd4
      by (unfold path_parent; now rewrite removelast_last).
    destruct (decide (out = [])) as [E|Hne]; [now rewrite E|].
    unfold is_dir in *. rewrite (node_at_ext (files s10) (files s4) out).
    + rewrite F4. rewrite (node_at_ext _ (files s3) out); [exact Hd4|].
      apply lookup_insert_ne. intros E. symmetry in E. now apply Hself in E.
    + apply Look; [apply Hself| |]; now apply archive_not_self.
Qed.




(** ** Auto-detection and an explicit list together *)

Lemma determine_run_list_ignores_runs h args runs' base s :
  args_auto_detect_runs args = true ->
  determine_run_list h (with_runs args runs') base s = determine_run_list h args base s.
Proof.
  intros Hauto. unfold determine_run_list. cbn [with_runs args_runs_from_file args_runs
    args_auto_detect_runs]. rewrite Hauto, !bind_eq.
  now destruct (_ s) as [[e|[code|runs0]] s1].
Qed.

Lemma determine_run_list_auto h args base s :
  args_auto_detect_runs args = true ->
  (forall f, args_runs_from_file args = Some f -> nonempty f = true ->
     is_file (files s) (resolve (cwd h) (expanduser (home h) f)) = true) ->
  determine_run_list h args base s
  = bind (detect_run_dirs base) (fun ds => ret (inr (map path_name ds, ds))) s.
Proof.
  intros Hauto Hrf. unfold determine_run_list. rewrite Hauto, bind_eq.
  destruct (args_runs_from_file args) as [f|]; [|reflexivity].
  destruct (nonempty f) eqn:Hf; [|reflexivity].
  specialize (Hrf f eq_refl Hf). rewrite bind_eq. unfold get_files.
  unfold exists_, read_text, is_file in *.
  destruct (node_at (files s) _) as [[data|]|] eqn:E; try discriminate Hrf.
  cbn [negb]. unfold bind, get_files, ret. cbv beta. now rewrite E.
Qed.

(** C3, as the code has it. With the auto-detect switch, the explicit list
    of run names is not used at all, and a run-list file only has to be
    there: the runs staged are those auto-detection returns. A run-list file
    that is named and missing ends the validation with the exit code 2, with
    or without the switch. *)
Theorem auto_detect_overrides_explicit_runs :
  (forall h args runs' s,
     args_auto_detect_runs args = true ->
     main h (with_runs args runs') s = main h args s)
  /\ (forall h args base s,
        args_auto_detect_runs args = true ->
        (forall f, args_runs_from_file args = Some f -> nonempty f = true ->
           is_file (files s) (resolve (cwd h) (expanduser (home h) f)) = true) ->
        determine_run_list h args base s
        = bind (detect_run_dirs base) (fun ds => ret (inr (map path_name ds, ds))) s)
  /\ (forall h args base s f,
        args_runs_from_file args = Some f -> nonempty f = true ->
        exists_ (files s) (resolve (cwd h) (expanduser (home h) f)) = false ->
        fst (determine_run_list h args base s) = inr (inl 2%Z)).
Proof.
  split; [|split; [exact determine_run_list_auto|]].
  2:{ intros h args base s f Hf Hne Hmissing. unfold determine_run_list.
      rewrite Hf, Hne, bind_eq. rewrite bind_eq. unfold get_files. now rewrite Hmissing. }
  intros h args runs' s Hauto. unfold main.
  cbn [with_runs args_base args_out args_force args_env_snapshot args_venv_activate
       args_zip_ args_targz].
  rewrite !bind_eq. unfold get_files.
  destruct (negb (exists_ (files s) _)); [reflexivity|].
  rewrite !bind_eq. now rewrite determine_run_list_ignores_runs.
Qed.

Lemma auto_detect_overrides_explicit_runs_witness :
  args_auto_detect_runs auto_and_runs_args = true
  /\ main quiet_host (with_runs auto_and_runs_args None) two_runs_tree
     = main quiet_host auto_and_runs_args two_runs_tree.
Proof.
  split; [reflexivity|].
  exact (proj1 auto_detect_overrides_explicit_runs quiet_host auto_and_runs_args None
           two_runs_tree eq_refl).
Defined.

(** With both switches and the list naming [runB], the run staged is
    [runA], the one auto-detection finds: [runB] is not staged. *)
Lemma explicit_list_does_not_win_counterexample :
  args_auto_detect_runs auto_and_runs_args = true
  /\ args_runs auto_and_runs_args = Some ["runB"]
  /\ fst (determine_run_list quiet_host auto_and_runs_args ["work"] two_runs_tree)
     = inr (inr (["runA"], [["work"; "runA"]]))
  /\ fst (main quiet_host auto_and_runs_args two_runs_tree) = inr 0%Z
  /\ files (snd (main quiet_host auto_and_runs_args two_runs_tree))
       !! ["work"; "stage"; "runA"; "a.yaml"] = Some (File "a")
  /\ files (snd (main quiet_host auto_and_runs_args two_runs_tree))
       !! ["work"; "stage"; "runB"] = None.
Proof.
  split; [reflexivity|]. split; [reflexivity|].
  split; [vm_compute; reflexivity|].
  split; [vm_compute; reflexivity|].
  split; vm_compute; reflexivity.
Qed.

(** ** Run selection: empty selections *)

(** The one exception of the validation without the auto-detect switch: a
    run-list path that is a directory passes the test [rf.exists()] and makes
    [read_text] raise. *)
Lemma determine_run_list_raises h args base s e s1 :
  args_auto_detect_runs args = false ->
  determine_run_list h args base s = (inl e, s1) ->
  s1 = s
  /\ exists f,
       args_runs_from_file args = Some f /\ nonempty f = true
       /\ is_dir (files s) (resolve (cwd h) (expanduser (home h) f)) = true
       /\ e = IsADirectoryError (as_posix (resolve (cwd h) (expanduser (home h) f))).
Proof.
  intros Hauto. unfold determine_run_list. rewrite Hauto, bind_eq.
  set (from_file := match args_runs_from_file args with Some _ => _ | None => _ end).
  assert (Hff : forall r1 s2, from_file s = (r1, s2) ->
            match r1 with
            | inl e1 =>
                s2 = s
                /\ exists f,
                     args_runs_from_file args = Some f /\ nonempty f = true
                     /\ is_dir (files s) (resolve (cwd h) (expanduser (home h) f)) = true
                     /\ e1 = IsADirectoryError
                               (as_posix (resolve (cwd h) (expanduser (home h) f)))
            | inr _ => True
            end).
  { subst from_file. intros r1 s2.
    destruct (args_runs_from_file args) as [f|]; [|now intros [= <- <-]].
    destruct (nonempty f) eqn:En; [|now intros [= <- <-]].
    rewrite bind_eq. unfold get_files.
    unfold exists_, is_dir, read_text.
    destruct (node_at (files s) _) as [[data|]|] eqn:N; cbn [negb].
    - rewrite bind_eq, bind_eq. unfold get_files. rewrite N. now intros [= <- <-].
    - rewrite bind_eq, bind_eq. unfold get_files. rewrite N. unfold raise.
      intros [= <- <-]. split; [reflexivity|]. exists f. rewrite N. auto.
    - rewrite bind_eq. unfold print, ret. now intros [= <- <-]. }
  specialize (Hff _ _ (surjective_pairing (from_file s))).
  destruct (from_file s) as [[e1|[c|runs0]] s2]; cbn [fst snd] in Hff.
  - intros [= <- <-]. exact Hff.
  - discriminate.
  - destruct (match args_runs args with Some (r0 :: rs) => r0 :: rs | _ => runs0 end).
    + rewrite bind_eq. unfold print, ret. discriminate.
    + rewrite bind_eq. unfold get_files.
      destruct (resolve_run_dirs _ _ _ _); [rewrite bind_eq; unfold print, ret|unfold ret];
        discriminate.
Qed.

Lemma determine_run_list_on_directory h args base s f :
  args_runs_from_file args = Some f -> nonempty f = true ->
  is_dir (files s) (resolve (cwd h) (expanduser (home h) f)) = true ->
  determine_run_list h args base s
  = (inl (IsADirectoryError (as_posix (resolve (cwd h) (expanduser (home h) f)))), s).
Proof.
  intros Ef En Hd. unfold determine_run_list. rewrite Ef, En.
  unfold bind, get_files, exists_, read_text, raise. unfold is_dir in Hd. cbv beta.
  destruct (node_at (files s) _) as [[data|]|] eqn:N; try discriminate Hd.
  cbn [negb]. unfold bind, get_files. cbv beta. now rewrite N.
Qed.

(** C2, as the code has it. Without the auto-detect switch the validation
    leaves the files alone and ends in one of three ways. It gives a
    selection that is not empty, with a directory for every name. Or it
    prints one line starting with [ERROR: ] on the standard error and makes
    [main] return 2. Or it raises, and that only when the run-list path is a
    directory: such a path passes the test [rf.exists()] and makes
    [read_text] raise [IsADirectoryError], with or without the switch;
    [main] does not catch it, so the exit status is 1 and nothing is
    printed. A missing base makes [main] return 2 with the files unchanged.
    With the switch there is no check for emptiness: an empty detection is
    passed on as an empty selection, and a run of [main] that returns 0
    leaves the staging directory in place. *)
Theorem run_selection_nonempty_unless_auto :
  forall h args s,
    let base := resolve (cwd h) (expanduser (home h) (args_base args)) in
    let out := resolve (cwd h) (expanduser (home h) (args_out args)) in
    (args_auto_detect_runs args = false ->
     forall r s1, determine_run_list h args base s = (r, s1) ->
       files s1 = files s
       /\ (forall runs run_dirs, r = inr (inr (runs, run_dirs)) ->
             runs <> [] /\ List.length run_dirs = List.length runs
             /\ Forall (fun d => is_dir (files s) d = true) run_dirs)
       /\ (forall code, r = inr (inl code) ->
             code = 2%Z
             /\ (exists msg, console s1 = console s ++ [(Stderr, "ERROR: " +:+ msg)])
             /\ (exists_ (files s) base = true -> main h args s = (inr 2%Z, s1)))
       /\ (forall e, r = inl e ->
             s1 = s
             /\ (exists f,
                   args_runs_from_file args = Some f /\ nonempty f = true
                   /\ is_dir (files s) (resolve (cwd h) (expanduser (home h) f)) = true
                   /\ e = IsADirectoryError
                            (as_posix (resolve (cwd h) (expanduser (home h) f))))
             /\ (exists_ (files s) base = true ->
                   main h args s = (inl e, s)
                   /\ exit_status (fst (main h args s)) = 1%Z)))
    /\ (forall f, args_runs_from_file args = Some f -> nonempty f = true ->
          is_dir (files s) (resolve (cwd h) (expanduser (home h) f)) = true ->
          determine_run_list h args base s
          = (inl (IsADirectoryError (as_posix (resolve (cwd h) (expanduser (home h) f)))), s))
    /\ (exists_ (files s) base = false ->
        fst (main h args s) = inr 2%Z /\ files (snd (main h args s)) = files s)
    /\ (args_auto_detect_runs args = true ->
        (forall f, args_runs_from_file args = Some f -> nonempty f = true ->
           is_file (files s) (resolve (cwd h) (expanduser (home h) f)) = true) ->
        forall s1, detect_run_dirs base s = (inr [], s1) ->
          determine_run_list h args base s = (inr (inr ([], [])), s1))
    /\ (forall s', main h args s = (inr 0%Z, s') -> is_dir (files s') out = true).
Proof.
  intros h args s base out.
  destruct (main_validation h args s) as [Hno Hyes]. fold base out in Hno, Hyes.
  split; [|split; [|split; [|split]]].
  - intros Hauto r s1 D.
    destruct (determine_run_list_spec _ _ _ _ _ _ D) as (Hfiles & Hcode & Hsel).
    split; [exact Hfiles|]. split; [exact (Hsel Hauto)|]. split.
    + intros code ->. destruct (determine_run_list_error _ _ _ _ _ _ D) as (-> & _ & Hmsg).
      split; [reflexivity|]. split; [exact Hmsg|].
      intros Hbase. exact (Hyes Hbase _ _ D).
    + intros e ->. destruct (determine_run_list_raises _ _ _ _ _ _ Hauto D) as (-> & Hf).
      split; [reflexivity|]. split; [exact Hf|].
      intros Hbase. specialize (Hyes Hbase _ _ D). cbv beta iota in Hyes.
      rewrite Hyes. auto.
  - intros f. apply determine_run_list_on_directory.
  - intros Hbase. rewrite (Hno Hbase). auto.
  - intros Hauto Hrf s1 D. rewrite (determine_run_list_auto _ _ _ _ Hauto Hrf).
    rewrite bind_eq, D. reflexivity.
  - intros s' H. now destruct (main_success h args s s' H) as (? & ? & ? & ? & ? & ? & ? & ? & ? & ? & ?).
Qed.

Lemma run_selection_nonempty_unless_auto_witness :
  args_auto_detect_runs scenario_args = false
  /\ files (snd (determine_run_list quiet_host scenario_args ["work"] scenario_tree))
     = files scenario_tree
  /\ (forall runs run_dirs,
        fst (determine_run_list quiet_host scenario_args ["work"] scenario_tree)
        = inr (inr (runs, run_dirs)) ->
        runs <> [] /\ List.length run_dirs = List.length runs
        /\ Forall (fun d => is_dir (files scenario_tree) d = true) run_dirs).
Proof.
  split; [reflexivity|].
  pose proof (proj1 (run_selection_nonempty_unless_auto quiet_host scenario_args scenario_tree)
                eq_refl _ _ (surjective_pairing _)) as (H1 & H2 & _).
  split; [exact H1|exact H2].
Defined.

(** With the auto-detect switch on a base that holds no run, the selection
    is empty, and [main] still creates the staging directory and returns 0. *)
Lemma empty_auto_detection_counterexample :
  args_auto_detect_runs auto_args = true
  /\ fst (determine_run_list quiet_host auto_args ["work"] empty_base) = inr (inr ([], []))
  /\ files empty_base !! ["work"; "stage"] = None
  /\ fst (main quiet_host auto_args empty_base) = inr 0%Z
  /\ files (snd (main quiet_host auto_args empty_base)) !! ["work"; "stage"] = Some Dir.
Proof.
  split; [reflexivity|].
  split; [vm_compute; reflexivity|].
  split; [vm_compute; reflexivity|].
  split; vm_compute; reflexivity.
Qed.

(** A run-list path that is a directory: no ERROR line, no exit code 2; the
    exception of [read_text] ends the process with status 1, the files
    untouched. *)
Example runs_from_directory_raises :
  main quiet_host runs_from_directory_args scenario_tree
  = (inl (IsADirectoryError "/work/runA"), scenario_tree)
  /\ exit_status (fst (main quiet_host runs_from_directory_args scenario_tree)) = 1%Z.
Proof. split; vm_compute; reflexivity. Qed.

(** ** What the manifest lists *)

Lemma relative_to_spec : forall p base r, relative_to p base = Some r -> p = base ++ r.
Proof.
  intros p base; revert p. induction base as [|b base IH]; intros [|x p] r H; cbn in H;
    try discriminate; try (injection H as <-; reflexivity).
  destruct (String.eqb_spec x b) as [->|]; [|discriminate].
  cbn. now rewrite (IH _ _ H).
Qed.

Lemma for_each_inv {A S} (P : S -> Prop) (l : list A) (body : A -> S -> M S) :
  (forall x acc s r s', In x l -> P acc -> body x acc s = (inr r, s') -> P r) ->
  forall acc s r s', P acc -> for_each l body acc s = (inr r, s') -> P r.
Proof.
  induction l as [|x l IH]; intros Hbody acc s r s' Hacc H.
  - cbn in H. unfold ret in H. now injection H as <- _.
  - cbn [for_each] in H. apply bind_inr in H as (acc1 & s1 & Hx & H).
    eapply IH; [|eapply Hbody; [now left|exact Hacc|exact Hx]|exact H].
    intros y acc2 s2 r2 s2' Hy. apply Hbody. now right.
Qed.

Lemma iter_run_files_strictly_below (m : gmap path node) d p :
  In p (iter_run_files m d) -> exists rel, relative_to p d = Some rel /\ rel <> [].
Proof.
  unfold iter_run_files, descendants. destruct (is_dir m d); [|intros []].
  intros Hp. apply filter_In in Hp as [Hp _]. apply filter_In in Hp as [_ Hp].
  apply andb_true_iff in Hp as [Hpre Hne].
  destruct (is_prefix_relative_to _ _ Hpre) as [rel Hrel]. exists rel. split; [exact Hrel|].
  intros ->. apply relative_to_spec in Hrel. rewrite app_nil_r in Hrel.
  apply negb_true_iff in Hne. unfold path_eqb in Hne.
  apply bool_decide_eq_false in Hne. contradiction.
Qed.

Lemma copy_run_dir_records incl excl run_dir out run_dirs copied s r s' :
  In run_dir run_dirs ->
  Forall (staged_dst out run_dirs) copied ->
  copy_run_dir_with incl excl run_dir out copied s = (inr r, s') ->
  Forall (staged_dst out run_dirs) r.
Proof.
  intros Hin Hc H. unfold copy_run_dir_with in H.
  apply bind_inr in H as ([] & s1 & _ & H).
  apply bind_inr in H as (m & s2 & Hm & H). unfold get_files in Hm. injection Hm as <- <-.
  revert H. apply for_each_inv; [|exact Hc].
  intros f acc s2 r2 s2' Hf Hacc Hbody. unfold copy_run_file in Hbody.
  destruct (matches_any f excl); [unfold ret in Hbody; now injection Hbody as <- _|].
  destruct (matches_any f incl); [|unfold ret in Hbody; now injection Hbody as <- _].
  apply iter_run_files_strictly_below in Hf as (rel & Hrel & Hne). rewrite Hrel in Hbody.
  apply bind_inr in Hbody as (c & s3 & Hcopy & Hbody).
  unfold ret in Hbody. injection Hbody as <- _.
  apply copy_file_record in Hcopy as [Hsrc Hdst].
  apply Forall_app. split; [exact Hacc|]. constructor; [|constructor].
  left. exists run_dir, rel. split; [exact Hin|]. split; [exact Hne|].
  split; [rewrite Hsrc; now apply relative_to_spec|].
  rewrite Hdst, <- app_assoc. reflexivity.
Qed.

Lemma copy_explicit_file_records h out run_dirs p copied s r s' :
  Forall (staged_dst out run_dirs) copied ->
  copy_explicit_file h out p copied s = (inr r, s') ->
  Forall (staged_dst out run_dirs) r.
Proof.
  intros Hc H. unfold copy_explicit_file in H.
  apply bind_inr in H as (m & s1 & _ & H).
  destruct (negb (exists_ m _) || negb (is_file m _)).
  - apply bind_inr in H as ([] & s2 & _ & H). unfold ret in H. now injection H as <- _.
  - apply bind_inr in H as (c & s2 & Hcopy & H). unfold ret in H. injection H as <- _.
    apply copy_file_record in Hcopy as [_ Hdst].
    apply Forall_app. split; [exact Hc|]. constructor; [|constructor].
    right. rewrite Hdst. destruct (String.eqb _ ".bash_aliases"); eauto.
Qed.

Lemma stage_files_records h out force run_dirs s copied s' :
  stage_files h out force run_dirs s = (inr copied, s') ->
  Forall (staged_dst out run_dirs) copied.
Proof.
  unfold stage_files. intros H.
  apply bind_inr in H as ([] & s1 & _ & H).
  apply bind_inr in H as (c1 & s2 & Hruns & H).
  revert H. apply for_each_inv.
  - intros p acc s3 r s3' _. apply copy_explicit_file_records.
  - revert Hruns. apply for_each_inv; [|constructor].
    intros d acc s3 r s3' Hd Hacc. unfold copy_run_dir.
    now apply copy_run_dir_records.
Qed.

Lemma is_prefix_app (a x y : path) : is_prefix (a ++ x) (a ++ y) = is_prefix x y.
Proof.
  induction a as [|c a IH]; [reflexivity|]. cbn. now rewrite String.eqb_refl, IH.
Qed.

(** A staged record is never the manifest or the notes, and lies below
    [tools/env] only when a run directory is itself called [tools]. *)
Lemma staged_dst_not_generated out run_dirs c :
  staged_dst out run_dirs c ->
  dst c <> out ++ ["MANIFEST.txt"]
  /\ dst c <> out ++ ["PACKAGING_NOTES.txt"]
  /\ (is_prefix (out ++ ["tools"; "env"]) (dst c) = true ->
      exists d, In d run_dirs /\ path_name d = "tools").
Proof.
  intros [(d & rel & Hd & Hne & _ & ->)|[->|[name ->]]].
  - split; [|split].
    + intros E. apply app_inv_head in E. destruct rel; [congruence|discriminate E].
    + intros E. apply app_inv_head in E. destruct rel; [congruence|discriminate E].
    + rewrite is_prefix_app. cbn [is_prefix]. intros H. apply andb_true_iff in H as [H _].
      apply String.eqb_eq in H. eauto.
  - split; [|split].
    + intros E. apply app_inv_head in E. discriminate E.
    + intros E. apply app_inv_head in E. discriminate E.
    + rewrite is_prefix_app. intros H. discriminate H.
  - split; [|split].
    + intros E. apply app_inv_head in E. discriminate E.
    + intros E. apply app_inv_head in E. discriminate E.
    + rewrite is_prefix_app. intros H. discriminate H.
Qed.




(** ** The end-to-end scenario *)

(** With [runA] holding [chain.1.txt], [config.yaml] and [ignore.log], the
    invocation [--runs runA --out stage --force] stages the first two, leaves
    the log out, and lists exactly the two in the manifest with their sizes
    and digests. *)
Example end_to_end_scenario :
  fst (main quiet_host scenario_args scenario_tree) = inr 0%Z
  /\ files staged_tree !! ["work"; "stage"; "runA"; "chain.1.txt"] = Some (File "1 2 3")
  /\ files staged_tree !! ["work"; "stage"; "runA"; "config.yaml"] = Some (File "theory: x")
  /\ files staged_tree !! ["work"; "stage"; "runA"; "ignore.log"] = None
  /\ files staged_tree !! ["work"; "stage"; "MANIFEST.txt"]
     = Some (File (join nl ["Total files: 2";
                            "Total bytes: 14";
                            "";
                            "sha256  bytes  path";
                            SHA256.hexdigest "1 2 3" +:+ "  5  runA/chain.1.txt";
                            SHA256.hexdigest "theory: x" +:+ "  9  runA/config.yaml"]
                    +:+ nl)).
Proof.
  split; [vm_compute; reflexivity|].
  split; [vm_compute; reflexivity|].
  split; [vm_compute; reflexivity|].
  split; vm_compute; reflexivity.
Qed.

(** ** The include and exclude patterns *)

Lemma tokenize_plain lit :
  all_chars plain lit = true ->
  tokenize None (list_ascii_of_string lit) = map TLit (list_ascii_of_string lit).
Proof.
  induction lit as [|c lit IH]; [reflexivity|].
  cbn [all_chars]. intros H. apply andb_true_iff in H as [Hc Hl].
  unfold plain in Hc. apply negb_true_iff in Hc.
  apply orb_false_iff in Hc as [Hc H3]. apply orb_false_iff in Hc as [H1 H2].
  cbn [list_ascii_of_string tokenize map]. rewrite H3. unfold simple_token.
  rewrite H1, H2, (IH Hl). reflexivity.
Qed.

Lemma match_lits lit s :
  match_tokens (map TLit (list_ascii_of_string lit)) (list_ascii_of_string s)
  = String.eqb s lit.
Proof.
  revert s. induction lit as [|x lit IH]; intros [|c s]; try reflexivity.
  cbn [list_ascii_of_string map match_tokens String.eqb]. rewrite IH.
  unfold ascii_eqb. rewrite (Ascii.eqb_sym x c).
  destruct (Ascii.eqb c x); reflexivity.
Qed.

Lemma match_star ts s :
  match_tokens (TStar :: ts) s
  = match_tokens ts s || match s with [] => false | _ :: s' => match_tokens (TStar :: ts) s' end.
Proof. destruct s; reflexivity. Qed.

Lemma match_star_lits lit s :
  match_tokens (TStar :: map TLit (list_ascii_of_string lit)) (list_ascii_of_string s)
  = endswith s lit.
Proof.
  induction s as [|c s IH]; rewrite match_star, match_lits; [reflexivity|].
  cbn [list_ascii_of_string endswith]. now rewrite IH.
Qed.

Lemma match_only_star s : match_tokens [TStar] s = true.
Proof.
  induction s as [|c s IH]; [reflexivity|].
  rewrite match_star, IH. apply orb_true_r.
Qed.

Lemma match_lits_star lit s :
  match_tokens (map TLit (list_ascii_of_string lit) ++ [TStar]) (list_ascii_of_string s)
  = startswith s lit.
Proof.
  unfold startswith. revert s. induction lit as [|x lit IH]; intros s.
  - cbn [list_ascii_of_string map app strip_prefix]. apply match_only_star.
  - destruct s as [|c s]; [reflexivity|].
    cbn [list_ascii_of_string map app match_tokens strip_prefix].
    destruct (ascii_eqb x c); [apply IH|reflexivity].
Qed.

Lemma list_ascii_app a b :
  list_ascii_of_string (a +:+ b) = list_ascii_of_string a ++ list_ascii_of_string b.
Proof.
  induction a as [|c a IH]; [reflexivity|].
  change (String c a +:+ b) with (String c (a +:+ b)). cbn. now rewrite IH.
Qed.

Lemma tokenize_plain_app lit rest :
  all_chars plain lit = true ->
  tokenize None (list_ascii_of_string lit ++ rest)
  = map TLit (list_ascii_of_string lit) ++ tokenize None rest.
Proof.
  induction lit as [|c lit IH]; [reflexivity|].
  cbn [all_chars]. intros H. apply andb_true_iff in H as [Hc Hl].
  unfold plain in Hc. apply negb_true_iff in Hc.
  apply orb_false_iff in Hc as [Hc H3]. apply orb_false_iff in Hc as [H1 H2].
  cbn [list_ascii_of_string tokenize map app]. rewrite H3. unfold simple_token.
  rewrite H1, H2, (IH Hl). reflexivity.
Qed.

(** A pattern [*lit] with [lit] free of wildcard characters matches the
    names that end in [lit]. *)
Lemma fnmatch_suffix name lit :
  all_chars plain lit = true ->
  fnmatch name (String "*" lit) = endswith name lit.
Proof.
  intros H. unfold fnmatch. cbn [list_ascii_of_string tokenize].
  change (ascii_eqb "*" "[") with false. cbn iota.
  change (simple_token "*") with TStar.
  rewrite (tokenize_plain _ H). apply match_star_lits.
Qed.

(** A pattern [lit*] matches the names that start with [lit]. *)
Lemma fnmatch_prefix name lit :
  all_chars plain lit = true ->
  fnmatch name (lit +:+ "*") = startswith name lit.
Proof.
  intros H. unfold fnmatch. rewrite list_ascii_app, (tokenize_plain_app _ _ H).
  apply match_lits_star.
Qed.

Lemma eqb_with_slash a b ext :
  no_slash ext = true -> String.eqb (a +:+ String "/" b) ext = false.
Proof.
  intros H. destruct (String.eqb_spec (a +:+ String "/" b) ext) as [E|]; [|reflexivity].
  subst ext. exfalso. induction a as [|c a IH].
  - discriminate H.
  - change (String c a +:+ String "/" b) with (String c (a +:+ String "/" b)) in H.
    unfold no_slash in H. cbn [all_chars] in H. apply andb_true_iff in H as [_ H]. auto.
Qed.

Lemma endswith_after_slash a b ext :
  no_slash ext = true -> endswith (a +:+ String "/" b) ext = endswith b ext.
Proof.
  intros H. induction a as [|c a IH].
  - pose proof (eqb_with_slash "" b ext H) as E.
    change ("" +:+ String "/" b) with (String "/" b) in *. cbn [endswith].
    now rewrite E.
  - pose proof (eqb_with_slash (String c a) b ext H) as E.
    change (String c a +:+ String "/" b) with (String c (a +:+ String "/" b)) in *.
    cbn [endswith]. now rewrite E, IH.
Qed.

Lemma endswith_join p ext :
  no_slash ext = true -> endswith (join "/" p) ext = endswith (path_name p) ext.
Proof.
  intros H. unfold path_name. induction p as [|a [|b p] IH]; [reflexivity|reflexivity|].
  change (join "/" (a :: b :: p)) with (a +:+ "/" +:+ join "/" (b :: p)).
  change (a +:+ "/" +:+ join "/" (b :: p)) with (a +:+ String "/" (join "/" (b :: p))).
  rewrite (endswith_after_slash _ _ _ H). exact IH.
Qed.

(** The suffix test gives the same answer on the full path as on the name. *)
Lemma endswith_as_posix p ext :
  no_slash ext = true -> endswith (as_posix p) ext = endswith (path_name p) ext.
Proof.
  intros H. unfold as_posix.
  change ("/" +:+ join "/" p) with ("" +:+ String "/" (join "/" p)).
  rewrite (endswith_after_slash _ _ _ H). now apply endswith_join.
Qed.

Lemma endswith_spec s suf : endswith s suf = true <-> exists pre, s = pre +:+ suf.
Proof.
  split.
  - induction s as [|c s IH]; cbn [endswith]; intros H.
    + rewrite orb_false_r in H. apply String.eqb_eq in H as <-. now exists "".
    + apply orb_true_iff in H as [H|H].
      * apply String.eqb_eq in H as <-. now exists "".
      * destruct (IH H) as [pre ->]. now exists (String c pre).
  - intros [pre ->]. induction pre as [|c pre IH].
    + change ("" +:+ suf) with suf.
      destruct suf; cbn [endswith]; rewrite String.eqb_refl; reflexivity.
    + change (String c pre +:+ suf) with (String c (pre +:+ suf)).
      cbn [endswith]. rewrite IH. apply orb_true_r.
Qed.

Lemma existsb_same {A} (f g : A -> bool) l :
  (forall x, In x l -> f x = g x) -> existsb f l = existsb g l.
Proof.
  induction l as [|x l IH]; intros H; [reflexivity|].
  cbn [existsb]. rewrite (H x) by now left.
  rewrite IH; [reflexivity|]. intros y Hy. apply H. now right.
Qed.

Lemma existsb_suffix_patterns x sufs :
  Forall (fun suf => all_chars plain suf = true) sufs ->
  existsb (fun pat => fnmatch x pat) (map (String "*") sufs) = existsb (endswith x) sufs.
Proof.
  induction 1 as [|suf sufs Hs _ IH]; [reflexivity|].
  cbn [map existsb]. now rewrite (fnmatch_suffix _ _ Hs), IH.
Qed.

Lemma startswith_slash name lit r :
  strip_prefix (lit +:+ "/") name = Some r -> contains "/" name = true.
Proof.
  intros H. apply strip_prefix_spec in H. subst name. unfold contains.
  induction lit as [|c lit IH].
  - change (("" +:+ "/") +:+ r) with (String "/" r). cbn [find_first strip_prefix].
    change (ascii_eqb "/" "/") with true. reflexivity.
  - change ((String c lit +:+ "/") +:+ r) with (String c ((lit +:+ "/") +:+ r)).
    cbn [find_first]. destruct (strip_prefix "/" _); [reflexivity|].
    destruct (find_first "/" ((lit +:+ "/") +:+ r)) as [[a b]|]; [reflexivity|discriminate].
Qed.

(** X1. For a path whose last component holds no slash, [matches_any] with
    [EXCLUDE_PATTERNS] is a test on the ending of the file name: it holds
    exactly when the name ends in one of the sixteen extensions. The two
    directory patterns, [__pycache__/*] and [.ipynb_checkpoints/*], exclude
    nothing: they are matched against the name, which has no slash, and
    against the absolute path, which starts with one. *)
Theorem exclude_patterns_test_the_suffix :
  forall p,
    contains "/" (path_name p) = false ->
    matches_any p EXCLUDE_PATTERNS = existsb (endswith (path_name p)) EXCLUDED_SUFFIXES.
Proof.
  intros p Hname.
  assert (Hpats : EXCLUDE_PATTERNS
                  = map (String "*") EXCLUDED_SUFFIXES ++ ["__pycache__/*"; ".ipynb_checkpoints/*"])
    by reflexivity.
  assert (Hplain : Forall (fun suf => all_chars plain suf = true) EXCLUDED_SUFFIXES)
    by (repeat constructor).
  assert (Hdir : forall x,
            existsb (fun pat => fnmatch x pat) ["__pycache__/*"; ".ipynb_checkpoints/*"]
            = startswith x "__pycache__/" || startswith x ".ipynb_checkpoints/").
  { intros x. cbn [existsb]. rewrite orb_false_r.
    pose proof (fnmatch_prefix x "__pycache__/" eq_refl) as E1.
    pose proof (fnmatch_prefix x ".ipynb_checkpoints/" eq_refl) as E2.
    change ("__pycache__/" +:+ "*") with "__pycache__/*" in E1.
    change (".ipynb_checkpoints/" +:+ "*") with ".ipynb_checkpoints/*" in E2.
    now rewrite E1, E2. }
  unfold matches_any. rewrite Hpats, !existsb_app, !existsb_suffix_patterns, !Hdir by exact Hplain.
  assert (Hn : startswith (path_name p) "__pycache__/" = false
               /\ startswith (path_name p) ".ipynb_checkpoints/" = false).
  { split; unfold startswith.
    - destruct (strip_prefix "__pycache__/" (path_name p)) as [r|] eqn:E; [|reflexivity].
      apply (startswith_slash _ "__pycache__") in E. congruence.
    - destruct (strip_prefix ".ipynb_checkpoints/" (path_name p)) as [r|] eqn:E; [|reflexivity].
      apply (startswith_slash _ ".ipynb_checkpoints") in E. congruence. }
  destruct Hn as [-> ->].
  change (startswith (as_posix p) "__pycache__/") with false.
  change (startswith (as_posix p) ".ipynb_checkpoints/") with false.
  rewrite !orb_false_r.
  rewrite (existsb_same (endswith (as_posix p)) (endswith (path_name p))).
  - now destruct (existsb _ _).
  - intros ext Hext. apply endswith_as_posix.
    unfold EXCLUDED_SUFFIXES in Hext. cbn [In] in Hext.
    repeat (destruct Hext as [<-|Hext]; [reflexivity|]). destruct Hext.
Qed.

Lemma exclude_patterns_test_the_suffix_witness :
  matches_any ["work"; "runA"; "__pycache__"; "cached.yaml"] EXCLUDE_PATTERNS = false.
Proof.
  rewrite (exclude_patterns_test_the_suffix ["work"; "runA"; "__pycache__"; "cached.yaml"]);
    reflexivity.
Defined.

Lemma endswith_longer x a b : endswith x (a +:+ b) = true -> endswith x b = true.
Proof.
  intros H. apply endswith_spec in H as [pre ->]. apply endswith_spec.
  exists (pre +:+ a). clear. induction pre as [|c pre IH]; [reflexivity|].
  change (String c pre +:+ a +:+ b) with (String c (pre +:+ a +:+ b)).
  change ((String c pre +:+ a) +:+ b) with (String c ((pre +:+ a) +:+ b)).
  now rewrite IH.
Qed.

(** X2. [matches_any] with [INCLUDE_PATTERNS] holds exactly when the file name
    ends in [.yaml], [.paramnames], [.covmat], [.progress], [.checkpoint] or
    [.txt]; the patterns [*.input.yaml], [*.updated.yaml], [*.A.txt] and
    [*.B.txt] add nothing to [*.yaml] and [*.txt]. *)
Theorem include_patterns_test_the_suffix :
  forall p, matches_any p INCLUDE_PATTERNS = existsb (endswith (path_name p)) INCLUDED_SUFFIXES.
Proof.
  intros p.
  set (sufs := [".yaml"; ".input.yaml"; ".updated.yaml"; ".paramnames"; ".covmat";
                ".progress"; ".checkpoint"; ".txt"; ".A.txt"; ".B.txt"]).
  assert (Hpats : INCLUDE_PATTERNS = map (String "*") sufs) by reflexivity.
  assert (Hplain : Forall (fun suf => all_chars plain suf = true) sufs)
    by (repeat constructor).
  assert (Hsame : existsb (endswith (as_posix p)) sufs = existsb (endswith (path_name p)) sufs).
  { apply existsb_same. intros ext Hext. apply endswith_as_posix.
    subst sufs. cbn [In] in Hext.
    repeat (destruct Hext as [<-|Hext]; [reflexivity|]). destruct Hext. }
  unfold matches_any. rewrite Hpats, !existsb_suffix_patterns, Hsame by exact Hplain.
  assert (Hred : existsb (endswith (path_name p)) sufs
                 = existsb (endswith (path_name p)) INCLUDED_SUFFIXES).
  { subst sufs. unfold INCLUDED_SUFFIXES. cbn [existsb].
    pose proof (endswith_longer (path_name p) ".input" ".yaml") as H1.
    pose proof (endswith_longer (path_name p) ".updated" ".yaml") as H2.
    pose proof (endswith_longer (path_name p) ".A" ".txt") as H3.
    pose proof (endswith_longer (path_name p) ".B" ".txt") as H4.
    change (".input" +:+ ".yaml") with ".input.yaml" in H1.
    change (".updated" +:+ ".yaml") with ".updated.yaml" in H2.
    change (".A" +:+ ".txt") with ".A.txt" in H3.
    change (".B" +:+ ".txt") with ".B.txt" in H4.
    destruct (endswith (path_name p) ".input.yaml");
      [rewrite (H1 eq_refl); cbn [orb]; reflexivity|].
    destruct (endswith (path_name p) ".updated.yaml");
      [rewrite (H2 eq_refl); cbn [orb]; reflexivity|].
    destruct (endswith (path_name p) ".A.txt");
      [rewrite (H3 eq_refl); cbn [orb]; rewrite ?orb_true_r; reflexivity|].
    destruct (endswith (path_name p) ".B.txt");
      [rewrite (H4 eq_refl); cbn [orb]; rewrite ?orb_true_r; reflexivity|].
    reflexivity. }
  rewrite Hred.
  destruct (existsb (endswith (path_name p)) INCLUDED_SUFFIXES); reflexivity.
Qed.

(** ** What an operation may change *)

Lemma is_prefix_spec q p : is_prefix q p = true <-> exists r, p = q ++ r.
Proof.
  split.
  - intros H. apply is_prefix_relative_to in H as [rel H].
    apply relative_to_spec in H. eauto.
  - intros [r ->]. induction q as [|x q IH]; [reflexivity|].
    cbn. now rewrite String.eqb_refl, IH.
Qed.

Lemma is_prefix_refl p : is_prefix p p = true.
Proof. apply is_prefix_spec. exists []. now rewrite app_nil_r. Qed.

Lemma is_prefix_trans a b c :
  is_prefix a b = true -> is_prefix b c = true -> is_prefix a c = true.
Proof.
  rewrite !is_prefix_spec. intros [r ->] [r' ->]. exists (r ++ r'). now rewrite app_assoc.
Qed.

Lemma firstn_is_prefix n (p : path) : is_prefix (firstn n p) p = true.
Proof.
  apply is_prefix_spec. exists (skipn n p). now rewrite firstn_skipn.
Qed.

Lemma prefixes_spec p q : In q (prefixes p) <-> q <> [] /\ is_prefix q p = true.
Proof.
  unfold prefixes. rewrite in_map_iff. split.
  - intros (n & <- & Hn). apply in_seq in Hn. split; [|apply firstn_is_prefix].
    destruct p as [|x p]; [cbn in Hn; lia|]. destruct n; [lia|discriminate].
  - intros [Hne H]. apply is_prefix_spec in H as [r ->].
    exists (List.length q). split.
    + now rewrite firstn_app, Nat.sub_diag, firstn_all, firstn_O, app_nil_r.
    + apply in_seq. rewrite length_app. destruct q; [congruence|cbn; lia].
Qed.

(** A prefix of a path that goes through [out] is above [out] or in it. *)
Lemma is_prefix_through out x q :
  is_prefix q (out ++ x) = true -> around out q.
Proof.
  unfold around. revert q. induction out as [|a out IH]; intros q H; [now left|].
  destruct q as [|b q]; [now right|].
  cbn in H. apply andb_true_iff in H as [Hab H]. apply String.eqb_eq in Hab as ->.
  destruct (IH _ H) as [H'|H']; [left|right]; cbn; now rewrite String.eqb_refl.
Qed.

Lemma around_below out x : around out (out ++ x).
Proof. left. apply is_prefix_spec. eauto. Qed.

Lemma around_self out : around out out.
Proof. left. apply is_prefix_refl. Qed.

Lemma only_changes_refl P s : only_changes P s s.
Proof. now intros q _. Qed.

Lemma only_changes_trans P s1 s2 s3 :
  only_changes P s1 s2 -> only_changes P s2 s3 -> only_changes P s1 s3.
Proof. intros H1 H2 q Hq. now rewrite (H2 q Hq), (H1 q Hq). Qed.

Lemma touches_weaken {A} (P Q : path -> Prop) (m : M A) :
  (forall q, P q -> Q q) -> touches P m -> touches Q m.
Proof. intros HPQ H s r s' E q Hq. apply (H _ _ _ E). auto. Qed.

Lemma touches_ret {A} P (a : A) : touches P (ret a).
Proof. intros s r s' [= <- <-]. apply only_changes_refl. Qed.

Lemma touches_raise {A} P e : touches P (@raise A e).
Proof. intros s r s' [= <- <-]. apply only_changes_refl. Qed.

Lemma touches_get P : touches P get_files.
Proof. intros s r s' [= <- <-]. apply only_changes_refl. Qed.

Lemma touches_print P st msg : touches P (print st msg).
Proof. intros s r s' [= <- <-] q _. reflexivity. Qed.

Lemma touches_bind {A B} P (m : M A) (f : A -> M B) :
  touches P m -> (forall a, touches P (f a)) -> touches P (bind m f).
Proof.
  intros Hm Hf s r s' E. unfold bind in E.
  destruct (m s) as [[e|a] s1] eqn:E1.
  - injection E as <- <-. exact (Hm _ _ _ E1).
  - eapply only_changes_trans; [exact (Hm _ _ _ E1)|exact (Hf a _ _ _ E)].
Qed.

Lemma touches_catch {A} P (m : M A) (h : exn -> M A) :
  touches P m -> (forall e, touches P (h e)) -> touches P (catch m h).
Proof.
  intros Hm Hh s r s' E. unfold catch in E.
  destruct (m s) as [[e|a] s1] eqn:E1.
  - eapply only_changes_trans; [exact (Hm _ _ _ E1)|exact (Hh e _ _ _ E)].
  - injection E as <- <-. exact (Hm _ _ _ E1).
Qed.

Lemma touches_for_each {A S} P (l : list A) (body : A -> S -> M S) :
  (forall x acc, In x l -> touches P (body x acc)) ->
  forall acc, touches P (for_each l body acc).
Proof.
  induction l as [|x l IH]; intros H acc; cbn [for_each]; [apply touches_ret|].
  apply touches_bind; [apply H; now left|].
  intros acc'. apply IH. intros y a Hy. apply H. now right.
Qed.

Lemma touches_put (P : path -> Prop) (m : gmap path node) :
  forall s r s', put_files m s = (r, s') ->
    (forall q, ~ P q -> m !! q = files s !! q) -> only_changes P s s'.
Proof. intros s r s' [= <- <-] H q Hq. cbn. now apply H. Qed.

Lemma lookup_mkdirs (m : gmap path node) l q :
  (In q l -> fold_right (fun q m' => <[q := Dir]> m') m l !! q = Some Dir)
  /\ (~ In q l -> fold_right (fun q m' => <[q := Dir]> m') m l !! q = m !! q).
Proof.
  induction l as [|x l [IH1 IH2]]; [split; [intros []|reflexivity]|].
  cbn [fold_right]. destruct (decide (x = q)) as [->|Hne].
  - rewrite lookup_insert_eq. split; [reflexivity|]. intros H. exfalso. apply H. now left.
  - rewrite lookup_insert_ne by exact Hne. split.
    + intros [?|H]; [congruence|auto].
    + intros H. apply IH2. intros H'. apply H. now right.
Qed.

Lemma prefixes_last p : p <> [] -> prefixes p = removelast (prefixes p) ++ [p].
Proof.
  intros Hne. unfold prefixes.
  destruct (List.length p) as [|n] eqn:E; [destruct p; [congruence|discriminate]|].
  rewrite seq_S, map_app. cbn [map]. rewrite removelast_last.
  f_equal. f_equal. change (1 + n)%nat with (S n). rewrite <- E. apply firstn_all.
Qed.

(** What [mkdir_p] does when it returns: the prefixes of the path, none of
    which was a file, are directories, and nothing else has changed. *)
Lemma mkdir_p_effect p s u s' :
  mkdir_p p s = (inr u, s') ->
  console s' = console s
  /\ (forall q, In q (prefixes p) -> is_file (files s) q = false)
  /\ (forall q, In q (prefixes p) -> files s' !! q = Some Dir)
  /\ (forall q, ~ In q (prefixes p) -> files s' !! q = files s !! q).
Proof.
  unfold mkdir_p. rewrite bind_eq. unfold get_files.
  destruct (List.find _ _) as [x|] eqn:F; [discriminate|].
  destruct (is_file (files s) p) eqn:Fp; [discriminate|].
  unfold put_files. intros [= _ <-]. cbn [files console].
  split; [reflexivity|]. split; [|split; intros q; apply lookup_mkdirs].
  intros q Hq. destruct (decide (p = [])) as [->|Hne]; [destruct Hq|].
  rewrite (prefixes_last p Hne) in Hq. apply in_app_or in Hq as [Hq|[<-|[]]]; [|exact Fp].
  exact (find_none _ _ F q Hq).
Qed.

Lemma touches_mkdir_p p : touches (fun q => In q (prefixes p)) (mkdir_p p).
Proof.
  intros s r s' E. unfold mkdir_p in E. rewrite bind_eq in E. unfold get_files in E.
  destruct (List.find _ _); [injection E as <- <-; apply only_changes_refl|].
  destruct (is_file (files s) p); [injection E as <- <-; apply only_changes_refl|].
  eapply touches_put; [exact E|]. intros q Hq. now apply lookup_mkdirs.
Qed.

Lemma touches_rmtree p : touches (fun q => is_prefix p q = true) (rmtree p).
Proof.
  intros s r s' E. unfold rmtree in E. rewrite bind_eq in E. unfold get_files in E.
  destruct (node_at (files s) p) as [[d|]|];
    try (injection E as <- <-; apply only_changes_refl).
  eapply touches_put; [exact E|]. intros q Hq.
  destruct (files s !! q) as [n|] eqn:L.
  - apply map_lookup_filter_Some. split; [exact L|]. cbn. now destruct (is_prefix p q).
  - apply map_lookup_filter_None. left. exact L.
Qed.

Lemma touches_write_text p data : touches (fun q => q = p) (write_text p data).
Proof.
  intros s r s' E. unfold write_text in E. rewrite bind_eq in E. unfold get_files in E.
  destruct (node_at (files s) (path_parent p)) as [[d|]|];
    try (injection E as <- <-; apply only_changes_refl).
  destruct (is_dir (files s) p); [injection E as <- <-; apply only_changes_refl|].
  eapply touches_put; [exact E|]. intros q Hq. apply lookup_insert_ne. congruence.
Qed.

Lemma touches_unlink p : touches (fun q => q = p) (unlink p).
Proof.
  intros s r s' E. unfold unlink in E. rewrite bind_eq in E. unfold get_files in E.
  destruct (node_at (files s) p) as [[d|]|];
    try (injection E as <- <-; apply only_changes_refl).
  eapply touches_put; [exact E|]. intros q Hq. apply lookup_delete_ne. congruence.
Qed.

Lemma touches_read_text P p : touches P (read_text p).
Proof. intros s r s' E. apply read_text_state in E as ->. apply only_changes_refl. Qed.

Lemma touches_stat_size P p : touches P (stat_size p).
Proof.
  intros s r s' E. unfold stat_size in E. rewrite bind_eq in E. unfold get_files in E.
  destruct (node_at (files s) p) as [[d|]|]; injection E as <- <-; apply only_changes_refl.
Qed.

Lemma removelast_is_prefix (p : path) : is_prefix (removelast p) p = true.
Proof.
  apply is_prefix_spec. destruct (decide (p = [])) as [->|Hne]; [now exists []|].
  exists [List.last p ""]. now apply app_removelast_last.
Qed.

Lemma prefixes_around out x q : In q (prefixes (out ++ x)) -> around out q.
Proof. intros H. apply prefixes_spec in H as [_ H]. exact (is_prefix_through _ _ _ H). Qed.

Lemma prefixes_parent_around out x q :
  In q (prefixes (path_parent (out ++ x))) -> around out q.
Proof.
  intros H. apply prefixes_spec in H as [_ H].
  apply (is_prefix_through out x).
  exact (is_prefix_trans _ _ _ H (removelast_is_prefix _)).
Qed.

Lemma touches_mkdir_around out x : touches (around out) (mkdir_p (out ++ x)).
Proof. eapply touches_weaken; [|apply touches_mkdir_p]. apply prefixes_around. Qed.

Lemma touches_write_around out x data : touches (around out) (write_text (out ++ x) data).
Proof.
  eapply touches_weaken; [|apply touches_write_text]. intros q ->. apply around_below.
Qed.

Ltac touch :=
  repeat match goal with
    | |- touches _ (ret _) => apply touches_ret
    | |- touches _ (raise _) => apply touches_raise
    | |- touches _ get_files => apply touches_get
    | |- touches _ (print _ _) => apply touches_print
    | |- touches _ (read_text _) => apply touches_read_text
    | |- touches _ (stat_size _) => apply touches_stat_size
    | |- touches (around ?out) (mkdir_p (?out ++ _)) => apply touches_mkdir_around
    | |- touches (around ?out) (write_text (?out ++ _) _) => apply touches_write_around
    | |- touches _ (bind _ _) => apply touches_bind; [|intros ?]
    | |- touches _ (catch _ _) => apply touches_catch; [|intros ?]
    | |- touches _ (if ?b then _ else _) => destruct b
    | |- touches _ (match ?x with _ => _ end) => destruct x
    end.

Lemma touches_copy2 a b :
  touches (fun q => q = b \/ q = b ++ [path_name a]) (copy2 a b).
Proof.
  unfold copy2. apply touches_bind; [apply touches_get|]. intros m.
  destruct (path_eqb a _); [apply touches_raise|].
  apply touches_bind; [apply touches_read_text|]. intros data.
  eapply touches_weaken; [|apply touches_write_text].
  intros q ->. destruct (is_dir m b); auto.
Qed.

Lemma touches_copy_file out x a : touches (around out) (copy_file a (out ++ x)).
Proof.
  unfold copy_file, sha256_file. touch.
  - eapply touches_weaken; [|apply touches_mkdir_p]. apply prefixes_parent_around.
  - eapply touches_weaken; [|apply touches_copy2].
    intros q [->| ->]; [|rewrite <- app_assoc]; apply around_below.
Qed.

Lemma touches_ensure_empty_dir out force : touches (around out) (ensure_empty_dir out force).
Proof.
  unfold ensure_empty_dir. touch.
  - eapply touches_weaken; [|apply touches_rmtree]. intros q H. now left.
  - eapply touches_weaken; [|apply touches_mkdir_p].
    intros q H. apply prefixes_spec in H as [_ H]. now right.
Qed.

Lemma touches_copy_run_dir incl excl d out copied :
  touches (around out) (copy_run_dir_with incl excl d out copied).
Proof.
  unfold copy_run_dir_with. touch.
  apply touches_for_each. intros f acc _. unfold copy_run_file. touch.
  rewrite <- app_assoc. apply touches_copy_file.
Qed.

Lemma touches_copy_explicit_file h out p copied :
  touches (around out) (copy_explicit_file h out p copied).
Proof.
  unfold copy_explicit_file. touch.
  destruct (String.eqb _ ".bash_aliases"); apply touches_copy_file.
Qed.

Lemma touches_stage_files h out force run_dirs :
  touches (around out) (stage_files h out force run_dirs).
Proof.
  unfold stage_files. touch.
  - apply touches_ensure_empty_dir.
  - apply touches_for_each. intros d acc _. apply touches_copy_run_dir.
  - apply touches_for_each. intros p acc _. apply touches_copy_explicit_file.
Qed.

Lemma touches_run_bash_to_file h cmd out x venv :
  touches (around out) (run_bash_to_file h cmd (out ++ x) venv).
Proof.
  unfold run_bash_to_file. touch.
  eapply touches_weaken; [|apply touches_mkdir_p]. apply prefixes_parent_around.
Qed.

Lemma touches_write_class_fingerprint c out x :
  touches (around out) (_write_class_fingerprint c (out ++ x)).
Proof. unfold _write_class_fingerprint. touch. Qed.

Lemma touches_capture_env_snapshot h out venv :
  touches (around out) (capture_env_snapshot h out venv).
Proof.
  unfold capture_env_snapshot. cbv zeta. rewrite <- !app_assoc.
  touch; first [apply touches_run_bash_to_file | apply touches_write_class_fingerprint].
Qed.

Lemma touches_unchanged {A} P (m : M A) :
  (forall s r s', m s = (r, s') -> files s' = files s) -> touches P m.
Proof. intros H s r s' E q _. now rewrite (H _ _ _ E). Qed.

Lemma touches_determine_run_list P h args base : touches P (determine_run_list h args base).
Proof.
  apply touches_unchanged. intros s r s' E.
  now destruct (determine_run_list_spec _ _ _ _ _ _ E).
Qed.

Lemma touches_pack h format staging_root out :
  touches (fun q => q = out) (pack h format staging_root out).
Proof. unfold pack. touch; first [apply touches_unlink | apply touches_write_text]. Qed.

Lemma touches_make_archive h out zip_ targz :
  touches (fun q => q = path_parent out ++ [path_name out +:+ ".zip"]
                    \/ q = path_parent out ++ [path_name out +:+ ".tar.gz"])
          (make_archive h out zip_ targz).
Proof.
  unfold make_archive. touch;
    (eapply touches_weaken; [|apply touches_pack]); cbv beta; intros q ->; auto.
Qed.

Lemma touches_write_manifest out copied : touches (around out) (write_manifest out copied).
Proof. unfold write_manifest. touch. Qed.

Lemma touches_write_notes out base runs flag :
  touches (around out) (write_notes out base runs flag).
Proof. unfold write_notes. cbv zeta. touch. Qed.

(** ** The staging directory *)

Lemma well_formed_spec (m : gmap path node) :
  well_formed m = true <-> forall q, is_Some (m !! q) -> is_dir m (path_parent q) = true.
Proof.
  unfold well_formed. rewrite forallb_forall. split; intros H q Hq; apply H.
  - now apply entries_spec.
  - now apply entries_spec in Hq.
Qed.

Lemma is_dir_lookup (m : gmap path node) q :
  is_dir m q = true -> q = [] \/ m !! q = Some Dir.
Proof.
  unfold is_dir, node_at. destruct q; [now left|].
  destruct (m !! _) as [[|]|]; try discriminate. now right.
Qed.

(** In a well-formed tree, what lies above an entry is a directory. *)
Lemma above_entry_is_dir (m : gmap path node) p r :
  well_formed m = true -> r <> [] -> is_Some (m !! (p ++ r)) -> is_dir m p = true.
Proof.
  intros Hwf. induction r as [|x r IH] using rev_ind; [congruence|]. intros _ Hq.
  apply (proj1 (well_formed_spec m) Hwf) in Hq.
  rewrite app_assoc in Hq. unfold path_parent in Hq. rewrite removelast_last in Hq.
  destruct (decide (r = [])) as [->|Hr]; [now rewrite app_nil_r in Hq|].
  apply IH; [exact Hr|].
  apply is_dir_lookup in Hq as [Hq|Hq]; [|exists Dir; exact Hq].
  apply app_eq_nil in Hq as [_ Hq]. contradiction.
Qed.

Lemma descendants_spec (m : gmap path node) d q :
  In q (descendants m d) <-> is_Some (m !! q) /\ is_prefix d q = true /\ q <> d.
Proof.
  unfold descendants. rewrite filter_In, entries_spec, andb_true_iff, negb_true_iff.
  unfold path_eqb. rewrite bool_decide_eq_false. tauto.
Qed.

Lemma no_descendants (m : gmap path node) d :
  (forall q, is_prefix d q = true -> q <> d -> m !! q = None) -> descendants m d = [].
Proof.
  intros H. destruct (descendants m d) as [|q l] eqn:E; [reflexivity|].
  assert (Hq : In q (descendants m d)) by (rewrite E; now left).
  apply descendants_spec in Hq as ([n Hn] & Hp & Hne). rewrite (H q Hp Hne) in Hn. discriminate.
Qed.

Lemma missing_has_no_descendants (m : gmap path node) d q :
  well_formed m = true -> exists_ m d = false ->
  is_prefix d q = true -> q <> d -> m !! q = None.
Proof.
  intros Hwf Hd Hp Hne. apply is_prefix_spec in Hp as [r ->].
  destruct (m !! (d ++ r)) as [n|] eqn:E; [|exact E].
  assert (Hr : r <> []) by (intros ->; now rewrite app_nil_r in Hne).
  pose proof (above_entry_is_dir m d r Hwf Hr (ex_intro _ n E)) as Hdir.
  unfold exists_, is_dir in *. destruct (node_at m d); discriminate.
Qed.

Lemma in_removelast {A} (x : A) l : In x (removelast l) -> In x l.
Proof.
  induction l as [|y [|z l] IH]; cbn; [tauto|tauto|].
  intros [?|H]; [now left|right; now apply IH].
Qed.

Lemma mkdir_p_ok p s :
  (forall q, is_prefix q p = true -> is_file (files s) q = false) ->
  exists s', mkdir_p p s = (inr tt, s').
Proof.
  intros H. unfold mkdir_p. rewrite bind_eq. unfold get_files.
  destruct (List.find _ _) as [x|] eqn:F.
  - apply find_some in F as [Hx Fx]. apply in_removelast, prefixes_spec in Hx as [_ Hx].
    rewrite (H x Hx) in Fx. discriminate.
  - rewrite (H p (is_prefix_refl p)). unfold put_files. eauto.
Qed.

Lemma rmtree_dir p s :
  is_dir (files s) p = true ->
  rmtree p s
  = (inr tt, mkState (filter (fun kv => is_prefix p (fst kv) = false) (files s)) (console s)).
Proof.
  intros H. unfold rmtree. rewrite bind_eq. unfold get_files, is_dir in *.
  now destruct (node_at (files s) p) as [[d|]|].
Qed.

Lemma lookup_after_rmtree (m : gmap path node) p q :
  filter (fun kv : path * node => is_prefix p (fst kv) = false) m !! q
  = if is_prefix p q then None else m !! q.
Proof.
  destruct (is_prefix p q) eqn:E.
  - apply map_lookup_filter_None. right. intros n _. cbn. congruence.
  - destruct (m !! q) as [n|] eqn:L.
    + apply map_lookup_filter_Some. auto.
    + apply map_lookup_filter_None. now left.
Qed.

Lemma root_is_not_file (m : gmap path node) : is_file m [] = false.
Proof. reflexivity. Qed.

Lemma is_file_filter (m : gmap path node) p q :
  is_file m q = false ->
  is_file (filter (fun kv : path * node => is_prefix p (fst kv) = false) m) q = false.
Proof.
  unfold is_file, node_at. destruct q as [|x q]; [reflexivity|].
  rewrite lookup_after_rmtree. now destruct (is_prefix p (x :: q)).
Qed.

Lemma is_prefix_antisym p q : is_prefix p q = true -> is_prefix q p = true -> p = q.
Proof.
  rewrite !is_prefix_spec. intros [r ->] [r' H].
  rewrite <- app_assoc in H. rewrite <- (app_nil_r p) in H at 1.
  apply app_inv_head in H. symmetry in H. apply app_eq_nil in H as [-> _].
  now rewrite app_nil_r.
Qed.

Lemma no_file_above (m : gmap path node) (p : path) :
  forallb (fun q => negb (is_file m q)) (prefixes p) = true ->
  forall q, is_prefix q p = true -> is_file m q = false.
Proof.
  intros H q Hq. destruct q as [|x q]; [reflexivity|].
  rewrite forallb_forall in H. apply negb_true_iff, H, prefixes_spec.
  split; [discriminate|exact Hq].
Qed.

(** X3. In a well-formed tree where no directory on the way to [p] is a
    regular file, [ensure_empty_dir] returns when [p] does not exist, or when
    it is a directory and --force is given; [p] is then a directory with
    nothing in it, nothing is printed, and no path outside [p] and off the way
    to [p] has changed. *)
Theorem ensure_empty_dir_gives_empty_directory :
  forall p force s,
    well_formed (files s) = true ->
    exists_ (files s) p = false \/ (force = true /\ is_dir (files s) p = true) ->
    (forall q, is_prefix q p = true -> is_file (files s) q = false) ->
    exists s',
      ensure_empty_dir p force s = (inr tt, s')
      /\ is_dir (files s') p = true
      /\ descendants (files s') p = []
      /\ console s' = console s
      /\ (forall q, is_prefix p q = false -> is_prefix q p = false ->
            files s' !! q = files s !! q).
Proof.
  intros p force s Hwf Hcase Hup.
  set (s1 := if exists_ (files s) p
             then mkState (filter (fun kv => is_prefix p (fst kv) = false) (files s)) (console s)
             else s).
  assert (H1 : (if exists_ (files s) p
                then if negb force
                     then raise (FileExistsError ("Output directory already exists: "
                                   +:+ as_posix p +:+ String LF "Use --force to overwrite."))
                     else rmtree p
                else ret tt) s = (inr tt, s1)).
  { subst s1. destruct Hcase as [Hno|[-> Hdir]].
    - now rewrite Hno.
    - assert (exists_ (files s) p = true) as ->
        by (unfold exists_, is_dir in *; now destruct (node_at (files s) p)).
      cbn [negb]. now apply rmtree_dir. }
  assert (Hc1 : console s1 = console s) by (subst s1; now destruct (exists_ (files s) p)).
  assert (Hgone : forall q, is_prefix p q = true -> q <> p -> files s1 !! q = None).
  { intros q Hq Hne. subst s1. destruct (exists_ (files s) p) eqn:Hex.
    - cbn [files]. rewrite lookup_after_rmtree. now rewrite Hq.
    - now apply (missing_has_no_descendants _ p). }
  assert (Hout : forall q, is_prefix p q = false -> files s1 !! q = files s !! q).
  { intros q Hq. subst s1. destruct (exists_ (files s) p); [|reflexivity].
    cbn [files]. rewrite lookup_after_rmtree. now rewrite Hq. }
  assert (Hup1 : forall q, is_prefix q p = true -> is_file (files s1) q = false).
  { intros q Hq. subst s1. destruct (exists_ (files s) p); [|now apply Hup].
    cbn [files]. apply is_file_filter. now apply Hup. }
  destruct (mkdir_p_ok p s1 Hup1) as [s' Hmk].
  exists s'. split.
  { unfold ensure_empty_dir. rewrite bind_eq. unfold get_files.
    rewrite bind_eq, H1. exact Hmk. }
  destruct (mkdir_p_effect _ _ _ _ Hmk) as (Hc & _ & Hin & Hnot).
  split; [|split; [|split; [congruence|]]].
  - destruct (decide (p = [])) as [->|Hne]; [reflexivity|].
    unfold is_dir, node_at. destruct p as [|x p]; [congruence|].
    rewrite Hin; [reflexivity|]. apply prefixes_spec. split; [discriminate|apply is_prefix_refl].
  - apply no_descendants. intros q Hq Hne. rewrite Hnot; [now apply Hgone|].
    intros Hpre. apply prefixes_spec in Hpre as [_ Hpre]. apply Hne.
    symmetry. now apply is_prefix_antisym.
  - intros q Hq1 Hq2. rewrite Hnot; [now apply Hout|].
    intros Hpre. apply prefixes_spec in Hpre as [_ Hpre]. congruence.
Qed.

Lemma ensure_empty_dir_gives_empty_directory_witness :
  exists s',
    ensure_empty_dir ["work"; "runA"] true scenario_tree = (inr tt, s')
    /\ is_dir (files s') ["work"; "runA"] = true
    /\ descendants (files s') ["work"; "runA"] = [].
Proof.
  destruct (ensure_empty_dir_gives_empty_directory ["work"; "runA"] true scenario_tree)
    as (s' & H1 & H2 & H3 & _).
  - reflexivity.
  - right. split; reflexivity.
  - intros q Hq. destruct q as [|a [|b [|c q]]]; cbn [is_prefix] in Hq.
    + reflexivity.
    + apply andb_true_iff in Hq as [Ha _]. apply String.eqb_eq in Ha as ->. reflexivity.
    + apply andb_true_iff in Hq as [Ha Hb]. apply andb_true_iff in Hb as [Hb _].
      apply String.eqb_eq in Ha as ->. apply String.eqb_eq in Hb as ->. reflexivity.
    + apply andb_true_iff in Hq as [_ Hb]. apply andb_true_iff in Hb as [_ Hb].
      discriminate Hb.
  - exists s'. auto.
Defined.

(** X4. With --force, a regular file in the place of the staging directory
    is not replaced: [shutil.rmtree] raises [NotADirectoryError], and the
    files are as before. *)
Theorem ensure_empty_dir_refuses_regular_file :
  forall p s,
    is_file (files s) p = true ->
    exists msg, ensure_empty_dir p true s = (inl (NotADirectoryError msg), s).
Proof.
  intros p s H. unfold ensure_empty_dir. rewrite bind_eq. unfold get_files.
  assert (exists_ (files s) p = true) as ->
    by (unfold exists_, is_file in *; now destruct (node_at (files s) p)).
  cbn [negb]. rewrite bind_eq. unfold rmtree. rewrite bind_eq. unfold get_files.
  unfold is_file in H. destruct (node_at (files s) p) as [[d|]|]; try discriminate.
  unfold raise. eauto.
Qed.

Lemma ensure_empty_dir_refuses_regular_file_witness :
  exists msg,
    ensure_empty_dir ["work"; "runA"; "ignore.log"] true scenario_tree
    = (inl (NotADirectoryError msg), scenario_tree).
Proof.
  apply (ensure_empty_dir_refuses_regular_file ["work"; "runA"; "ignore.log"] scenario_tree).
  reflexivity.
Defined.

(** ** Copying a file, and its digest *)

(** What [copy_file] does when it returns. *)
Lemma copy_file_effect a b s c s' :
  copy_file a b s = (inr c, s') ->
  exists data,
    files s !! a = Some (File data)
    /\ files s' !! b = Some (File data)
    /\ c = mkCopiedFile a b (len data) (SHA256.hexdigest data)
    /\ a <> b
    /\ console s' = console s
    /\ (forall q, In q (prefixes (path_parent b)) ->
          is_file (files s) q = false /\ files s' !! q = Some Dir)
    /\ (forall q, q <> b -> ~ In q (prefixes (path_parent b)) ->
          files s' !! q = files s !! q).
Proof.
  unfold copy_file. intros H.
  apply bind_inr in H as ([] & s1 & Hmk & H).
  apply bind_inr in H as ([] & s2 & Hcp & H).
  apply bind_inr in H as (sz & s3 & Hsz & H).
  apply bind_inr in H as (dg & s4 & Hdg & H).
  apply stat_size_inr in Hsz as (-> & data & Hdata & ->).
  unfold sha256_file in Hdg. apply bind_inr in Hdg as (data' & s5 & Hr & Hdg).
  apply read_text_inr in Hr as (-> & Hdata').
  unfold ret in Hdg, H. injection Hdg as <- <-. injection H as <- <-.
  rewrite Hdata in Hdata'. injection Hdata' as <-.
  destruct (mkdir_p_effect _ _ _ _ Hmk) as (Hc1 & Hnf & Hin & Hnot).
  unfold copy2 in Hcp. apply bind_inr in Hcp as (m & s1' & Hm & Hcp).
  unfold get_files in Hm. injection Hm as <- <-.
  destruct (is_dir (files s1) b) eqn:Hdir.
  { (* the copy went into the directory [b], and [b] is no file afterwards *)
    destruct (path_eqb a (b ++ [path_name a])); [discriminate Hcp|].
    apply bind_inr in Hcp as (d & s1' & Hr & Hw).
    apply read_text_inr in Hr as (-> & _).
    apply write_text_success in Hw as (Hw & _).
    exfalso. unfold is_dir in Hdir. unfold node_at in *. destruct b as [|x b]; [discriminate|].
    rewrite Hw, lookup_insert_ne in Hdata.
    - rewrite Hdata in Hdir. discriminate.
    - intros E. apply (f_equal (@List.length string)) in E.
      rewrite length_app in E. cbn in E. lia. }
  destruct (path_eqb a b) eqn:Hab; [discriminate Hcp|].
  unfold path_eqb in Hab. apply bool_decide_eq_false in Hab.
  apply bind_inr in Hcp as (d & s1' & Hr & Hw).
  apply read_text_inr in Hr as (-> & Hsrc).
  apply write_text_inr in Hw as (Hw & Hc2).
  assert (Hb : files s2 !! b = Some (File d)) by (rewrite Hw; apply lookup_insert_eq).
  assert (d = data) as ->.
  { unfold node_at in Hdata. destruct b; [discriminate|]. congruence. }
  assert (Ha1 : files s1 !! a = Some (File data)).
  { unfold node_at in Hsrc. now destruct a. }
  exists data. split.
  { rewrite <- Hnot; [exact Ha1|]. intros Hin'. rewrite (Hin _ Hin') in Ha1. discriminate. }
  split; [exact Hb|]. split; [reflexivity|]. split; [exact Hab|]. split; [congruence|].
  split.
  - intros q Hq. split; [now apply Hnf|]. rewrite Hw, lookup_insert_ne; [now apply Hin|].
    intros E. subst q. apply prefixes_spec in Hq as [Hne Hq].
    pose proof (is_prefix_antisym _ _ Hq (removelast_is_prefix b)) as E.
    unfold path_parent in E, Hne.
    assert (Hb0 : b <> []) by (intros ->; now apply Hne).
    rewrite (app_removelast_last "" Hb0) in E at 1.
    apply (f_equal (@List.length string)) in E. rewrite length_app in E. cbn in E. lia.
  - intros q Hq1 Hq2. rewrite Hw, lookup_insert_ne by congruence. now apply Hnot.
Qed.

(** X5. When [copy_file] returns, the destination holds the bytes the source
    held, the source is unchanged and is another path than the destination,
    and the record carries the two paths, the length of these bytes and their
    SHA-256 digest. *)
Theorem copy_file_copies_the_bytes :
  forall a b s c s',
    copy_file a b s = (inr c, s') ->
    exists data,
      files s !! a = Some (File data)
      /\ files s' !! a = Some (File data)
      /\ files s' !! b = Some (File data)
      /\ c = mkCopiedFile a b (len data) (SHA256.hexdigest data)
      /\ a <> b.
Proof.
  intros a b s c s' H.
  destruct (copy_file_effect _ _ _ _ _ H) as (data & Ha & Hb & Hc & Hab & _ & Hin & Hnot).
  exists data. split; [exact Ha|]. split; [|auto].
  rewrite Hnot; [exact Ha|exact Hab|].
  intros Hq. destruct (Hin a Hq) as [Hf _]. apply prefixes_spec in Hq as [Hne _].
  unfold is_file, node_at in Hf. destruct a; [congruence|]. now rewrite Ha in Hf.
Qed.

Lemma copy_file_copies_the_bytes_witness :
  files (snd (copy_file ["work"; "runA"; "chain.1.txt"] ["work"; "stage"; "c.txt"]
                scenario_tree))
    !! ["work"; "stage"; "c.txt"]
  = Some (File "1 2 3").
Proof.
  assert (Hfst : fst (copy_file ["work"; "runA"; "chain.1.txt"] ["work"; "stage"; "c.txt"]
                        scenario_tree)
                 = inr (mkCopiedFile ["work"; "runA"; "chain.1.txt"] ["work"; "stage"; "c.txt"]
                          5 (SHA256.hexdigest "1 2 3")))
    by (vm_compute; reflexivity).
  pose proof (surjective_pairing
                (copy_file ["work"; "runA"; "chain.1.txt"] ["work"; "stage"; "c.txt"]
                   scenario_tree)) as H.
  rewrite Hfst in H.
  destruct (copy_file_copies_the_bytes _ _ _ _ _ H) as (data & Ha & _ & Hb & _).
  vm_compute in Ha. injection Ha as <-. exact Hb.
Defined.

Lemma round_length st kw : List.length (SHA256.round st kw) = List.length st.
Proof.
  unfold SHA256.round.
  destruct st as [|a [|b [|c [|d [|e [|f [|g [|h [|i st]]]]]]]]]; reflexivity.
Qed.

Lemma rounds_length kws : forall st,
  List.length (fold_left SHA256.round kws st) = List.length st.
Proof.
  induction kws as [|kw kws IH]; intros st; [reflexivity|].
  cbn [fold_left]. now rewrite IH, round_length.
Qed.

Lemma compress_length h block : List.length (SHA256.compress h block) = List.length h.
Proof.
  unfold SHA256.compress. rewrite length_map, length_combine, rounds_length. lia.
Qed.

Lemma compress_all_length bs : forall h,
  List.length (fold_left SHA256.compress bs h) = List.length h.
Proof.
  induction bs as [|b bs IH]; intros h; [reflexivity|].
  cbn [fold_left]. now rewrite IH, compress_length.
Qed.

Lemma be_bytes_spec n x :
  List.length (SHA256.be_bytes n x) = n
  /\ Forall (fun b => (b < 256)%N) (SHA256.be_bytes n x).
Proof.
  revert x. induction n as [|n IH]; intros x; cbn [SHA256.be_bytes].
  - split; [reflexivity|constructor].
  - destruct (IH (N.shiftr x 8)) as [Hl Hb]. split.
    + rewrite length_app, Hl. cbn. lia.
    + apply Forall_app. split; [exact Hb|]. constructor; [|constructor].
      apply N.mod_lt. discriminate.
Qed.

Lemma digest_spec msg :
  List.length (SHA256.digest msg) = 32%nat
  /\ Forall (fun b => (b < 256)%N) (SHA256.digest msg).
Proof.
  unfold SHA256.digest.
  set (ws := fold_left SHA256.compress _ SHA256.H0).
  assert (Hws : List.length ws = 8%nat) by (subst ws; now rewrite compress_all_length).
  clearbody ws. split.
  - destruct ws as [|a [|b [|c [|d [|e [|f [|g [|h [|i ws]]]]]]]]]; try discriminate Hws.
    cbn [map concat]. rewrite !length_app, !(proj1 (be_bytes_spec 4 _)). reflexivity.
  - clear Hws. induction ws as [|w ws IH]; [constructor|].
    cbn [map concat]. apply Forall_app. split; [apply be_bytes_spec|exact IH].
Qed.

Lemma hex_digit_is_lower_hex n : (n < 16)%N -> is_lower_hex (SHA256.hex_digit n) = true.
Proof.
  intros H.
  assert (Hn : In n [0; 1; 2; 3; 4; 5; 6; 7; 8; 9; 10; 11; 12; 13; 14; 15]%N).
  { cbn [In]. lia. }
  cbn [In] in Hn.
  repeat (destruct Hn as [<-|Hn]; [reflexivity|]). destruct Hn.
Qed.

Lemma hex_spec bytes :
  Forall (fun b => (b < 256)%N) bytes ->
  String.length (SHA256.hex bytes) = (2 * List.length bytes)%nat
  /\ all_chars is_lower_hex (SHA256.hex bytes) = true.
Proof.
  unfold SHA256.hex. induction 1 as [|b bytes Hb _ [IH1 IH2]]; [split; reflexivity|].
  cbn [map concat app string_of_list_ascii String.length all_chars List.length].
  rewrite IH1, IH2. split; [lia|].
  rewrite !hex_digit_is_lower_hex; [reflexivity| |].
  - apply N.mod_lt. discriminate.
  - apply N.Div0.div_lt_upper_bound. exact Hb.
Qed.

Lemma hexdigest_shape data :
  String.length (SHA256.hexdigest data) = 64%nat
  /\ all_chars is_lower_hex (SHA256.hexdigest data) = true.
Proof.
  unfold SHA256.hexdigest.
  destruct (digest_spec (map N_of_ascii (list_ascii_of_string data))) as [Hl Hb].
  destruct (hex_spec _ Hb) as [H1 H2]. rewrite H1, Hl. auto.
Qed.

(** X6. [sha256_file] changes nothing, and the digest it returns for a file is
    the SHA-256 of its content written as 64 lower-case hexadecimal digits. *)
Theorem sha256_file_gives_64_hex_digits :
  forall p s d s',
    sha256_file p s = (inr d, s') ->
    s' = s
    /\ String.length d = 64%nat
    /\ all_chars is_lower_hex d = true
    /\ exists data, node_at (files s) p = Some (File data) /\ d = SHA256.hexdigest data.
Proof.
  intros p s d s' H. unfold sha256_file in H.
  apply bind_inr in H as (data & s1 & Hr & H). injection H as <- <-.
  apply read_text_inr in Hr as [-> Hdata].
  destruct (hexdigest_shape data). eauto 6.
Qed.

Lemma sha256_file_gives_64_hex_digits_witness :
  String.length (SHA256.hexdigest "1 2 3") = 64%nat
  /\ all_chars is_lower_hex (SHA256.hexdigest "1 2 3") = true.
Proof.
  destruct (sha256_file_gives_64_hex_digits ["work"; "runA"; "chain.1.txt"] scenario_tree
              (SHA256.hexdigest "1 2 3") scenario_tree) as (_ & H1 & H2 & _).
  - vm_compute. reflexivity.
  - split; assumption.
Defined.

(** ** Copying a run directory *)

Lemma copy_run_file_step incl excl run_dir D f rel copied t r t' :
  relative_to f run_dir = Some rel ->
  copy_run_file incl excl run_dir D f copied t = (inr r, t') ->
  (selected incl excl f = false /\ r = copied /\ t' = t)
  \/ (selected incl excl f = true
      /\ exists c, r = copied ++ [c] /\ copy_file f (D ++ rel) t = (inr c, t')).
Proof.
  intros Hrel H. unfold copy_run_file in H. unfold selected.
  destruct (matches_any f excl); [left; injection H as <- <-; auto|].
  destruct (matches_any f incl); [|left; injection H as <- <-; auto].
  rewrite Hrel in H. apply bind_inr in H as (c & s1 & Hc & H). injection H as <- <-.
  right. eauto.
Qed.

Lemma copy_loop_exact incl excl run_dir D fs :
  forall copied t r t',
    (forall f, In f fs -> exists rel, relative_to f run_dir = Some rel) ->
    for_each fs (copy_run_file incl excl run_dir D) copied t = (inr r, t') ->
    exists new,
      r = copied ++ new
      /\ map src new = List.filter (selected incl excl) fs
      /\ Forall (fun c => exists rel, src c = run_dir ++ rel /\ dst c = D ++ rel) new.
Proof.
  induction fs as [|f fs IH]; intros copied t r t' Hfs H.
  - injection H as <- <-. exists []. now rewrite app_nil_r.
  - cbn [for_each] in H. apply bind_inr in H as (c1 & t1 & Hf & H).
    destruct (Hfs f (or_introl eq_refl)) as [rel Hrel].
    apply IH in H as (new & -> & Hsrc & Hnew); [|intros g Hg; apply Hfs; now right].
    cbn [List.filter].
    destruct (copy_run_file_step _ _ _ _ _ _ _ _ _ _ Hrel Hf)
      as [(-> & -> & ->)|(-> & c & -> & Hc)].
    + exists new. auto.
    + exists (c :: new). rewrite <- app_assoc. split; [reflexivity|].
      apply copy_file_record in Hc as [Hs Hd]. split.
      * cbn [map]. now rewrite Hs, Hsrc.
      * constructor; [|exact Hnew]. exists rel. rewrite Hs, Hd.
        split; [now apply relative_to_spec|reflexivity].
Qed.

Lemma iter_run_files_relative (m : gmap path node) d f :
  In f (iter_run_files m d) -> exists rel, relative_to f d = Some rel.
Proof. intros H. apply iter_run_files_strictly_below in H as (rel & H & _). eauto. Qed.

Lemma in_prefixes_dec (q p : path) : {In q (prefixes p)} + {~ In q (prefixes p)}.
Proof. apply List.in_dec. intros x y. exact (decide (x = y)). Qed.

Lemma app_not_prefix (D rel : path) : rel <> [] -> is_prefix (D ++ rel) D = false.
Proof.
  intros Hrel. destruct (is_prefix (D ++ rel) D) eqn:E; [|reflexivity].
  apply is_prefix_spec in E as [r E]. rewrite <- app_assoc in E.
  rewrite <- (app_nil_r D) in E at 1. apply app_inv_head in E.
  symmetry in E. apply app_eq_nil in E as [-> _]. congruence.
Qed.

Lemma copy_loop_faithful incl excl run_dir D fs :
  forall copied t r t',
    List.NoDup fs ->
    (forall f, In f fs ->
       is_prefix D f = false /\ exists rel, relative_to f run_dir = Some rel /\ rel <> []) ->
    (forall q : path, q <> [] -> is_prefix q D = true -> files t !! q = Some Dir) ->
    for_each fs (copy_run_file incl excl run_dir D) copied t = (inr r, t') ->
    exists new,
      r = copied ++ new
      /\ (forall q : path, is_prefix D q = false -> files t' !! q = files t !! q)
      /\ Forall (fun c => In (src c) fs
                          /\ exists data,
                               files t !! src c = Some (File data)
                               /\ files t' !! dst c = Some (File data)
                               /\ size c = len data
                               /\ sha256 c = SHA256.hexdigest data) new
      /\ (forall (q : path) data,
            files t !! q = Some (File data) ->
            (forall f rel, In f fs -> relative_to f run_dir = Some rel -> q <> D ++ rel) ->
            files t' !! q = Some (File data)).
Proof.
  induction fs as [|f fs IH]; intros copied t r t' Hnd Hfs Hup H.
  - injection H as <- <-. exists []. rewrite app_nil_r. auto.
  - cbn [for_each] in H. apply bind_inr in H as (c1 & t1 & Hf & H).
    destruct (Hfs f (or_introl eq_refl)) as (Hout & rel & Hrel & Hne).
    apply List.NoDup_cons_iff in Hnd as [Hnotin Hnd].
    assert (Hfs' : forall g, In g fs ->
              is_prefix D g = false /\ exists rel, relative_to g run_dir = Some rel /\ rel <> [])
      by (intros g Hg; apply Hfs; now right).
    destruct (copy_run_file_step _ _ _ _ _ _ _ _ _ _ Hrel Hf)
      as [(_ & -> & ->)|(_ & c & -> & Hc)].
    + destruct (IH _ _ _ _ Hnd Hfs' Hup H) as (new & -> & Hframe & Hnew & Hkeep).
      exists new. split; [reflexivity|]. split; [exact Hframe|]. split.
      * eapply List.Forall_impl; [|exact Hnew]. intros c [Hin Hc]. split; [now right|exact Hc].
      * intros q data Hq Hq'. apply Hkeep; [exact Hq|].
        intros g rel' Hg. apply Hq'. now right.
    + destruct (copy_file_effect _ _ _ _ _ Hc) as (data & E1 & E2 & E3 & _ & _ & E6 & E7).
      assert (S1 : forall q : path, is_prefix D q = false -> files t1 !! q = files t !! q).
      { intros q Hq. destruct (in_prefixes_dec q (path_parent (D ++ rel))) as [Hin|Hnin].
        - destruct (E6 q Hin) as [_ ->]. symmetry.
          pose proof Hin as Hin'. apply prefixes_spec in Hin' as [Hq0 _].
          apply Hup; [exact Hq0|].
          destruct (prefixes_parent_around _ _ _ Hin) as [Hc1|Hc1]; [congruence|exact Hc1].
        - apply E7; [|exact Hnin]. intros ->.
          rewrite (proj2 (is_prefix_spec D (D ++ rel))) in Hq by eauto. discriminate. }
      assert (S2 : forall (q : path) d, files t !! q = Some (File d) -> q <> D ++ rel ->
                     files t1 !! q = Some (File d)).
      { intros q d Hq Hqne. rewrite E7; [exact Hq|exact Hqne|].
        intros Hin. destruct (E6 q Hin) as [Hnf _].
        apply prefixes_spec in Hin as [Hq0 _].
        unfold is_file, node_at in Hnf. destruct q; [congruence|]. now rewrite Hq in Hnf. }
      assert (Hup1 : forall q : path, q <> [] -> is_prefix q D = true -> files t1 !! q = Some Dir).
      { intros q Hq0 Hq. destruct (in_prefixes_dec q (path_parent (D ++ rel))) as [Hin|Hnin].
        - now destruct (E6 q Hin).
        - rewrite E7; [now apply Hup| |exact Hnin].
          intros ->. rewrite (app_not_prefix D rel Hne) in Hq. discriminate. }
      destruct (IH _ _ _ _ Hnd Hfs' Hup1 H) as (new & -> & Hframe & Hnew & Hkeep).
      exists (c :: new). rewrite <- app_assoc. split; [reflexivity|].
      split; [intros q Hq; rewrite (Hframe q Hq); now apply S1|].
      split; [constructor|].
      * subst c. cbn [src dst size sha256]. split; [now left|]. exists data.
        split; [exact E1|]. split; [|auto].
        apply Hkeep; [exact E2|]. intros g rel' Hg Hrel' E.
        apply app_inv_head in E. subst rel'.
        apply relative_to_spec in Hrel, Hrel'. congruence.
      * eapply List.Forall_impl; [|exact Hnew].
        intros c' (Hin & d & Hs & Hrest). split; [now right|]. exists d.
        split; [|exact Hrest]. rewrite <- S1; [exact Hs|]. now apply Hfs'.
      * intros q d Hq Hq'. apply Hkeep.
        -- apply S2; [exact Hq|]. apply (Hq' f rel); [now left|exact Hrel].
        -- intros g rel' Hg. apply Hq'. now right.
Qed.

Lemma entries_nodup (m : gmap path node) : List.NoDup (entries m).
Proof. apply NoDup_ListNoDup. exact (NoDup_fst_map_to_list m). Qed.

Lemma iter_run_files_nodup (m : gmap path node) d : List.NoDup (iter_run_files m d).
Proof.
  unfold iter_run_files, descendants. destruct (is_dir m d); [|constructor].
  apply List.NoDup_filter, List.NoDup_filter, entries_nodup.
Qed.

Lemma iter_run_files_are_files (m : gmap path node) d f :
  In f (iter_run_files m d) -> exists data, m !! f = Some (File data).
Proof.
  unfold iter_run_files. destruct (is_dir m d); [|intros []].
  intros H. apply filter_In in H as [_ H]. unfold is_file, node_at in H.
  destruct f; [discriminate|]. destruct (m !! _) as [[data|]|]; try discriminate. eauto.
Qed.

(** X8. [iter_run_files] lists, each once, the regular files that lie
    strictly below the run directory, at any depth, and nothing else; it
    lists nothing when the run directory is not a directory. *)
Theorem iter_run_files_lists_the_files_below :
  forall (m : gmap path node) run_dir,
    List.NoDup (iter_run_files m run_dir)
    /\ forall f,
         In f (iter_run_files m run_dir)
         <-> is_dir m run_dir = true
             /\ is_file m f = true
             /\ exists rel, rel <> [] /\ f = run_dir ++ rel.
Proof.
  intros m d. split; [apply iter_run_files_nodup|]. intros f. split.
  - intros H. pose proof (iter_run_files_strictly_below _ _ _ H) as (rel & Hrel & Hne).
    unfold iter_run_files in H. destruct (is_dir m d); [|destruct H].
    apply filter_In in H as [_ Hf]. split; [reflexivity|]. split; [exact Hf|].
    exists rel. split; [exact Hne|now apply relative_to_spec].
  - intros (Hd & Hf & rel & Hne & ->). unfold iter_run_files. rewrite Hd.
    apply filter_In. split; [|exact Hf]. apply descendants_spec. split; [|split].
    + unfold is_file, node_at in Hf. destruct (d ++ rel) eqn:E; [discriminate|].
      destruct (m !! _) as [[x|]|]; try discriminate. eauto.
    + apply is_prefix_spec. eauto.
    + intros E. rewrite <- (app_nil_r d) in E at 2. apply app_inv_head in E. contradiction.
Qed.

Lemma iter_run_files_In (m : gmap path node) d f :
  In f (iter_run_files m d)
  <-> is_dir m d = true /\ is_file m f = true /\ exists rel, rel <> [] /\ f = d ++ rel.
Proof.
  split.
  - intros H. pose proof (iter_run_files_strictly_below _ _ _ H) as (rel & Hrel & Hne).
    unfold iter_run_files in H. destruct (is_dir m d); [|destruct H].
    apply filter_In in H as [_ Hf]. split; [reflexivity|]. split; [exact Hf|].
    exists rel. split; [exact Hne|now apply relative_to_spec].
  - intros (Hd & Hf & rel & Hne & ->). unfold iter_run_files. rewrite Hd.
    apply filter_In. split; [|exact Hf]. apply descendants_spec. split; [|split].
    + unfold is_file, node_at in Hf. destruct (d ++ rel) eqn:E; [discriminate|].
      destruct (m !! _) as [[x|]|]; try discriminate. eauto.
    + apply is_prefix_spec. eauto.
    + intros E. rewrite <- (app_nil_r d) in E at 2. apply app_inv_head in E. contradiction.
Qed.

(** Two trees that agree at and below [d] list the same files below it, in
    whatever order each is listed. *)
Lemma iter_run_files_agree (m m' : gmap path node) d :
  (forall q : path, is_prefix d q = true -> m' !! q = m !! q) ->
  Permutation (iter_run_files m' d) (iter_run_files m d).
Proof.
  intros H. apply Permutation.NoDup_Permutation; try apply iter_run_files_nodup.
  assert (Hn : forall q : path, is_prefix d q = true -> node_at m' q = node_at m q)
    by (intros q Hq; apply node_at_ext; now apply H).
  intros f. rewrite !iter_run_files_In. unfold is_dir, is_file.
  rewrite (Hn d (is_prefix_refl d)).
  split; intros (Hd & Hf & rel & Hne & ->); (split; [exact Hd|]);
    (split; [|eauto]); [rewrite <- Hn|rewrite Hn]; try exact Hf;
    apply is_prefix_spec; eauto.
Qed.

Lemma mkdir_p_off_tree p d s u s' :
  is_prefix d p = false ->
  mkdir_p p s = (inr u, s') ->
  forall q : path, is_prefix d q = true -> files s' !! q = files s !! q.
Proof.
  intros Hd H q Hq. destruct (mkdir_p_effect _ _ _ _ H) as (_ & _ & _ & Hnot).
  apply Hnot. intros Hin. apply prefixes_spec in Hin as [_ Hin].
  rewrite (is_prefix_trans _ _ _ Hq Hin) in Hd. discriminate.
Qed.

(** X7. When the run directory and its destination do not lie in one another
    and [copy_run_dir] returns, the files listed are those that were below
    the run directory before the call, and the call changes nothing at or
    below the run directory. The records it has added are, in the order of
    the listing, those of the listed files that match no exclude pattern and
    some include pattern; each is copied to the same relative path below
    [staging_root / run_dir.name]. *)
Theorem copy_run_dir_copies_the_selection :
  forall run_dir staging_root copied s r s',
    is_prefix (staging_root ++ [path_name run_dir]) run_dir = false ->
    is_prefix run_dir (staging_root ++ [path_name run_dir]) = false ->
    copy_run_dir run_dir staging_root copied s = (inr r, s') ->
    exists s1 new,
      mkdir_p (staging_root ++ [path_name run_dir]) s = (inr tt, s1)
      /\ Permutation (iter_run_files (files s1) run_dir) (iter_run_files (files s) run_dir)
      /\ (forall q : path, is_prefix run_dir q = true -> files s' !! q = files s !! q)
      /\ r = copied ++ new
      /\ map src new
         = List.filter (selected INCLUDE_PATTERNS EXCLUDE_PATTERNS)
                       (iter_run_files (files s1) run_dir)
      /\ Forall (fun c => exists rel,
                   src c = run_dir ++ rel
                   /\ dst c = staging_root ++ path_name run_dir :: rel) new.
Proof.
  intros run_dir staging_root copied s r s' Hd1 Hd2 H.
  unfold copy_run_dir, copy_run_dir_with in H.
  set (D := staging_root ++ [path_name run_dir]) in *.
  apply bind_inr in H as ([] & s1 & Hmk & H).
  apply bind_inr in H as (m & s2 & Hm & H). injection Hm as <- <-.
  pose proof (mkdir_p_off_tree _ _ _ _ _ Hd2 Hmk) as Hsame.
  assert (Hout : forall q : path, is_prefix run_dir q = true -> is_prefix D q = false).
  { intros q Hq. destruct (is_prefix D q) eqn:E; [|reflexivity].
    apply is_prefix_spec in Hq as [x ->].
    destruct (is_prefix_through _ _ _ E); congruence. }
  exists s1. pose proof H as H'.
  apply copy_loop_exact in H as (new & -> & Hsrc & Hnew);
    [|intros f; apply iter_run_files_relative].
  exists new. split; [exact Hmk|]. split; [now apply iter_run_files_agree|].
  split.
  { intros q Hq. rewrite <- (Hsame q Hq).
    destruct (mkdir_p_effect _ _ _ _ Hmk) as (_ & _ & Hin & _).
    apply copy_loop_faithful in H' as (new' & _ & Hframe & _).
    - apply Hframe. now apply Hout.
    - apply iter_run_files_nodup.
    - intros f Hf. split; [|exact (iter_run_files_strictly_below _ _ _ Hf)].
      apply Hout. apply iter_run_files_relative in Hf as [rel Hrel].
      apply relative_to_spec in Hrel as ->. apply is_prefix_spec. eauto.
    - intros q' Hq0 Hq'. apply Hin. now apply prefixes_spec. }
  split; [reflexivity|]. split; [exact Hsrc|].
  eapply List.Forall_impl; [|exact Hnew]. intros c (rel & Hs & Hd). exists rel.
  rewrite Hd. unfold D. now rewrite <- app_assoc.
Qed.

Lemma copy_run_dir_copies_the_selection_witness :
  exists r,
    fst (copy_run_dir ["work"; "runA"] ["work"; "stage"] [] scenario_tree) = inr r
    /\ Forall (fun c => exists rel,
                 src c = ["work"; "runA"] ++ rel
                 /\ dst c = ["work"; "stage"] ++ "runA" :: rel) r.
Proof.
  assert (Hfst : exists r,
            fst (copy_run_dir ["work"; "runA"] ["work"; "stage"] [] scenario_tree) = inr r)
    by (vm_compute; eauto).
  destruct Hfst as [r Hr]. exists r. split; [exact Hr|].
  pose proof (surjective_pairing
                (copy_run_dir ["work"; "runA"] ["work"; "stage"] [] scenario_tree)) as H.
  rewrite Hr in H.
  destruct (copy_run_dir_copies_the_selection ["work"; "runA"] ["work"; "stage"] [] scenario_tree
              _ _ eq_refl eq_refl H)
    as (s1 & new & _ & _ & _ & E & _ & Hnew).
  cbn [app] in E. subst new. exact Hnew.
Defined.

(** X9. When the run directory and its destination do not lie in one another
    and [copy_run_dir] returns, every record it has added describes what is
    in the staging directory: the destination holds the bytes the source held
    before the call, the source still holds them, and the size and the digest
    of the record are those of these bytes. *)
Theorem copy_run_dir_is_faithful :
  forall run_dir staging_root copied s r s',
    is_prefix (staging_root ++ [path_name run_dir]) run_dir = false ->
    is_prefix run_dir (staging_root ++ [path_name run_dir]) = false ->
    copy_run_dir run_dir staging_root copied s = (inr r, s') ->
    exists new,
      r = copied ++ new
      /\ Forall (fun c => exists data,
                   files s !! src c = Some (File data)
                   /\ files s' !! src c = Some (File data)
                   /\ files s' !! dst c = Some (File data)
                   /\ size c = len data
                   /\ sha256 c = SHA256.hexdigest data) new.
Proof.
  intros run_dir staging_root copied s r s' Hd1 Hd2 H.
  unfold copy_run_dir, copy_run_dir_with in H.
  set (D := staging_root ++ [path_name run_dir]) in *.
  apply bind_inr in H as ([] & s1 & Hmk & H).
  apply bind_inr in H as (m & s2 & Hm & H). injection Hm as <- <-.
  destruct (mkdir_p_effect _ _ _ _ Hmk) as (_ & _ & Hin & Hnot).
  assert (Hout : forall f, In f (iter_run_files (files s1) run_dir) -> is_prefix D f = false).
  { intros f Hf. apply iter_run_files_relative in Hf as [rel Hrel].
    apply relative_to_spec in Hrel as ->.
    destruct (is_prefix D (run_dir ++ rel)) eqn:E; [|reflexivity].
    destruct (is_prefix_through _ _ _ E); congruence. }
  apply copy_loop_faithful in H as (new & -> & Hframe & Hnew & _).
  - exists new. split; [reflexivity|]. eapply List.Forall_impl; [|exact Hnew].
    intros c (Hc & data & Hs & Hrest). exists data.
    split; [|split; [|exact Hrest]].
    + rewrite <- Hnot; [exact Hs|]. intros Hp. rewrite (Hin _ Hp) in Hs. discriminate.
    + rewrite Hframe; [exact Hs|]. now apply Hout.
  - apply iter_run_files_nodup.
  - intros f Hf. split; [now apply Hout|]. exact (iter_run_files_strictly_below _ _ _ Hf).
  - intros q Hq0 Hq. apply Hin. now apply prefixes_spec.
Qed.

Lemma copy_run_dir_is_faithful_witness :
  exists r,
    fst (copy_run_dir ["work"; "runA"] ["work"; "stage"] [] scenario_tree) = inr r
    /\ Forall (fun c => exists data,
                 files scenario_tree !! src c = Some (File data)
                 /\ files (snd (copy_run_dir ["work"; "runA"] ["work"; "stage"] []
                                  scenario_tree)) !! dst c = Some (File data)) r.
Proof.
  assert (Hfst : exists r,
            fst (copy_run_dir ["work"; "runA"] ["work"; "stage"] [] scenario_tree) = inr r)
    by (vm_compute; eauto).
  destruct Hfst as [r Hr]. exists r. split; [exact Hr|].
  pose proof (surjective_pairing
                (copy_run_dir ["work"; "runA"] ["work"; "stage"] [] scenario_tree)) as H.
  rewrite Hr in H.
  destruct (copy_run_dir_is_faithful ["work"; "runA"] ["work"; "stage"] [] scenario_tree
              _ _ eq_refl eq_refl H) as (new & E & Hnew).
  cbn [app] in E. subst new.
  eapply List.Forall_impl; [|exact Hnew]. cbv beta.
  intros c (data & H1 & _ & H3 & _). eauto.
Defined.

Lemma mkdir_p_no_new_files p s u s' (q : path) :
  mkdir_p p s = (inr u, s') -> is_file (files s) q = false -> is_file (files s') q = false.
Proof.
  intros H Hq. destruct (mkdir_p_effect _ _ _ _ H) as (_ & _ & Hin & Hnot).
  unfold is_file, node_at in *. destruct q as [|x q]; [reflexivity|].
  destruct (in_prefixes_dec (x :: q) p) as [Hi|Hn]; [now rewrite (Hin _ Hi)|].
  now rewrite (Hnot _ Hn).
Qed.

Lemma filter_none {A} (f : A -> bool) l :
  (forall x, In x l -> f x = false) -> List.filter f l = [].
Proof.
  induction l as [|x l IH]; intros H; [reflexivity|].
  cbn [List.filter]. rewrite (H x) by now left. apply IH. intros y Hy. apply H. now right.
Qed.

Lemma iter_run_files_empty (m : gmap path node) d :
  (forall q, is_prefix d q = true -> is_file m q = false) -> iter_run_files m d = [].
Proof.
  intros H. unfold iter_run_files. destruct (is_dir m d); [|reflexivity].
  apply filter_none. intros q Hq. apply descendants_spec in Hq as (_ & Hq & _). now apply H.
Qed.

Lemma ensure_empty_dir_leaves_no_file p s u s' :
  exists_ (files s) p = true ->
  ensure_empty_dir p true s = (inr u, s') ->
  forall q, is_prefix p q = true -> is_file (files s') q = false.
Proof.
  intros Hex H q Hq. unfold ensure_empty_dir in H.
  apply bind_inr in H as (m & s0 & Hm & H). injection Hm as <- <-.
  rewrite Hex in H. cbn [negb] in H.
  apply bind_inr in H as ([] & s1 & Hrm & Hmk).
  apply (mkdir_p_no_new_files _ _ _ _ _ Hmk).
  unfold rmtree in Hrm. rewrite bind_eq in Hrm. unfold get_files in Hrm.
  destruct (node_at (files s) p) as [[d|]|]; try discriminate Hrm.
  injection Hrm as <-. cbn [files]. unfold is_file, node_at.
  destruct q as [|x q]; [reflexivity|]. now rewrite lookup_after_rmtree, Hq.
Qed.

Lemma copy_run_dir_inside_out d out acc t r t' :
  is_prefix out d = true ->
  (forall q, is_prefix out q = true -> is_file (files t) q = false) ->
  copy_run_dir d out acc t = (inr r, t') ->
  r = acc /\ (forall q, is_prefix out q = true -> is_file (files t') q = false).
Proof.
  intros Hd Hno H. unfold copy_run_dir, copy_run_dir_with in H.
  apply bind_inr in H as ([] & t1 & Hmk & H).
  apply bind_inr in H as (m & t2 & Hm & H). injection Hm as <- <-.
  assert (Hno1 : forall q, is_prefix out q = true -> is_file (files t1) q = false).
  { intros q Hq. apply (mkdir_p_no_new_files _ _ _ _ _ Hmk). now apply Hno. }
  rewrite iter_run_files_empty in H.
  - injection H as <- <-. auto.
  - intros q Hq. apply Hno1. exact (is_prefix_trans _ _ _ Hd Hq).
Qed.

(** X10. Nothing guards the run directories against the staging directory:
    when the staging directory exists, --force is given and the run
    directories lie in it (or are it), [ensure_empty_dir] removes their files
    before the copy, the loop over the runs adds no record, and the records
    are those of the explicit files alone. *)
Theorem staging_over_the_runs_copies_nothing :
  forall h out run_dirs s copied s',
    exists_ (files s) out = true ->
    Forall (fun d => is_prefix out d = true) run_dirs ->
    stage_files h out true run_dirs s = (inr copied, s') ->
    exists s1 s2,
      ensure_empty_dir out true s = (inr tt, s1)
      /\ (forall q, is_prefix out q = true -> is_file (files s1) q = false)
      /\ for_each run_dirs (fun d copied => copy_run_dir d out copied) [] s1 = (inr [], s2)
      /\ for_each EXPLICIT_FILES (copy_explicit_file h out) [] s2 = (inr copied, s').
Proof.
  intros h out run_dirs s copied s' Hex Hin H. unfold stage_files in H.
  apply bind_inr in H as ([] & s1 & He & H).
  apply bind_inr in H as (c1 & s2 & Hruns & H).
  pose proof (ensure_empty_dir_leaves_no_file _ _ _ _ Hex He) as Hno.
  exists s1, s2. split; [exact He|]. split; [exact Hno|].
  assert (c1 = []) as ->; [|auto].
  clear H He. revert s1 Hno Hruns. induction Hin as [|d ds Hd _ IH]; intros s1 Hno Hruns.
  - now injection Hruns as <- _.
  - cbn [for_each] in Hruns. apply bind_inr in Hruns as (acc & t & Hc & Hruns).
    destruct (copy_run_dir_inside_out _ _ _ _ _ _ Hd Hno Hc) as [-> Hno'].
    exact (IH _ Hno' Hruns).
Qed.

Lemma staging_over_the_runs_copies_nothing_witness :
  is_file (files scenario_tree) ["work"; "runA"; "chain.1.txt"] = true
  /\ exists s1 s2,
       ensure_empty_dir ["work"] true scenario_tree = (inr tt, s1)
       /\ (forall q, is_prefix ["work"] q = true -> is_file (files s1) q = false)
       /\ for_each [["work"; "runA"]] (fun d copied => copy_run_dir d ["work"] copied) [] s1
          = (inr [], s2).
Proof.
  split; [reflexivity|].
  assert (Hfst : fst (stage_files quiet_host ["work"] true [["work"; "runA"]] scenario_tree)
                 = inr []) by (vm_compute; reflexivity).
  pose proof (surjective_pairing
                (stage_files quiet_host ["work"] true [["work"; "runA"]] scenario_tree)) as H.
  rewrite Hfst in H.
  destruct (staging_over_the_runs_copies_nothing quiet_host ["work"] [["work"; "runA"]]
              scenario_tree [] _ eq_refl ltac:(repeat constructor) H)
    as (s1 & s2 & H1 & H2 & H3 & _).
  exists s1, s2. auto.
Defined.

(** ** Records the manifest cannot list *)

Lemma all_some_none {A} (l : list (option A)) : In None l -> all_some l = None.
Proof.
  induction l as [|[x|] l IH]; cbn; [tauto| |reflexivity].
  intros [H|H]; [discriminate|]. now rewrite (IH H).
Qed.

(** X11. A record whose destination is not below the staging directory makes
    [write_manifest] raise [ValueError] (from [relative_to]) before anything
    is written. *)
Theorem write_manifest_rejects_foreign_record :
  forall staging_root copied c s,
    In c copied ->
    relative_to (dst c) staging_root = None ->
    exists msg, write_manifest staging_root copied s = (inl (ValueError msg), s).
Proof.
  intros staging_root copied c s Hc Hrel. unfold write_manifest, manifest_text.
  rewrite all_some_none; [unfold raise; eauto|].
  apply in_map_iff. exists c. split.
  - unfold manifest_line. now rewrite Hrel.
  - now apply sorted_by_In.
Qed.

Lemma write_manifest_rejects_foreign_record_witness :
  exists msg,
    write_manifest ["work"; "stage"]
      [mkCopiedFile ["work"; "runA"; "a.txt"] ["elsewhere"; "a.txt"] 1 "d"] scenario_tree
    = (inl (ValueError msg), scenario_tree).
Proof.
  apply (write_manifest_rejects_foreign_record ["work"; "stage"] _
           (mkCopiedFile ["work"; "runA"; "a.txt"] ["elsewhere"; "a.txt"] 1 "d")).
  - now left.
  - reflexivity.
Defined.

(** ** The environment snapshot *)

Lemma is_file_insert (m : gmap path node) (p q : path) data :
  p <> [] -> is_file m q = true \/ q = p -> is_file (<[p := File data]> m) q = true.
Proof.
  intros Hp H. unfold is_file, node_at. destruct (decide (q = p)) as [->|Hne].
  - destruct p; [congruence|]. now rewrite lookup_insert_eq.
  - destruct H as [H|H]; [|contradiction]. unfold is_file, node_at in H.
    destruct q; [discriminate|]. now rewrite lookup_insert_ne by congruence.
Qed.

Lemma mkdir_p_keeps_files p s u s' (q : path) :
  mkdir_p p s = (inr u, s') -> is_file (files s) q = true -> is_file (files s') q = true.
Proof.
  intros H Hq. destruct (mkdir_p_effect _ _ _ _ H) as (_ & Hnf & _ & Hnot).
  destruct (in_prefixes_dec q p) as [Hin|Hnin]; [rewrite (Hnf q Hin) in Hq; discriminate|].
  unfold is_file, node_at in *. destruct q; [discriminate|]. now rewrite Hnot.
Qed.

Lemma write_text_nonroot p data s u s' : write_text p data s = (inr u, s') -> p <> [].
Proof.
  intros H ->. unfold write_text in H. rewrite bind_eq in H. discriminate H.
Qed.

Lemma write_text_keeps_files p data s u s' (q : path) :
  write_text p data s = (inr u, s') ->
  is_file (files s) q = true \/ q = p -> is_file (files s') q = true.
Proof.
  intros H Hq. pose proof (write_text_nonroot _ _ _ _ _ H) as Hp.
  apply write_text_inr in H as [-> _]. now apply is_file_insert.
Qed.

Lemma write_text_failure p data s e s' : write_text p data s = (inl e, s') -> s' = s.
Proof.
  unfold write_text. rewrite bind_eq. unfold get_files.
  destruct (node_at (files s) (path_parent p)) as [[d|]|]; try (now intros [= _ <-]).
  destruct (is_dir (files s) p); [now intros [= _ <-]|discriminate].
Qed.

(** What [run_bash_to_file] does when it returns. *)
Lemma run_bash_to_file_effect h cmd out venv s u s' :
  run_bash_to_file h cmd out venv s = (inr u, s') ->
  exists s1 text,
    mkdir_p (path_parent out) s = (inr tt, s1)
    /\ files s' = <[out := File text]> (files s1)
    /\ console s' = console s
    /\ out <> []
    /\ text = match subprocess_run h (bash_in_venv h cmd venv) (files s1) with
              | inl stdout => if nonempty stdout then stdout else "(no output)" +:+ nl
              | inr e => "ERROR running command:" +:+ nl +:+ cmd +:+ nl +:+ nl +:+ e +:+ nl
              end.
Proof.
  unfold run_bash_to_file. intros H.
  apply bind_inr in H as ([] & s1 & Hmk & H).
  apply bind_inr in H as (m & s2 & Hm & H). injection Hm as <- <-.
  destruct (mkdir_p_effect _ _ _ _ Hmk) as (Hc & _).
  destruct (subprocess_run h _ (files s1)) as [stdout|e] eqn:R.
  - unfold catch in H.
    destruct (write_text out _ s1) as [[e|[]] s2] eqn:W.
    + (* the second write fails as the first did *)
      pose proof (write_text_failure _ _ _ _ _ W) as ->. exfalso.
      unfold write_text in W, H. rewrite bind_eq in W, H. unfold get_files in W, H.
      destruct (node_at (files s1) (path_parent out)) as [[d|]|]; try discriminate H.
      destruct (is_dir (files s1) out); discriminate.
    + destruct u. injection H as <-. pose proof (write_text_nonroot _ _ _ _ _ W) as Hne.
      apply write_text_inr in W as [W Wc]. exists s1. eexists.
      split; [exact Hmk|]. split; [exact W|]. split; [congruence|]. split; [exact Hne|].
      now rewrite R.
  - pose proof (write_text_nonroot _ _ _ _ _ H) as Hne.
    apply write_text_inr in H as [W Wc]. exists s1. eexists.
    split; [exact Hmk|]. split; [exact W|]. split; [congruence|]. split; [exact Hne|].
    now rewrite R.
Qed.

Lemma run_bash_to_file_keeps_files h cmd out venv s u s' (q : path) :
  run_bash_to_file h cmd out venv s = (inr u, s') ->
  is_file (files s) q = true \/ q = out -> is_file (files s') q = true.
Proof.
  intros H Hq.
  destruct (run_bash_to_file_effect _ _ _ _ _ _ _ H) as (s1 & text & Hmk & -> & _ & Hne & _).
  apply is_file_insert; [exact Hne|]. destruct Hq as [Hq|Hq]; [left|now right].
  exact (mkdir_p_keeps_files _ _ _ _ _ Hmk Hq).
Qed.

Lemma write_text_ok p data s :
  node_at (files s) (path_parent p) = Some Dir ->
  is_dir (files s) p = false ->
  write_text p data s = (inr tt, mkState (<[p := File data]> (files s)) (console s)).
Proof.
  intros Hp Hd. unfold write_text. rewrite bind_eq. unfold get_files.
  now rewrite Hp, Hd.
Qed.

Lemma not_in_prefixes_parent (p : path) : ~ In p (prefixes (path_parent p)).
Proof.
  intros H. apply prefixes_spec in H as [Hne H].
  pose proof (is_prefix_antisym _ _ H (removelast_is_prefix p)) as E.
  unfold path_parent in E, Hne.
  assert (Hp : p <> []) by (intros ->; now apply Hne).
  rewrite (app_removelast_last "" Hp) in E at 1.
  apply (f_equal (@List.length string)) in E. rewrite length_app in E. cbn in E. lia.
Qed.

Lemma parent_is_dir_after_mkdir p s u s' :
  mkdir_p (path_parent p) s = (inr u, s') ->
  node_at (files s') (path_parent p) = Some Dir
  /\ is_dir (files s') p = is_dir (files s) p.
Proof.
  intros H. destruct (mkdir_p_effect _ _ _ _ H) as (_ & _ & Hin & Hnot). split.
  - unfold node_at. destruct (path_parent p) as [|x q] eqn:E; [reflexivity|].
    apply Hin, prefixes_spec. split; [discriminate|apply is_prefix_refl].
  - unfold is_dir, node_at. destruct p as [|x p]; [reflexivity|].
    rewrite Hnot; [reflexivity|apply not_in_prefixes_parent].
Qed.

Lemma nonempty_not_empty s : nonempty s = true -> s <> "".
Proof. now destruct s. Qed.

(** X12. When no directory on the way to the output file is a regular file
    and the output path is no directory, [run_bash_to_file] returns, prints
    nothing, and the file it leaves is not empty: it holds what the command
    printed, [(no output)] when it printed nothing, or the text of the error
    with the command line when the command could not be run. *)
Theorem run_bash_to_file_always_writes :
  forall h cmd out venv s,
    (forall q, is_prefix q (path_parent out) = true -> is_file (files s) q = false) ->
    is_dir (files s) out = false ->
    exists s' text,
      run_bash_to_file h cmd out venv s = (inr tt, s')
      /\ files s' !! out = Some (File text)
      /\ text <> ""
      /\ console s' = console s
      /\ text = match subprocess_run h (bash_in_venv h cmd venv)
                        (files (snd (mkdir_p (path_parent out) s))) with
                | inl stdout => if nonempty stdout then stdout else "(no output)" +:+ nl
                | inr e => "ERROR running command:" +:+ nl +:+ cmd +:+ nl +:+ nl +:+ e +:+ nl
                end.
Proof.
  intros h cmd out venv s Hup Hout.
  destruct (mkdir_p_ok _ s Hup) as [s1 Hmk].
  destruct (parent_is_dir_after_mkdir _ _ _ _ Hmk) as [Hpar Hdir]. rewrite Hout in Hdir.
  destruct (mkdir_p_effect _ _ _ _ Hmk) as (Hc & _).
  rewrite Hmk. cbn [snd].
  unfold run_bash_to_file. rewrite bind_eq, Hmk, bind_eq. unfold get_files.
  destruct (subprocess_run h _ (files s1)) as [stdout|e].
  - unfold catch. rewrite (write_text_ok _ _ _ Hpar Hdir).
    eexists. eexists. split; [reflexivity|]. cbn [files console].
    split; [apply lookup_insert_eq|]. split; [|auto].
    destruct (nonempty stdout) eqn:E; [now apply nonempty_not_empty|discriminate].
  - rewrite (write_text_ok _ _ _ Hpar Hdir).
    eexists. eexists. split; [reflexivity|]. cbn [files console].
    split; [apply lookup_insert_eq|]. split; [discriminate|auto].
Qed.

Lemma run_bash_to_file_always_writes_witness :
  exists s' text,
    run_bash_to_file echo_host "uname -a" ["work"; "stage"; "tools"; "env"; "uname.txt"] None
      scenario_tree = (inr tt, s')
    /\ files s' !! ["work"; "stage"; "tools"; "env"; "uname.txt"] = Some (File text)
    /\ text <> "".
Proof.
  destruct (run_bash_to_file_always_writes echo_host "uname -a"
              ["work"; "stage"; "tools"; "env"; "uname.txt"] None scenario_tree)
    as (s' & text & H1 & H2 & H3 & _).
  - apply no_file_above. reflexivity.
  - reflexivity.
  - exists s', text. auto.
Defined.

(** X13. [_pick_existing_path] returns the first path of the list that is a
    regular file, and [None] when none is. *)
Theorem pick_existing_path_is_first_file :
  forall (m : gmap path node) paths,
    match _pick_existing_path m paths with
    | Some p => exists before after,
                  paths = before ++ p :: after
                  /\ is_file m p = true
                  /\ Forall (fun q => is_file m q = false) before
    | None => Forall (fun q => is_file m q = false) paths
    end.
Proof.
  intros m paths. induction paths as [|p paths IH]; [constructor|].
  cbn [_pick_existing_path].
  assert (E : exists_ m p && is_file m p = is_file m p).
  { unfold exists_, is_file. now destruct (node_at m p) as [[d|]|]. }
  rewrite E. destruct (is_file m p) eqn:F.
  - exists [], paths. auto.
  - destruct (_pick_existing_path m paths) as [q|].
    + destruct IH as (before & after & -> & Hq & Hb).
      exists (p :: before), after. auto.
    + now constructor.
Qed.

Lemma removelast_app_nonempty (p r : path) : r <> [] -> removelast (p ++ r) = p ++ removelast r.
Proof. intros H. now apply removelast_app. Qed.

Lemma first_candidate_spec (m : gmap path node) cands c :
  first_candidate m cands = Some c -> In c cands /\ is_dir m c = true.
Proof.
  induction cands as [|x cands IH]; [discriminate|]. cbn [first_candidate].
  destruct (exists_ m x && is_dir m x) eqn:E.
  - apply andb_true_iff in E as [_ E].
    destruct (has_class_marker m x); intros [= <-]; split; auto; now left.
  - intros H. destruct (IH H). split; [now right|assumption].
Qed.

(** X14. In a well-formed tree, what [_find_class_dir] returns is a directory,
    and it is the packages directory or lies below it: the test
    [class_dir.exists()] that follows the call can only fail on [None]. *)
Theorem find_class_dir_is_a_directory_below :
  forall (m : gmap path node) packages_path c,
    well_formed m = true ->
    _find_class_dir m packages_path = Some c ->
    is_dir m c = true /\ is_prefix packages_path c = true.
Proof.
  intros m pp c Hwf H. unfold _find_class_dir in H.
  destruct (negb (exists_ m pp)); [discriminate|].
  destruct (first_candidate m (class_candidates pp)) as [c'|] eqn:F.
  - injection H as <-. apply first_candidate_spec in F as [Hin Hdir].
    split; [exact Hdir|]. unfold class_candidates in Hin. cbn [In] in Hin.
    repeat (destruct Hin as [<-|Hin]; [apply is_prefix_spec; eauto|]). destruct Hin.
  - destruct (List.find _ _) as [p|] eqn:Fd; [|discriminate]. injection H as <-.
    apply find_some in Fd as [Hp _]. unfold rglob_name in Hp.
    destruct (is_dir m pp); [|destruct Hp].
    apply filter_In in Hp as [Hp _]. apply descendants_spec in Hp as (Hsome & Hpre & Hne).
    split; [now apply well_formed_spec|].
    apply is_prefix_spec in Hpre as [r ->]. unfold path_parent.
    rewrite removelast_app_nonempty; [apply is_prefix_spec; eauto|].
    intros ->. now rewrite app_nil_r in Hne.
Qed.

Lemma find_class_dir_is_a_directory_below_witness :
  is_dir packages_tree ["pk"; "code"; "classy"] = true
  /\ is_prefix ["pk"] ["pk"; "code"; "classy"] = true.
Proof.
  apply (find_class_dir_is_a_directory_below packages_tree ["pk"]); reflexivity.
Defined.

Lemma config_contents_keeps_files c p (msg : exn -> string) s u s' (q : path) :
  catch (do text <- read_text c in write_text p text)
        (fun e => write_text p (msg e)) s = (inr u, s') ->
  is_file (files s) q = true \/ q = p -> is_file (files s') q = true.
Proof.
  unfold catch. rewrite bind_eq. intros H Hq.
  destruct (read_text c s) as [[e|text] s1] eqn:R; apply read_text_state in R as ->.
  - exact (write_text_keeps_files _ _ _ _ _ q H Hq).
  - destruct (write_text p text s) as [[e|[]] s2] eqn:W.
    + apply write_text_failure in W as ->. exact (write_text_keeps_files _ _ _ _ _ q H Hq).
    + destruct u. injection H as <-. exact (write_text_keeps_files _ _ _ _ _ q W Hq).
Qed.

Lemma write_class_fingerprint_keeps_files c p s u s' (q : path) :
  _write_class_fingerprint c p s = (inr u, s') ->
  is_file (files s) q = true \/ q = p -> is_file (files s') q = true.
Proof.
  unfold _write_class_fingerprint. rewrite bind_eq. unfold get_files.
  destruct (fingerprint_text _ _ _); [|discriminate].
  intros H Hq. exact (write_text_keeps_files _ _ _ _ _ q H Hq).
Qed.

(** The steps of a run that returned, one hypothesis for each. *)
Ltac steps H :=
  repeat match type of H with
    | bind get_files _ _ = _ =>
        let Hm := fresh "Hm" in
        apply bind_inr in H as (? & ? & Hm & H); injection Hm as <- <-
    | bind (read_text _) _ _ = _ =>
        let Hr := fresh "Hr" in
        apply bind_inr in H as (? & ? & Hr & H); apply read_text_inr in Hr as [-> Hr]
    | bind _ _ _ = _ =>
        let Hs := fresh "Hs" in
        apply bind_inr in H as ([] & ? & Hs & H)
    | (match ?x with _ => _ end) _ = _ => destruct x eqn:?
    | (if ?b then _ else _) _ = _ => destruct b eqn:?
    end.

(** A file that a step wrote, or that was there before it, is there after
    it. *)
Ltac still_there :=
  repeat match goal with
    | H : run_bash_to_file _ _ _ _ ?s0 = (inr _, ?s1) |- is_file (files ?s1) ?q = true =>
        apply (run_bash_to_file_keeps_files _ _ _ _ _ _ _ q H);
        first [right; reflexivity | left]
    | H : write_text _ _ ?s0 = (inr _, ?s1) |- is_file (files ?s1) ?q = true =>
        apply (write_text_keeps_files _ _ _ _ _ q H);
        first [right; reflexivity | left]
    | H : mkdir_p _ ?s0 = (inr _, ?s1) |- is_file (files ?s1) ?q = true =>
        apply (mkdir_p_keeps_files _ _ _ _ q H)
    | H : _write_class_fingerprint _ _ ?s0 = (inr _, ?s1) |- is_file (files ?s1) ?q = true =>
        apply (write_class_fingerprint_keeps_files _ _ _ _ _ q H);
        first [right; reflexivity | left]
    | H : catch _ _ ?s0 = (inr _, ?s1) |- is_file (files ?s1) ?q = true =>
        apply (config_contents_keeps_files _ _ _ _ _ _ q H);
        first [right; reflexivity | left]
    end.

Lemma snapshot_files_written :
  forall h staging_root venv s u s',
    capture_env_snapshot h staging_root venv s = (inr u, s') ->
    Forall (fun name => is_file (files s') (staging_root ++ ["tools"; "env"; name]) = true)
           SNAPSHOT_FILES.
Proof.
  intros h staging_root venv s u s' H.
  unfold capture_env_snapshot in H. cbv beta zeta in H.
  rewrite <- !app_assoc in H. cbn [app] in H.
  steps H;
    repeat match goal with
      | Hs : (match ?x with _ => _ end) _ = (inr _, _) |- _ => destruct x eqn:?
      end;
    unfold SNAPSHOT_FILES; repeat constructor; still_there.
Qed.

(** X15. When [capture_env_snapshot] returns, the twenty-one files of
    [SNAPSHOT_FILES] are regular files in [tools/env] of the staging
    directory, on every path through the function: whether or not a Cobaya
    configuration, a packages path or a CLASS directory was found. *)
Theorem capture_env_snapshot_writes_its_files :
  forall h staging_root venv s u s',
    capture_env_snapshot h staging_root venv s = (inr u, s') ->
    Forall (fun name => is_file (files s') (staging_root ++ ["tools"; "env"; name]) = true)
           SNAPSHOT_FILES.
Proof. exact snapshot_files_written. Qed.

Lemma capture_env_snapshot_writes_its_files_witness :
  fst (capture_env_snapshot echo_host ["work"; "stage"] None scenario_tree) = inr tt
  /\ Forall (fun name =>
               is_file (files (snd (capture_env_snapshot echo_host ["work"; "stage"] None
                                      scenario_tree)))
                       (["work"; "stage"] ++ ["tools"; "env"; name]) = true)
            SNAPSHOT_FILES.
Proof.
  assert (Hfst : fst (capture_env_snapshot echo_host ["work"; "stage"] None scenario_tree)
                 = inr tt) by (vm_compute; reflexivity).
  split; [exact Hfst|].
  pose proof (surjective_pairing
                (capture_env_snapshot echo_host ["work"; "stage"] None scenario_tree)) as H.
  rewrite Hfst in H.
  exact (capture_env_snapshot_writes_its_files _ _ _ _ _ _ H).
Defined.

(** ** The archive *)

Lemma pack_effect h format staging_root out s u s' :
  pack h format staging_root out s = (inr u, s') ->
  is_file (files s') out = true
  /\ console s' = console s
  /\ (forall q : path, q <> out -> files s' !! q = files s !! q).
Proof.
  intros H. split; [|split].
  - unfold pack in H.
    apply bind_inr in H as (m & s1 & Hm & H). injection Hm as <- <-.
    apply bind_inr in H as ([] & s2 & _ & H).
    apply bind_inr in H as (m2 & s3 & Hm & H). injection Hm as <- <-.
    apply (write_text_keeps_files _ _ _ _ _ out H). now right.
  - unfold pack in H.
    apply bind_inr in H as (m & s1 & Hm & H). injection Hm as <- <-.
    apply bind_inr in H as ([] & s2 & Hu & H).
    apply bind_inr in H as (m2 & s3 & Hm & H). injection Hm as <- <-.
    apply write_text_inr in H as [_ ->].
    destruct (exists_ (files s) out); [|now injection Hu as <-].
    unfold unlink in Hu. rewrite bind_eq in Hu. unfold get_files in Hu.
    destruct (node_at (files s) out) as [[d|]|]; try discriminate Hu.
    now injection Hu as <-.
  - intros q Hq. exact (pack_frame _ _ _ _ _ _ _ q H Hq).
Qed.

(** X16. [make_archive] returns [None], and changes nothing, exactly when
    neither switch is given. Otherwise it returns the path of one archive, a
    sibling of the staging directory named after it: the zip when --zip is
    given, with or without --targz, the tar.gz otherwise; that path is a
    regular file afterwards, and nothing else has changed. *)
Theorem make_archive_result :
  forall h staging_root zip_ targz s r s',
    make_archive h staging_root zip_ targz s = (inr r, s') ->
    match r with
    | None => zip_ = false /\ targz = false /\ s' = s
    | Some out =>
        (zip_ = true \/ targz = true)
        /\ out = path_parent staging_root
                 ++ [path_name staging_root +:+ (if zip_ then ".zip" else ".tar.gz")]
        /\ is_file (files s') out = true
        /\ console s' = console s
        /\ (forall q : path, q <> out -> files s' !! q = files s !! q)
    end.
Proof.
  intros h staging_root zip_ targz s r s' H. unfold make_archive in H.
  destruct zip_; cbn [negb andb] in H.
  - apply bind_inr in H as ([] & s1 & Hp & H). injection H as <- <-.
    split; [now left|]. split; [reflexivity|]. now apply pack_effect in Hp.
  - destruct targz; cbn [negb] in H.
    + apply bind_inr in H as ([] & s1 & Hp & H). injection H as <- <-.
      split; [now right|]. split; [reflexivity|]. now apply pack_effect in Hp.
    + injection H as <- <-. auto.
Qed.

Lemma make_archive_result_witness :
  is_file (files (snd (make_archive quiet_host ["work"; "runA"] true true scenario_tree)))
          ["work"; "runA.zip"] = true.
Proof.
  assert (Hfst : fst (make_archive quiet_host ["work"; "runA"] true true scenario_tree)
                 = inr (Some ["work"; "runA.zip"])) by (vm_compute; reflexivity).
  pose proof (surjective_pairing
                (make_archive quiet_host ["work"; "runA"] true true scenario_tree)) as H.
  rewrite Hfst in H.
  exact (proj1 (proj2 (proj2 (make_archive_result _ _ _ _ _ _ _ H)))).
Defined.

(** ** The names of the runs *)

Lemma lstrip_head s : lstrip s = "" \/ exists c r, lstrip s = String c r /\ is_space c = false.
Proof.
  induction s as [|c s IH]; [now left|]. cbn [lstrip].
  destruct (is_space c) eqn:E; [exact IH|]. right. eauto.
Qed.

Lemma rstrip_head c s :
  is_space c = false -> exists r, rstrip (String c s) = String c r.
Proof.
  intros E. cbn [rstrip]. destruct (rstrip s); [rewrite E|]; eauto.
Qed.

Lemma rstrip_idem s : rstrip (rstrip s) = rstrip s.
Proof.
  induction s as [|c s IH]; [reflexivity|]. cbn [rstrip].
  destruct (rstrip s) as [|a r] eqn:E.
  - destruct (is_space c) eqn:Ec; [reflexivity|]. cbn [rstrip]. now rewrite Ec.
  - change (rstrip (String c (String a r)))
      with (match rstrip (String a r) with
            | EmptyString => if is_space c then EmptyString else String c EmptyString
            | x => String c x
            end).
    now rewrite IH.
Qed.

Lemma strip_idem s : strip (strip s) = strip s.
Proof.
  unfold strip. destruct (lstrip_head s) as [->|(c & r & -> & Hc)]; [reflexivity|].
  destruct (rstrip_head c r Hc) as [r' E]. rewrite E.
  cbn [lstrip]. rewrite Hc, <- E. apply rstrip_idem.
Qed.

(** X17. The run names read from a run-list file are never empty, never start
    with [#], and carry no white space at either end. *)
Theorem runs_of_text_names_are_clean :
  forall text,
    Forall (fun r => r <> "" /\ startswith r "#" = false /\ strip r = r) (runs_of_text text).
Proof.
  intros text. unfold runs_of_text. apply List.Forall_forall. intros r Hr.
  apply in_map_iff in Hr as (ln & <- & Hln). apply filter_In in Hln as [_ H].
  apply andb_true_iff in H as [H1 H2]. apply negb_true_iff in H2.
  split; [now apply nonempty_not_empty|]. split; [exact H2|apply strip_idem].
Qed.

(** X18. A list of such names, free of line breaks, written one per line is
    read back as it is. *)
Theorem runs_of_text_reads_back :
  forall names,
    Forall (fun r => r <> "" /\ startswith r "#" = false /\ strip r = r
                     /\ all_chars (fun c => negb (is_linebreak c)) r = true) names ->
    runs_of_text (unlines names) = names.
Proof.
  intros names H. unfold runs_of_text. rewrite splitlines_unlines.
  - induction H as [|r rs (Hne & Hc & Hs & _) _ IH]; [reflexivity|].
    cbn [List.filter]. rewrite Hs, Hc.
    destruct r; [congruence|]. cbn [nonempty negb andb map]. now rewrite Hs, IH.
  - eapply List.Forall_impl; [|exact H]. now intros r (_ & _ & _ & Hl).
Qed.

Lemma runs_of_text_reads_back_witness :
  runs_of_text (unlines ["ace_global_fixed_desiDR2"; "lcdm_baseline_desiDR2"])
  = ["ace_global_fixed_desiDR2"; "lcdm_baseline_desiDR2"].
Proof.
  apply runs_of_text_reads_back. repeat constructor; discriminate.
Defined.

(** X19. When --runs names at least one run and --runs-from-file names an
    existing file, the file is read and its content dropped: the selection is
    the one the same command line gives without --runs-from-file. *)
Theorem explicit_runs_override_the_file :
  forall h args base s r rs f,
    args_runs args = Some (r :: rs) ->
    args_runs_from_file args = Some f ->
    is_file (files s) (resolve (cwd h) (expanduser (home h) f)) = true ->
    determine_run_list h args base s
    = determine_run_list h (with_runs_from_file args None) base s.
Proof.
  intros h args base s r rs f Hruns Hf Hfile. unfold determine_run_list.
  cbn [with_runs_from_file args_runs_from_file args_runs args_auto_detect_runs].
  rewrite Hf, Hruns, !bind_eq.
  destruct (nonempty f); [|reflexivity].
  unfold exists_, read_text, is_file, bind, get_files, ret in *.
  destruct (node_at (files s) _) as [[data|]|] eqn:E; try discriminate Hfile.
  cbn [negb]. cbv beta. rewrite E. reflexivity.
Qed.

Lemma explicit_runs_override_the_file_witness :
  determine_run_list quiet_host
    (with_runs_from_file scenario_args (Some "runA/config.yaml")) ["work"] scenario_tree
  = determine_run_list quiet_host
      (with_runs_from_file
         (with_runs_from_file scenario_args (Some "runA/config.yaml")) None)
      ["work"] scenario_tree.
Proof.
  apply (explicit_runs_override_the_file quiet_host _ ["work"] scenario_tree
           "runA" [] "runA/config.yaml"); reflexivity.
Defined.

Lemma resolve_run_dirs_first_missing (m : gmap path node) base ok bad rest :
  forall acc,
    Forall (fun r => is_dir m (resolve base r) = true) ok ->
    is_dir m (resolve base bad) = false ->
    resolve_run_dirs m base (ok ++ bad :: rest) acc = inl (resolve base bad).
Proof.
  induction ok as [|r ok IH]; intros acc Hok Hbad; cbn [app resolve_run_dirs].
  - rewrite Hbad. cbn [negb]. now rewrite orb_true_r.
  - apply List.Forall_cons_iff in Hok as [Hr Hok].
    assert (exists_ m (resolve base r) = true) as ->
      by (unfold exists_, is_dir in *; now destruct (node_at m (resolve base r))).
    rewrite Hr. cbn [negb orb]. now apply IH.
Qed.

(** X20. Without auto-detection and without a run-list file, the names given
    with --runs are checked in order: at the first that does not resolve to a
    directory below the base, the validation prints [ERROR: run dir not found]
    with its path on the standard error and gives the exit code 2, whatever
    follows it in the list; the files are not touched. *)
Theorem missing_run_directory_is_reported :
  forall h args base s ok bad rest,
    args_auto_detect_runs args = false ->
    args_runs_from_file args = None ->
    args_runs args = Some (ok ++ bad :: rest) ->
    Forall (fun r => is_dir (files s) (resolve base r) = true) ok ->
    is_dir (files s) (resolve base bad) = false ->
    determine_run_list h args base s
    = (inr (inl 2%Z),
       mkState (files s)
         (console s ++ [(Stderr, "ERROR: run dir not found: "
                                 +:+ as_posix (resolve base bad))])).
Proof.
  intros h args base s ok bad rest Hauto Hfile Hruns Hok Hbad.
  unfold determine_run_list. rewrite Hfile, Hruns, Hauto, bind_eq. unfold ret at 1.
  assert (E : match ok ++ bad :: rest with
              | [] => @nil string
              | r :: rs => r :: rs
              end = ok ++ bad :: rest) by now destruct ok.
  rewrite E. destruct (ok ++ bad :: rest) as [|r rs] eqn:El; [now destruct ok|].
  rewrite <- El, bind_eq. unfold get_files.
  rewrite (resolve_run_dirs_first_missing _ _ _ _ _ [] Hok Hbad).
  reflexivity.
Qed.

Lemma missing_run_directory_is_reported_witness :
  fst (determine_run_list quiet_host
         (with_runs scenario_args (Some ["runA"; "runZ"; "runY"])) ["work"] scenario_tree)
  = inr (inl 2%Z)
  /\ console (snd (determine_run_list quiet_host
                     (with_runs scenario_args (Some ["runA"; "runZ"; "runY"])) ["work"]
                     scenario_tree))
     = [(Stderr, "ERROR: run dir not found: /work/runZ")].
Proof.
  rewrite (missing_run_directory_is_reported quiet_host
             (with_runs scenario_args (Some ["runA"; "runZ"; "runY"])) ["work"] scenario_tree
             ["runA"] "runZ" ["runY"]); try reflexivity.
  - split; reflexivity.
  - repeat constructor.
Defined.

(** ** The orchestrator as a whole *)

(** X21. The only values [main] returns are 0 and 2; when it returns 2 no
    file has changed and exactly one line has been printed, on the standard
    error, starting with [ERROR: ]. *)
Theorem main_returns_zero_or_two :
  forall h args s code s',
    main h args s = (inr code, s') ->
    code = 0%Z
    \/ (code = 2%Z
        /\ files s' = files s
        /\ exists msg, console s' = console s ++ [(Stderr, "ERROR: " +:+ msg)]).
Proof.
  intros h args s code s' H. unfold main in H.
  apply bind_inr in H as (m & s0 & Hm & H). injection Hm as <- <-.
  destruct (negb (exists_ (files s) _)).
  { apply bind_inr in H as ([] & s1 & Hp & H). injection Hp as <-. injection H as <- <-.
    right. cbn. split; [reflexivity|]. split; [reflexivity|]. eexists. reflexivity. }
  apply bind_inr in H as (sel & s1 & Hsel & H).
  destruct sel as [c|[runs run_dirs]].
  { injection H as <- <-. right. now apply determine_run_list_error in Hsel. }
  left.
  repeat match type of H with
         | bind _ _ _ = _ => apply bind_inr in H as (? & ? & _ & H)
         end.
  now injection H as <- _.
Qed.

Lemma main_returns_zero_or_two_witness :
  fst (main quiet_host scenario_args empty_base) = inr 2%Z
  /\ files (snd (main quiet_host scenario_args empty_base)) = files empty_base.
Proof.
  assert (Hfst : fst (main quiet_host scenario_args empty_base) = inr 2%Z)
    by (vm_compute; reflexivity).
  split; [exact Hfst|].
  pose proof (surjective_pairing (main quiet_host scenario_args empty_base)) as H.
  rewrite Hfst in H.
  destruct (main_returns_zero_or_two _ _ _ _ _ H) as [E|(_ & E & _)]; [discriminate E|exact E].
Defined.

Lemma touches_main h args :
  let out := resolve (cwd h) (expanduser (home h) (args_out args)) in
  touches (fun q => around out q
                    \/ q = path_parent out ++ [path_name out +:+ ".zip"]
                    \/ q = path_parent out ++ [path_name out +:+ ".tar.gz"])
          (main h args).
Proof.
  intros out. unfold main. fold out.
  set (base := resolve (cwd h) (expanduser (home h) (args_base args))).
  apply touches_bind; [apply touches_get|]. intros m.
  destruct (negb (exists_ m base)); [touch|].
  apply touches_bind; [apply touches_determine_run_list|]. intros [code|[runs run_dirs]]; [touch|].
  apply touches_bind.
  { eapply touches_weaken; [|apply touches_stage_files]. auto. }
  intros copied. apply touches_bind.
  { destruct (args_env_snapshot args); [|touch].
    eapply touches_weaken; [|apply touches_capture_env_snapshot]. auto. }
  intros _. apply touches_bind.
  { eapply touches_weaken; [|apply touches_write_manifest]. auto. }
  intros _. apply touches_bind.
  { eapply touches_weaken; [|apply touches_write_notes]. auto. }
  intros _. apply touches_bind.
  { eapply touches_weaken; [|apply touches_make_archive]. cbv beta. tauto. }
  intros archive. touch.
Qed.

(** X22. Whatever [main] does, and whether it returns or raises, a path that
    is neither in the staging directory nor above it, and is not one of the
    two archives beside it, is left as it was: the run directories and the
    explicit files are not modified unless they lie in the staging
    directory. *)
Theorem main_changes_only_the_output :
  forall h args s q,
    let out := resolve (cwd h) (expanduser (home h) (args_out args)) in
    is_prefix out q = false ->
    is_prefix q out = false ->
    q <> path_parent out ++ [path_name out +:+ ".zip"] ->
    q <> path_parent out ++ [path_name out +:+ ".tar.gz"] ->
    files (snd (main h args s)) !! q = files s !! q.
Proof.
  intros h args s q out H1 H2 H3 H4.
  apply (touches_main h args s _ _ (surjective_pairing _)).
  fold out. unfold around. intros [[H|H]|[H|H]]; congruence.
Qed.

Lemma main_changes_only_the_output_witness :
  files (snd (main echo_host scenario_args_snapshot scenario_tree))
    !! ["work"; "runA"; "ignore.log"]
  = files scenario_tree !! ["work"; "runA"; "ignore.log"].
Proof.
  apply (main_changes_only_the_output echo_host scenario_args_snapshot scenario_tree
           ["work"; "runA"; "ignore.log"]).
  - reflexivity.
  - reflexivity.
  - intros E. vm_compute in E. discriminate E.
  - intros E. vm_compute in E. discriminate E.
Defined.

Lemma is_file_ext (m1 m2 : gmap path node) (q : path) :
  m1 !! q = m2 !! q -> is_file m1 q = is_file m2 q.
Proof. intros H. unfold is_file. now rewrite (node_at_ext m1 m2 q H). Qed.

Lemma inside_is_not_archive (out x : path) suffix :
  x <> [] -> List.last x "" <> suffix ->
  out ++ x <> path_parent out ++ [path_name out +:+ suffix].
Proof.
  intros Hx Hlast E. rewrite (app_removelast_last "" Hx), app_assoc in E.
  apply app_inj_tail in E as [E1 E2].
  destruct (decide (out = [])) as [->|Hne].
  - apply Hlast. rewrite E2. reflexivity.
  - apply (f_equal (@List.length string)) in E1. unfold path_parent in E1.
    rewrite (app_removelast_last "" Hne) in E1 at 1.
    rewrite !length_app in E1. cbn in E1. lia.
Qed.

Lemma deeper_is_not_archive (out x : path) z :
  (2 <= List.length x)%nat -> out ++ x <> path_parent out ++ [z].
Proof.
  intros Hx E. apply (f_equal (@List.length string)) in E.
  rewrite !length_app in E. cbn in E. unfold path_parent in E.
  pose proof (removelast_is_prefix out) as Hp. apply is_prefix_spec in Hp as [r Hp].
  apply (f_equal (@List.length string)) in Hp. rewrite length_app in Hp. lia.
Qed.

Lemma make_archive_keeps_files h out zip_ targz s r s' (q : path) :
  make_archive h out zip_ targz s = (inr r, s') ->
  q <> path_parent out ++ [path_name out +:+ ".zip"] ->
  q <> path_parent out ++ [path_name out +:+ ".tar.gz"] ->
  is_file (files s') q = is_file (files s) q.
Proof.
  intros H H1 H2. apply is_file_ext. exact (make_archive_frame _ _ _ _ _ _ _ q H H1 H2).
Qed.

Lemma make_archive_writes h out zip_ targz s r s' :
  make_archive h out zip_ targz s = (inr r, s') ->
  (zip_ = true -> is_file (files s') (path_parent out ++ [path_name out +:+ ".zip"]) = true)
  /\ (zip_ = false -> targz = true ->
      is_file (files s') (path_parent out ++ [path_name out +:+ ".tar.gz"]) = true).
Proof.
  intros H. unfold make_archive in H. destruct zip_; cbn [negb andb] in H.
  - apply bind_inr in H as ([] & s1 & Hp & H). injection H as _ <-.
    split; [intros _; now apply pack_effect in Hp|discriminate].
  - split; [discriminate|]. intros _ ->. cbn [negb] in H.
    apply bind_inr in H as ([] & s1 & Hp & H). injection H as _ <-.
    now apply pack_effect in Hp.
Qed.

(** X23. When [main] returns 0, the staging directory holds [MANIFEST.txt]
    and [PACKAGING_NOTES.txt], the archive asked for is beside it (the zip
    when --zip is given, else the tar.gz when --targz is), and with
    --env-snapshot the files of [SNAPSHOT_FILES] are in [tools/env]. *)
Theorem main_leaves_its_outputs :
  forall h args s s',
    let out := resolve (cwd h) (expanduser (home h) (args_out args)) in
    main h args s = (inr 0%Z, s') ->
    is_file (files s') (out ++ ["MANIFEST.txt"]) = true
    /\ is_file (files s') (out ++ ["PACKAGING_NOTES.txt"]) = true
    /\ (args_zip_ args = true ->
        is_file (files s') (path_parent out ++ [path_name out +:+ ".zip"]) = true)
    /\ (args_zip_ args = false -> args_targz args = true ->
        is_file (files s') (path_parent out ++ [path_name out +:+ ".tar.gz"]) = true)
    /\ (args_env_snapshot args = true ->
        Forall (fun name => is_file (files s') (out ++ ["tools"; "env"; name]) = true)
               SNAPSHOT_FILES).
Proof.
  intros h args s s' out H. unfold main in H. fold out in H.
  apply bind_inr in H as (m & s0 & Hm & H). injection Hm as <- <-.
  destruct (negb (exists_ (files s) _)).
  { apply bind_inr in H as (? & ? & _ & H). discriminate H. }
  apply bind_inr in H as (sel & s1 & Hsel & H).
  destruct sel as [code|[runs run_dirs]].
  { destruct (determine_run_list_spec _ _ _ _ _ _ Hsel) as (_ & Hcode & _).
    injection H as -> _. now specialize (Hcode _ eq_refl). }
  apply bind_inr in H as (copied & s2 & Hstage & H).
  apply bind_inr in H as ([] & s3 & Hcap & H).
  apply bind_inr in H as ([] & s4 & Hman & H).
  apply bind_inr in H as ([] & s5 & Hnotes & H).
  apply bind_inr in H as (archive & s6 & Harch & H).
  apply bind_inr in H as ([] & s7 & Hp1 & H).
  apply bind_inr in H as ([] & s8 & Hp2 & H).
  apply bind_inr in H as ([] & s9 & Hp3 & H).
  apply bind_inr in H as ([] & s10 & Hp4 & H).
  injection H as <-.
  assert (F10 : files s10 = files s6).
  { assert (files s7 = files s6)
      by (destruct archive; [now apply print_inr in Hp1|now injection Hp1 as <-]).
    apply print_inr in Hp2, Hp3.
    destruct (args_env_snapshot args); [apply print_inr in Hp4|injection Hp4 as <-];
      congruence. }
  rewrite F10.
  assert (Hkeep : forall q : path,
            q <> path_parent out ++ [path_name out +:+ ".zip"] ->
            q <> path_parent out ++ [path_name out +:+ ".tar.gz"] ->
            is_file (files s5) q = true -> is_file (files s6) q = true).
  { intros q Hz Ht Hf. now rewrite (make_archive_keeps_files _ _ _ _ _ _ _ q Harch). }
  unfold write_manifest in Hman.
  destruct (manifest_text out copied) as [text|]; [|discriminate Hman].
  unfold write_notes in Hnotes.
  destruct (make_archive_writes _ _ _ _ _ _ _ Harch) as [Hz Ht].
  split; [|split; [|split; [exact Hz|split; [exact Ht|]]]].
  - apply Hkeep; [apply inside_is_not_archive; discriminate..|].
    apply (write_text_keeps_files _ _ _ _ _ _ Hnotes). left.
    apply (write_text_keeps_files _ _ _ _ _ _ Hman). now right.
  - apply Hkeep; [apply inside_is_not_archive; discriminate..|].
    apply (write_text_keeps_files _ _ _ _ _ _ Hnotes). now right.
  - intros Hsnap. rewrite Hsnap in Hcap.
    pose proof (snapshot_files_written _ _ _ _ _ _ Hcap) as Hfiles.
    eapply List.Forall_impl; [|exact Hfiles]. cbv beta. intros name Hname.
    apply Hkeep; [apply deeper_is_not_archive; cbn; lia..|].
    apply (write_text_keeps_files _ _ _ _ _ _ Hnotes). left.
    apply (write_text_keeps_files _ _ _ _ _ _ Hman). now left.
Qed.

Lemma main_leaves_its_outputs_witness :
  is_file (files (snd (main echo_host scenario_args_snapshot scenario_tree)))
          ["work"; "stage"; "MANIFEST.txt"] = true
  /\ is_file (files (snd (main echo_host scenario_args_snapshot scenario_tree)))
             ["work"; "stage"; "PACKAGING_NOTES.txt"] = true.
Proof.
  assert (Hfst : fst (main echo_host scenario_args_snapshot scenario_tree) = inr 0%Z)
    by (vm_compute; reflexivity).
  pose proof (surjective_pairing (main echo_host scenario_args_snapshot scenario_tree)) as H.
  rewrite Hfst in H.
  destruct (main_leaves_its_outputs _ _ _ _ H) as (H1 & H2 & _).
  split; [exact H1|exact H2].
Defined.

(** ** The manifest and the staged files *)

Lemma split_char_nonempty c s : split_char c s <> [].
Proof.
  destruct s as [|x s]; [discriminate|]. cbn [split_char].
  destruct (ascii_eqb x c); [discriminate|]. now destruct (split_char c s).
Qed.

Lemma split_char_app c X Y :
  split_char c (X +:+ String c Y) = split_char c X ++ split_char c Y.
Proof.
  induction X as [|x X IH].
  - change ("" +:+ String c Y) with (String c Y). cbn [split_char].
    unfold ascii_eqb. now rewrite Ascii.eqb_refl.
  - change (String x X +:+ String c Y) with (String x (X +:+ String c Y)).
    cbn [split_char]. rewrite IH. destruct (ascii_eqb x c); [reflexivity|].
    pose proof (split_char_nonempty c X). now destruct (split_char c X).
Qed.

Lemma normalize_last cur parts w :
  String.eqb w ".." = false -> path_name (normalize cur (parts ++ [w])) = w.
Proof.
  intros Hw. unfold normalize, path_name. rewrite fold_left_app. cbn [fold_left].
  rewrite Hw. apply last_last.
Qed.

(** The last component of a resolved path is the text after the last slash,
    when that is a name. *)
Lemma path_name_resolve base X w :
  split_char "/" w = [w] ->
  String.eqb w "" = false -> String.eqb w "." = false -> String.eqb w ".." = false ->
  path_name (resolve base (X +:+ String "/" w)) = w.
Proof.
  intros Hsplit H0 H1 H2.
  assert (Hparts : parse_parts (X +:+ String "/" w)
                   = parse_parts X ++ [w]).
  { unfold parse_parts. rewrite split_char_app, List.filter_app, Hsplit.
    cbn [List.filter]. now rewrite H0, H1. }
  unfold resolve. rewrite Hparts.
  destruct (startswith _ "/"); now apply normalize_last.
Qed.

Lemma string_app_assoc (a b c : string) : (a +:+ b) +:+ c = a +:+ (b +:+ c).
Proof.
  induction a as [|x a IH]; [reflexivity|].
  change ((String x a +:+ b) +:+ c) with (String x ((a +:+ b) +:+ c)).
  change (String x a +:+ b +:+ c) with (String x (a +:+ b +:+ c)). now rewrite IH.
Qed.

Lemma expanduser_in_home home rest :
  exists X, expanduser home ("~/" +:+ rest) = X +:+ String "/" rest.
Proof.
  unfold expanduser.
  change ("~/" +:+ rest) with (String "~" (String "/" rest)).
  change (String.eqb (String "~" (String "/" rest)) "~") with false.
  cbn [strip_prefix]. change (ascii_eqb "~" "~") with true. change (ascii_eqb "/" "/") with true.
  cbn iota. destruct home as [|a home].
  - now exists "".
  - exists (as_posix (a :: home)). reflexivity.
Qed.

Lemma explicit_file_names h :
  path_name (resolve (cwd h) (expanduser (home h) "~/.bash_aliases")) = ".bash_aliases"
  /\ path_name (resolve (cwd h)
                  (expanduser (home h) "~/paper_plots/generate_fig4_fig5_from_chains.py"))
     = "generate_fig4_fig5_from_chains.py".
Proof.
  split.
  - destruct (expanduser_in_home (home h) ".bash_aliases") as [X E].
    change ("~/" +:+ ".bash_aliases") with "~/.bash_aliases" in E. rewrite E.
    now apply path_name_resolve.
  - destruct (expanduser_in_home (home h) "paper_plots/generate_fig4_fig5_from_chains.py")
      as [X E].
    change ("~/" +:+ "paper_plots/generate_fig4_fig5_from_chains.py")
      with "~/paper_plots/generate_fig4_fig5_from_chains.py" in E.
    rewrite E.
    change (String "/" "paper_plots/generate_fig4_fig5_from_chains.py")
      with (("/" +:+ "paper_plots") +:+ String "/" "generate_fig4_fig5_from_chains.py").
    rewrite <- string_app_assoc. now apply path_name_resolve.
Qed.

Lemma mkdir_p_keeps_content p s u s' (q : path) d :
  mkdir_p p s = (inr u, s') ->
  files s !! q = Some (File d) -> files s' !! q = Some (File d).
Proof.
  intros H Hq. destruct (mkdir_p_effect _ _ _ _ H) as (_ & Hnf & _ & Hnot).
  rewrite Hnot; [exact Hq|]. intros Hin. specialize (Hnf q Hin).
  apply prefixes_spec in Hin as [Hne _].
  unfold is_file, node_at in Hnf. destruct q; [congruence|]. now rewrite Hq in Hnf.
Qed.

Lemma copy_file_keeps_content a b s c s' (q : path) d :
  copy_file a b s = (inr c, s') ->
  files s !! q = Some (File d) -> q <> b -> files s' !! q = Some (File d).
Proof.
  intros H Hq Hne.
  destruct (copy_file_effect _ _ _ _ _ H) as (data & _ & _ & _ & _ & _ & E6 & E7).
  rewrite E7; [exact Hq|exact Hne|]. intros Hin. destruct (E6 q Hin) as [Hnf _].
  apply prefixes_spec in Hin as [Hq0 _].
  unfold is_file, node_at in Hnf. destruct q; [congruence|]. now rewrite Hq in Hnf.
Qed.

Lemma copy_file_describes a b s c s' :
  copy_file a b s = (inr c, s') -> describes (files s') c /\ dst c = b.
Proof.
  intros H. destruct (copy_file_effect _ _ _ _ _ H) as (data & _ & Hb & -> & _).
  split; [|reflexivity]. exists data. auto.
Qed.

Lemma describes_kept (m m' : gmap path node) c :
  (forall d, m !! dst c = Some (File d) -> m' !! dst c = Some (File d)) ->
  describes m c -> describes m' c.
Proof. intros H (data & H1 & H2). exists data. auto. Qed.

Lemma copy_loop_describes incl excl run_dir D fs :
  forall copied t r t',
    List.NoDup fs ->
    (forall f, In f fs -> exists rel, relative_to f run_dir = Some rel) ->
    for_each fs (copy_run_file incl excl run_dir D) copied t = (inr r, t') ->
    exists new,
      r = copied ++ new
      /\ Forall (fun c => describes (files t') c /\ exists rel, dst c = D ++ rel) new
      /\ (forall (q : path) d,
            files t !! q = Some (File d) ->
            (forall f rel, In f fs -> relative_to f run_dir = Some rel -> q <> D ++ rel) ->
            files t' !! q = Some (File d)).
Proof.
  induction fs as [|f fs IH]; intros copied t r t' Hnd Hfs H.
  - injection H as <- <-. exists []. rewrite app_nil_r. auto.
  - cbn [for_each] in H. apply bind_inr in H as (c1 & t1 & Hf & H).
    destruct (Hfs f (or_introl eq_refl)) as (rel & Hrel).
    apply List.NoDup_cons_iff in Hnd as [Hnotin Hnd].
    assert (Hfs' : forall g, In g fs -> exists rel, relative_to g run_dir = Some rel)
      by (intros g Hg; apply Hfs; now right).
    destruct (copy_run_file_step _ _ _ _ _ _ _ _ _ _ Hrel Hf)
      as [(_ & -> & ->)|(_ & c & -> & Hc)].
    + destruct (IH _ _ _ _ Hnd Hfs' H) as (new & -> & Hnew & Hkeep).
      exists new. split; [reflexivity|]. split; [exact Hnew|].
      intros q d Hq Hq'. apply Hkeep; [exact Hq|].
      intros g rel' Hg. apply Hq'. now right.
    + destruct (IH _ _ _ _ Hnd Hfs' H) as (new & -> & Hnew & Hkeep).
      destruct (copy_file_describes _ _ _ _ _ Hc) as [Hdesc Hdst].
      exists (c :: new). rewrite <- app_assoc. split; [reflexivity|].
      split; [constructor; [split; [|eauto]|exact Hnew]|].
      * apply (describes_kept (files t1)); [|exact Hdesc].
        intros d Hd. apply Hkeep; [exact Hd|]. rewrite Hdst.
        intros g rel' Hg Hrel' E. apply app_inv_head in E. subst rel'.
        apply relative_to_spec in Hrel, Hrel'. congruence.
      * intros q d Hq Hq'. apply Hkeep.
        -- apply (copy_file_keeps_content _ _ _ _ _ _ _ Hc Hq).
           apply (Hq' f rel); [now left|exact Hrel].
        -- intros g rel' Hg. apply Hq'. now right.
Qed.

Lemma copy_run_dir_describes d out acc t r t' :
  copy_run_dir d out acc t = (inr r, t') ->
  exists new,
    r = acc ++ new
    /\ Forall (fun c => describes (files t') c
                        /\ exists rel, dst c = out ++ path_name d :: rel) new
    /\ (forall (q : path) x,
          files t !! q = Some (File x) ->
          (forall rel, q <> out ++ path_name d :: rel) ->
          files t' !! q = Some (File x)).
Proof.
  intros H. unfold copy_run_dir, copy_run_dir_with in H.
  apply bind_inr in H as ([] & t1 & Hmk & H).
  apply bind_inr in H as (m & t2 & Hm & H). injection Hm as <- <-.
  apply copy_loop_describes in H as (new & -> & Hnew & Hkeep);
    [|apply iter_run_files_nodup|intros f; apply iter_run_files_relative].
  exists new. split; [reflexivity|]. split.
  - eapply List.Forall_impl; [|exact Hnew]. intros c (Hc & rel & Hd).
    split; [exact Hc|]. exists rel. now rewrite Hd, <- app_assoc.
  - intros q x Hq Hne. apply Hkeep.
    + exact (mkdir_p_keeps_content _ _ _ _ _ _ Hmk Hq).
    + intros f rel _ _ E. apply (Hne rel). now rewrite E, <- app_assoc.
Qed.

(** The loop over the runs, for run directories of different names. *)
Lemma runs_loop_describes out dirs :
  forall done acc t r t',
    List.NoDup (done ++ map path_name dirs) ->
    Forall (fun c => describes (files t) c
                     /\ exists nm rel, In nm done /\ dst c = out ++ nm :: rel) acc ->
    for_each dirs (fun d copied => copy_run_dir d out copied) acc t = (inr r, t') ->
    Forall (fun c => describes (files t') c
                     /\ exists nm rel, In nm (done ++ map path_name dirs)
                                       /\ dst c = out ++ nm :: rel) r.
Proof.
  induction dirs as [|d dirs IH]; intros done acc t r t' Hnd Hacc H.
  - injection H as <- <-. cbn [map]. now rewrite app_nil_r.
  - cbn [for_each] in H. apply bind_inr in H as (acc1 & t1 & Hd & H).
    destruct (copy_run_dir_describes _ _ _ _ _ _ Hd) as (new & -> & Hnew & Hkeep).
    cbn [map] in Hnd |- *.
    pose proof (List.NoDup_remove_2 _ _ _ Hnd) as Hfresh.
    replace (done ++ path_name d :: map path_name dirs)
      with ((done ++ [path_name d]) ++ map path_name dirs) in *
      by (now rewrite <- app_assoc).
    apply (IH _ _ _ _ _ Hnd) in H; [exact H|].
    apply Forall_app. split.
    + eapply List.Forall_impl; [|exact Hacc]. intros c (Hc & nm & rel & Hin & Hdst).
      split; [|exists nm, rel; split; [apply in_or_app; now left|exact Hdst]].
      apply (describes_kept (files t)); [|exact Hc]. intros x Hx. apply Hkeep; [exact Hx|].
      rewrite Hdst. intros rel' E. apply app_inv_head in E. injection E as -> _.
      apply Hfresh, in_or_app. now left.
    + eapply List.Forall_impl; [|exact Hnew]. intros c (Hc & rel & Hdst).
      split; [exact Hc|]. exists (path_name d), rel.
      split; [apply in_or_app; right; now left|exact Hdst].
Qed.

Lemma copy_explicit_file_step h out p acc t r t' :
  copy_explicit_file h out p acc t = (inr r, t') ->
  (r = acc /\ files t' = files t)
  \/ exists c,
       r = acc ++ [c]
       /\ copy_file (resolve (cwd h) (expanduser (home h) p))
            (if String.eqb (path_name (resolve (cwd h) (expanduser (home h) p))) ".bash_aliases"
             then out ++ ["tools"; ".bash_aliases"]
             else out ++ ["paper_plots"; path_name (resolve (cwd h) (expanduser (home h) p))])
            t = (inr c, t').
Proof.
  unfold copy_explicit_file. intros H.
  apply bind_inr in H as (m & t0 & Hm & H). injection Hm as <- <-.
  destruct (negb (exists_ (files t) _) || negb (is_file (files t) _)).
  - apply bind_inr in H as ([] & t1 & Hp & H). injection H as <- <-.
    left. split; [reflexivity|]. now apply print_inr in Hp.
  - apply bind_inr in H as (c & t1 & Hc & H). injection H as <- <-. right. eauto.
Qed.

Lemma explicit_loop_describes h out acc t r t' :
  Forall (fun c => describes (files t) c
                   /\ dst c <> out ++ ["tools"; ".bash_aliases"]
                   /\ forall x, dst c <> out ++ ["paper_plots"; x]) acc ->
  for_each EXPLICIT_FILES (copy_explicit_file h out) acc t = (inr r, t') ->
  Forall (describes (files t')) r.
Proof.
  intros Hacc H. unfold EXPLICIT_FILES in H. cbn [for_each] in H.
  apply bind_inr in H as (acc1 & t1 & H1 & H).
  apply bind_inr in H as (acc2 & t2 & H2 & H). injection H as <- <-.
  destruct (explicit_file_names h) as [N1 N2].
  apply copy_explicit_file_step in H1, H2. rewrite N1 in H1. rewrite N2 in H2.
  change (String.eqb ".bash_aliases" ".bash_aliases") with true in H1.
  change (String.eqb "generate_fig4_fig5_from_chains.py" ".bash_aliases") with false in H2.
  cbn iota in H1, H2.
  assert (Hacc1 : Forall (fun c => describes (files t1) c
                            /\ forall x, dst c <> out ++ ["paper_plots"; x]) acc1).
  { destruct H1 as [[-> E]|(c & -> & Hc)].
    - rewrite E. eapply List.Forall_impl; [|exact Hacc]. now intros c (? & _ & ?).
    - apply Forall_app. split.
      + eapply List.Forall_impl; [|exact Hacc]. intros c' (Hd & Hn1 & Hn2).
        split; [|exact Hn2]. apply (describes_kept (files t)); [|exact Hd].
        intros d Hq. exact (copy_file_keeps_content _ _ _ _ _ _ _ Hc Hq Hn1).
      + destruct (copy_file_describes _ _ _ _ _ Hc) as [Hd Hdst].
        constructor; [|constructor]. split; [exact Hd|]. rewrite Hdst.
        intros x E. apply app_inv_head in E. discriminate E. }
  destruct H2 as [[-> E]|(c & -> & Hc)].
  - rewrite E. eapply List.Forall_impl; [|exact Hacc1]. now intros c (? & _).
  - apply Forall_app. split.
    + eapply List.Forall_impl; [|exact Hacc1]. intros c' (Hd & Hn2).
      apply (describes_kept (files t1)); [|exact Hd].
      intros d Hq. exact (copy_file_keeps_content _ _ _ _ _ _ _ Hc Hq (Hn2 _)).
    + constructor; [|constructor]. now apply copy_file_describes in Hc.
Qed.

Lemma stage_files_describes h out force run_dirs s copied s' :
  List.NoDup (map path_name run_dirs) ->
  ~ In "tools" (map path_name run_dirs) ->
  ~ In "paper_plots" (map path_name run_dirs) ->
  stage_files h out force run_dirs s = (inr copied, s') ->
  Forall (describes (files s')) copied.
Proof.
  intros Hnd Ht Hp H. unfold stage_files in H.
  apply bind_inr in H as ([] & s1 & _ & H).
  apply bind_inr in H as (c1 & s2 & Hruns & H).
  apply (runs_loop_describes out run_dirs [] [] s1 c1 s2 Hnd (List.Forall_nil _)) in Hruns.
  apply (explicit_loop_describes h out c1 s2); [|exact H].
  eapply List.Forall_impl; [|exact Hruns]. cbn [app].
  intros c (Hd & nm & rel & Hin & Hdst). split; [exact Hd|]. rewrite Hdst. split.
  - intros E. apply app_inv_head in E. injection E as -> _. contradiction.
  - intros x E. apply app_inv_head in E. injection E as -> _. contradiction.
Qed.

Lemma touches_mkdir_self p : touches (around p) (mkdir_p p).
Proof.
  eapply touches_weaken; [|apply touches_mkdir_p].
  intros q H. apply prefixes_spec in H as [_ H]. now right.
Qed.

(** The environment snapshot stays in [tools/env] and on the way to it. *)
Lemma touches_snapshot_directory h out venv :
  touches (around (out ++ ["tools"; "env"])) (capture_env_snapshot h out venv).
Proof.
  unfold capture_env_snapshot. cbv beta zeta.
  apply touches_bind; [apply touches_mkdir_self|]. intros _.
  touch; first [apply touches_run_bash_to_file | apply touches_write_class_fingerprint].
Qed.

Lemma staged_dst_off_snapshot out run_dirs c :
  ~ In "tools" (map path_name run_dirs) ->
  staged_dst out run_dirs c ->
  ~ around (out ++ ["tools"; "env"]) (dst c).
Proof.
  intros Ht Hc [H|H].
  - destruct (staged_dst_not_generated _ _ _ Hc) as (_ & _ & Hd).
    destruct (Hd H) as (d & Hin & Hn). apply Ht. rewrite <- Hn. now apply in_map.
  - destruct Hc as [(d & rel & Hd & Hne & _ & E)|[E|[name E]]]; rewrite E in H;
      rewrite is_prefix_app in H; cbn [is_prefix] in H.
    + apply andb_true_iff in H as [H _]. apply String.eqb_eq in H.
      apply Ht. rewrite <- H. now apply in_map.
    + discriminate H.
    + discriminate H.
Qed.

Lemma staged_dst_is_deep out run_dirs c :
  staged_dst out run_dirs c -> exists x, dst c = out ++ x /\ (2 <= List.length x)%nat.
Proof.
  intros [(d & rel & _ & Hne & _ & E)|[E|[name E]]].
  - exists (path_name d :: rel). split; [exact E|]. destruct rel; [congruence|cbn; lia].
  - eexists. split; [exact E|cbn; lia].
  - eexists. split; [exact E|cbn; lia].
Qed.

(** X24. When [main] returns 0 for run directories of different names, none
    of them called [tools] or [paper_plots], every record of the manifest
    tells the truth about the staging directory as the program leaves it: the
    file at its path holds bytes of the recorded size and SHA-256 digest. The
    records are those the staging step returned, and the manifest in the
    staging directory is the one written from them. *)
Theorem manifest_describes_the_staged_files :
  forall h args s s' runs run_dirs s1 copied s2,
    let base := resolve (cwd h) (expanduser (home h) (args_base args)) in
    let out := resolve (cwd h) (expanduser (home h) (args_out args)) in
    main h args s = (inr 0%Z, s') ->
    determine_run_list h args base s = (inr (inr (runs, run_dirs)), s1) ->
    stage_files h out (args_force args) run_dirs s1 = (inr copied, s2) ->
    List.NoDup (map path_name run_dirs) ->
    ~ In "tools" (map path_name run_dirs) ->
    ~ In "paper_plots" (map path_name run_dirs) ->
    Forall (describes (files s')) copied
    /\ exists text,
         manifest_text out copied = Some text
         /\ files s' !! (out ++ ["MANIFEST.txt"]) = Some (File text).
Proof.
  intros h args s s' runs run_dirs s1 copied s2 base out H Hsel Hstage Hnd Ht Hp.
  destruct (main_success h args s s' H)
    as (runs' & dirs' & s1' & copied' & s2' & text & Hsel' & Hstage' & Htext & Hlook & _).
  fold base out in Hsel', Hstage', Htext, Hlook.
  rewrite Hsel in Hsel'. injection Hsel' as <- <- <-.
  rewrite Hstage in Hstage'. injection Hstage' as <- <-.
  split; [|eauto].
  pose proof (stage_files_describes _ _ _ _ _ _ _ Hnd Ht Hp Hstage) as Hdesc.
  pose proof (stage_files_records _ _ _ _ _ _ _ Hstage) as Hrec.
  unfold main in H. fold base out in H.
  apply bind_inr in H as (m & s0 & Hm & H). injection Hm as <- <-.
  destruct (negb (exists_ (files s) base)).
  { apply bind_inr in H as (? & ? & _ & H). discriminate H. }
  rewrite bind_eq, Hsel, bind_eq, Hstage in H.
  apply bind_inr in H as ([] & s3 & Hcap & H).
  apply bind_inr in H as ([] & s4 & Hman & H).
  apply bind_inr in H as ([] & s5 & Hnotes & H).
  apply bind_inr in H as (archive & s6 & Harch & H).
  apply bind_inr in H as ([] & s7 & Hp1 & H).
  apply bind_inr in H as ([] & s8 & Hp2 & H).
  apply bind_inr in H as ([] & s9 & Hp3 & H).
  apply bind_inr in H as ([] & s10 & Hp4 & H).
  injection H as <-.
  assert (F10 : files s10 = files s6).
  { assert (files s7 = files s6)
      by (destruct archive; [now apply print_inr in Hp1|now injection Hp1 as <-]).
    apply print_inr in Hp2, Hp3.
    destruct (args_env_snapshot args); [apply print_inr in Hp4|injection Hp4 as <-];
      congruence. }
  unfold write_manifest in Hman. rewrite Htext in Hman. unfold write_notes in Hnotes.
  apply List.Forall_forall. intros c Hc.
  pose proof (proj1 (List.Forall_forall _ _) Hdesc c Hc) as Hd.
  pose proof (proj1 (List.Forall_forall _ _) Hrec c Hc) as Hr.
  destruct (staged_dst_not_generated _ _ _ Hr) as (Hn1 & Hn2 & _).
  destruct (staged_dst_is_deep _ _ _ Hr) as (x & Hx & Hlen).
  apply (describes_kept (files s2)); [|exact Hd]. intros d Hq.
  refine (eq_trans _ Hq). rewrite F10.
  refine (eq_trans (make_archive_frame _ _ _ _ _ _ _ (dst c) Harch _ _) _);
    [rewrite Hx; now apply deeper_is_not_archive..|].
  refine (eq_trans (write_text_frame _ _ _ _ _ (dst c) Hnotes Hn2) _).
  refine (eq_trans (write_text_frame _ _ _ _ _ (dst c) Hman Hn1) _).
  destruct (args_env_snapshot args); [|now injection Hcap as <-].
  apply (touches_snapshot_directory _ _ _ _ _ _ Hcap (dst c)).
  now apply (staged_dst_off_snapshot out run_dirs).
Qed.

Lemma manifest_describes_the_staged_files_witness :
  exists copied,
    fst (stage_files quiet_host ["work"; "stage"] true [["work"; "runA"]] scenario_tree)
    = inr copied
    /\ Forall (describes (files (snd (main quiet_host scenario_args scenario_tree)))) copied.
Proof.
  assert (Hmain : fst (main quiet_host scenario_args scenario_tree) = inr 0%Z)
    by (vm_compute; reflexivity).
  assert (Hsel : determine_run_list quiet_host scenario_args ["work"] scenario_tree
                 = (inr (inr (["runA"], [["work"; "runA"]])), scenario_tree))
    by (vm_compute; reflexivity).
  assert (Hst : exists copied,
            fst (stage_files quiet_host ["work"; "stage"] true [["work"; "runA"]] scenario_tree)
            = inr copied) by (vm_compute; eauto).
  destruct Hst as [copied Hst]. exists copied. split; [exact Hst|].
  pose proof (surjective_pairing (main quiet_host scenario_args scenario_tree)) as H.
  rewrite Hmain in H.
  pose proof (surjective_pairing
                (stage_files quiet_host ["work"; "stage"] true [["work"; "runA"]]
                   scenario_tree)) as Hstage.
  rewrite Hst in Hstage.
  refine (proj1 (manifest_describes_the_staged_files quiet_host scenario_args scenario_tree
                   _ _ _ _ _ _ H Hsel Hstage _ _ _)).
  - repeat constructor. intros [].
  - intros [E|[]]. discriminate E.
  - intros [E|[]]. discriminate E.
Defined.

(** Two run directories of the same name are staged into one directory: the
    file of the second replaces the file of the first, and the manifest lists
    the path twice, once with the size and digest of bytes that are no longer
    there. *)
Example same_name_runs_collide :
  fst (main quiet_host same_name_args same_name_tree) = inr 0%Z
  /\ files (snd (main quiet_host same_name_args same_name_tree))
       !! ["work"; "stage"; "x"; "f.txt"] = Some (File "22")
  /\ files (snd (main quiet_host same_name_args same_name_tree))
       !! ["work"; "stage"; "MANIFEST.txt"]
     = Some (File (join nl ["Total files: 2";
                            "Total bytes: 3";
                            "";
                            "sha256  bytes  path";
                            SHA256.hexdigest "1" +:+ "  1  x/f.txt";
                            SHA256.hexdigest "22" +:+ "  2  x/f.txt"]
                    +:+ nl)).
Proof.
  split; [vm_compute; reflexivity|].
  split; vm_compute; reflexivity.
Qed.

(** ** Determinism of the manifest *)





































